(** * Answer engine of the geometry tutoring application (app1.py)

    A shallow embedding of the answer-computation, grading and mastery-update
    logic of [app1.py], and the properties of it that the specification
    states; then of its problem page and of the handler that adds a problem,
    with further properties of the code.

    Conventions of the embedding.
    - A Python [float] is an IEEE-754 binary64 number: Rocq's primitive
      [float], whose operations are the same correctly rounded ones.
    - A Python [int] is a [Z]; a [str] is a [string], read as its sequence of
      bytes (the aliases and the number syntax the code looks at are ASCII).
    - [hasattr(x, "p")] is the field [p] of [x] being [Some]; a data
      property holds one value or a list of values, [None] among them.
    - An exception is a [None] result or the [Raise] outcome of the small
      state-and-exception monad of the submission handler.
    - A field that a posted form does not have reads as [None], as
      [request.form.get] gives it. *)

From Stdlib Require Import ZArith Lia Bool List Ascii String DecimalString.
From Stdlib Require Import Floats.
From stdpp Require Import base option strings gmap.
Import ListNotations.

Set Warnings "-inexact-float".
#[local] Open Scope string_scope.
#[local] Open Scope Z_scope.

(** ** Python numbers *)

Module PyNum.

(** [math.pi], the binary64 number nearest to pi. *)
Definition pi : float := 0x1.921fb54442d18p+1%float.

(** The value [(-1)^neg * m * 10^k], correctly rounded to binary64 (ties to
    even), as [float(str)] computes it from a decimal literal.  Too large a
    value gives an infinity and too small a one a zero, as in Python. *)
Definition sf_of_decimal (neg : bool) (m : positive) (k : Z) : spec_float :=
  if 0 <=? k
  then binary_normalize prec emax
         ((if neg then Z.neg m else Z.pos m) * 10 ^ k) 0 false
  else SFdiv prec emax (S754_finite neg m 0)
         (S754_finite false (Z.to_pos (10 ^ (- k))) 0).

(** [float(n)] for an [int]: the nearest binary64 number, [OverflowError]
    ([None]) when that is not finite. *)
Definition float_of_int (n : Z) : option float :=
  match binary_normalize prec emax n 0 false with
  | S754_infinity _ => None
  | x => Some (SF2Prim x)
  end.

(** *** Reading a number: [float(s)] for a [str] *)

Definition is_space (c : ascii) : bool :=
  let n := N_of_ascii c in
  ((9 <=? n)%N && (n <=? 13)%N) || (n =? 32)%N.

Definition is_digit (c : ascii) : bool :=
  let n := N_of_ascii c in (48 <=? n)%N && (n <=? 57)%N.

Definition digit_val (c : ascii) : Z := Z.of_N (N_of_ascii c) - 48.

Definition lower_ascii (c : ascii) : ascii :=
  let n := N_of_ascii c in
  if (65 <=? n)%N && (n <=? 90)%N then ascii_of_N (n + 32) else c.

(** [str.lower()] on the bytes of a string: the ASCII capitals change, every
    other byte stays. *)
Definition lower (s : string) : string :=
  string_of_list_ascii (map lower_ascii (list_ascii_of_string s)).

(** Underscores are dropped when each one stands between two digits; any
    other underscore makes the literal malformed. *)
Fixpoint drop_underscores (prev : ascii) (l : list ascii) : option (list ascii) :=
  match l with
  | [] => if Ascii.eqb prev "_" then None else Some []
  | c :: l' =>
      if Ascii.eqb c "_"
      then if is_digit prev then drop_underscores c l' else None
      else if Ascii.eqb prev "_" && negb (is_digit c) then None
           else option_map (cons c) (drop_underscores c l')
  end.

Fixpoint drop_spaces (l : list ascii) : list ascii :=
  match l with
  | c :: l' => if is_space c then drop_spaces l' else l
  | [] => []
  end.

Definition strip (l : list ascii) : list ascii :=
  rev (drop_spaces (rev (drop_spaces l))).

(** The longest prefix of digits, and what follows it. *)
Fixpoint span_digits (l : list ascii) : list ascii * list ascii :=
  match l with
  | c :: l' =>
      if is_digit c
      then let '(d, r) := span_digits l' in (c :: d, r)
      else ([], l)
  | [] => ([], [])
  end.

Definition Z_of_digits (d : list ascii) : Z :=
  fold_left (fun acc c => 10 * acc + digit_val c) d 0.

Definition read_sign (l : list ascii) : bool * list ascii :=
  match l with
  | "-"%char :: r => (true, r)
  | "+"%char :: r => (false, r)
  | _ => (false, l)
  end.

(** The exponent part: nothing, or [e]/[E], an optional sign and at least
    one digit, up to the end of the literal. *)
Definition read_exponent (l : list ascii) : option Z :=
  match l with
  | [] => Some 0
  | c :: r =>
      if Ascii.eqb (lower_ascii c) "e"
      then let '(neg, r1) := read_sign r in
           match span_digits r1 with
           | ((_ :: _) as d, []) =>
               Some (if neg then - Z_of_digits d else Z_of_digits d)
           | _ => None
           end
      else None
  end.

Definition sf_of_literal (l : list ascii) : option spec_float :=
  let '(neg, r) := read_sign l in
  let w := string_of_list_ascii (map lower_ascii r) in
  if String.eqb w "inf" || String.eqb w "infinity" then Some (S754_infinity neg)
  else if String.eqb w "nan" then Some S754_nan
  else
    let '(ip, r1) := span_digits r in
    let '(fp, r2) :=
      match r1 with
      | "."%char :: r1' => span_digits r1'
      | _ => ([], r1)
      end in
    match (ip ++ fp)%list with
    | [] => None
    | ds =>
        match read_exponent r2 with
        | None => None
        | Some e =>
            Some match Z_of_digits ds with
                 | Z.pos m => sf_of_decimal neg m (e - Z.of_nat (length fp))
                 | _ => S754_zero neg
                 end
        end
    end.

(** [float(s)] for a [str] of ASCII characters: [None] stands for
    [ValueError]. *)
Definition float_of_string (s : string) : option float :=
  match drop_underscores "000"%char (list_ascii_of_string s) with
  | None => None
  | Some l => option_map SF2Prim (sf_of_literal (strip l))
  end.


(** *** Writing a number: [str(x)] *)

Definition string_of_Z (z : Z) : string :=
  DecimalString.NilZero.string_of_int (Z.to_int z).

Section ShortestRepr.
(** The positive number [num / den] to write, and the float it came from. *)
Variables (num den : Z) (x : float).

(** [num / den < 10 ^ p] *)
Definition below_pow10 (p : Z) : bool :=
  if 0 <=? p then num <? den * 10 ^ p else num * 10 ^ (- p) <? den.

(** The least [p] from [p0] on with [num / den < 10 ^ p]. *)
Fixpoint find_decpt (fuel : nat) (p0 : Z) : Z :=
  match fuel with
  | O => p0
  | S fuel' => if below_pow10 p0 then p0 else find_decpt fuel' (p0 + 1)
  end.

Definition round_trips (c k : Z) : bool :=
  match c with
  | Z.pos m => PrimFloat.eqb (SF2Prim (sf_of_decimal false m k)) x
  | _ => false
  end.

(** The [n]-digit decimal [c * 10 ^ (p - n)] nearest to [num / den] among
    the two around it that read back as [x], if one does. *)
Definition candidate (p : Z) (n : Z) : option Z :=
  let k := p - n in
  let '(a, b) := if 0 <=? k then (num, den * 10 ^ k)
                 else (num * 10 ^ (- k), den) in
  let q := a / b in
  let r := a mod b in
  let lo := round_trips q k in
  let hi := round_trips (q + 1) k in
  if lo && (negb hi || (2 * r <=? b)) then Some q
  else if hi then Some (q + 1)
  else None.

Fixpoint shortest (fuel : nat) (p n : Z) : Z * Z :=
  match fuel with
  | O => (num, n)
  | S fuel' =>
      match candidate p n with
      | Some c => (c, n)
      | None => shortest fuel' p (n + 1)
      end
  end.
End ShortestRepr.

Fixpoint drop_zeros (l : list ascii) : list ascii :=
  match l with
  | "0"%char :: l' => drop_zeros l'
  | _ => l
  end.

Definition zeros (n : Z) : string :=
  string_of_list_ascii (repeat "0"%char (Z.to_nat n)).

(** The digits [ds] with the decimal point after the first [decpt] of them,
    in the layout of [repr]: plain between 1e-4 and 1e16, with an exponent
    of at least two digits otherwise. *)
Definition layout (ds : list ascii) (decpt : Z) : string :=
  let nd := Z.of_nat (length ds) in
  if (decpt <=? -4) || (16 <? decpt) then
    let e := decpt - 1 in
    let es := string_of_Z (Z.abs e) in
    string_of_list_ascii (firstn 1 ds)
    ++ (if 1 <? nd then "." ++ string_of_list_ascii (skipn 1 ds) else "")
    ++ "e" ++ (if e <? 0 then "-" else "+")
    ++ (if Z.abs e <? 10 then "0" else "") ++ es
  else if decpt <=? 0 then
    "0." ++ zeros (- decpt) ++ string_of_list_ascii ds
  else if nd <=? decpt then
    string_of_list_ascii ds ++ zeros (decpt - nd) ++ ".0"
  else
    string_of_list_ascii (firstn (Z.to_nat decpt) ds) ++ "."
    ++ string_of_list_ascii (skipn (Z.to_nat decpt) ds).

(** [str(x)] for a float: the shortest decimal that reads back as [x]. *)
Definition string_of_float (x : float) : string :=
  match Prim2SF x with
  | S754_nan => "nan"
  | S754_infinity s => if s then "-inf" else "inf"
  | S754_zero s => if s then "-0.0" else "0.0"
  | S754_finite s m e =>
      let '(num, den) := if 0 <=? e then (Z.pos m * 2 ^ e, 1)
                         else (Z.pos m, 2 ^ (- e)) in
      let p := find_decpt num den 700 (-330) in
      let '(c, n) := shortest num den (abs x) 17 p 1 in
      let cs := list_ascii_of_string (string_of_Z c) in
      let decpt := p + (Z.of_nat (length cs) - n) in
      (if s then "-" else "") ++ layout (rev (drop_zeros (rev cs))) decpt
  end.

End PyNum.

(** ** Python values *)

Module Py.
Import PyNum.

(** The values a data property of the ontology can hold. *)
Inductive pyval :=
  | PyNone
  | PyBool (b : bool)
  | PyInt (n : Z)
  | PyFloat (x : float)
  | PyStr (s : string).

(** What reading a data property gives: one value when the property is
    functional, a list of values otherwise.  A property an object does not
    have at all ([hasattr] false) is [None] of [option propval]. *)
Inductive propval :=
  | PScalar (v : pyval)
  | PList (l : list pyval).

(** [bool(v)] *)
Definition truthy (v : pyval) : bool :=
  match v with
  | PyNone => false
  | PyBool b => b
  | PyInt n => negb (n =? 0)
  | PyFloat x => negb (PrimFloat.eqb x 0)
  | PyStr s => negb (String.eqb s "")
  end.

Definition prop_truthy (p : propval) : bool :=
  match p with
  | PScalar v => truthy v
  | PList l => match l with [] => false | _ => true end
  end.

(** [getattr(x, "p", None)] used as a condition. *)
Definition attr_truthy (a : option propval) : bool :=
  match a with
  | Some p => prop_truthy p
  | None => false
  end.

(** [str(v)] *)
Definition str (v : pyval) : string :=
  match v with
  | PyNone => "None"
  | PyBool b => if b then "True" else "False"
  | PyInt n => string_of_Z n
  | PyFloat x => string_of_float x
  | PyStr s => s
  end.

(** [float(v)]; [None] is the exception ([TypeError], [ValueError] or
    [OverflowError]) that the callers catch. *)
Definition to_float (v : pyval) : option float :=
  match v with
  | PyNone => None
  | PyBool b => Some (if b then 1 else 0)%float
  | PyInt n => float_of_int n
  | PyFloat x => Some x
  | PyStr s => float_of_string s
  end.

(** [p[0]]: the first element of a list, the first character of a string;
    [None] is the [IndexError] or [TypeError]. *)
Definition index0 (p : propval) : option pyval :=
  match p with
  | PList (v :: _) => Some v
  | PList [] => None
  | PScalar (PyStr (String c _)) => Some (PyStr (String c EmptyString))
  | PScalar _ => None
  end.

(** [max(a, b)] of two floats: the first argument unless the second is
    greater. *)
Definition max_float (a b : float) : float :=
  if PrimFloat.ltb a b then b else a.

(** [s.split('_')[0]] *)
Fixpoint before_underscore (s : string) : string :=
  match s with
  | EmptyString => EmptyString
  | String c s' =>
      if Ascii.eqb c "_" then EmptyString else String c (before_underscore s')
  end.

(** ['_' in s] *)
Fixpoint has_underscore (s : string) : bool :=
  match s with
  | EmptyString => false
  | String c s' => Ascii.eqb c "_" || has_underscore s'
  end.

End Py.

(** ** The ontology individuals the engine reads *)

Module Onto.
Import PyNum Py.

(** A class an individual belongs to; an anonymous class construct has no
    [name]. *)
Record OntoClass := { class_name : option string }.

Record Shape := {
  shape_name : string;
  is_a : list OntoClass
}.

Record Dimension := {
  dimensionName : option propval;
  dimensionValue : option propval
}.

(** A Problem.  The object properties [hasShape], [hasProblemDimension] and
    [hasDimension] are list-valued, as the code that writes them has them. *)
Record Problem := {
  problem_name : string;
  hasShape : option (list Shape);
  hasProblemDimension : option (list Dimension);
  hasDimension : option (list Dimension);
  inlineDimensionName : option propval;
  inlineDimensionValue : option propval;
  correctAnswer : option propval
}.

(** One entry of the dimension sequence: the name as it was found, and the
    value as a string, or [None]. *)
Definition dim : Type := pyval * option string.

Definition known_kinds : list string :=
  ["Circle"; "Square"; "Rectangle"; "Triangle"].

Definition is_known_kind (s : string) : bool :=
  existsb (String.eqb s) known_kinds.

(** *** [dims_for_problem] *)

(** [str(val)] unless [val] is [None]. *)
Definition str_opt (v : pyval) : option string :=
  match v with
  | PyNone => None
  | _ => Some (str v)
  end.

(** The name of a Dimension: [d.dimensionName[0]] when the property holds
    something truthy, the empty string otherwise.  The outer [None] is the
    exception of indexing a value that is neither a list nor a string. *)
Definition entry_name (d : Dimension) : option pyval :=
  if attr_truthy (dimensionName d)
  then match dimensionName d with
       | Some p => index0 p
       | None => None
       end
  else Some (PyStr "").

(** The value of a Dimension: the first element of a non-empty list, and
    otherwise whatever [getattr(d, "dimensionValue", None)] gives (the empty
    list included, which [str] writes as two brackets). *)
Definition entry_value (d : Dimension) : option string :=
  match dimensionValue d with
  | Some (PList (v :: _)) => str_opt v
  | Some (PList []) => Some "[]"
  | Some (PScalar v) => str_opt v
  | None => None
  end.

(** The loop over the Dimension individuals.  An exception leaves the loop
    with the entries collected so far (the handler only reports it). *)
Fixpoint collect_dims (ds : list Dimension) (dims : list dim) : list dim :=
  match ds with
  | [] => dims
  | d :: ds' =>
      match entry_name d with
      | Some name => collect_dims ds' (dims ++ [(name, entry_value d)])%list
      | None => dims
      end
  end.

(** The single dimension inlined on the Problem itself. *)
Definition inline_dims (problem : Problem) : list dim :=
  if attr_truthy (inlineDimensionValue problem) then
    let name :=
      match inlineDimensionName problem with
      | Some (PList (n :: _)) => n
      | _ => PyStr ""
      end in
    let val :=
      match inlineDimensionValue problem with
      | Some (PList (v :: _)) => str_opt v
      | Some (PScalar v) => str_opt v
      | _ => None
      end in
    [(name, val)]
  else [].

Definition nonempty {A} (l : option (list A)) : bool :=
  match l with
  | Some (_ :: _) => true
  | _ => false
  end.

Definition dims_for_problem (problem : Problem) : list dim :=
  if nonempty (hasProblemDimension problem) then
    collect_dims (default [] (hasProblemDimension problem)) []
  else if nonempty (hasDimension problem) then
    collect_dims (default [] (hasDimension problem)) []
  else inline_dims problem.

(** *** [shape_for_problem] *)

(** Step 1: the first class of the shape whose name is one of the four. *)
Fixpoint first_known_class (cs : list OntoClass) : option string :=
  match cs with
  | [] => None
  | c :: cs' =>
      match class_name c with
      | Some cname =>
          if is_known_kind cname then Some cname else first_known_class cs'
      | None => first_known_class cs'
      end
  end.

(** Step 2: the part of the shape's own name before its first underscore. *)
Definition name_hint (s : Shape) : option string :=
  if negb (String.eqb (shape_name s) "") && has_underscore (shape_name s)
  then let h := before_underscore (shape_name s) in
       if is_known_kind h then Some h else None
  else None.

(** Step 3: the name of the first class, whatever it is. *)
Definition first_class_name (s : Shape) : option string :=
  match is_a s with
  | first :: _ => class_name first
  | [] => None
  end.

Definition shape_for_problem (problem : Problem) : option string * option Shape :=
  match hasShape problem with
  | None | Some [] => (None, None)
  | Some (s :: _) =>
      match first_known_class (is_a s) with
      | Some cname => (Some cname, Some s)
      | None =>
          match name_hint s with
          | Some h => (Some h, Some s)
          | None => (first_class_name s, Some s)
          end
      end
  end.

(** *** [compute_answer] *)

(** [float(v) if v is not None else None], inside its [try]. *)
Definition float_of_value (v : option string) : option float :=
  match v with
  | Some s => float_of_string s
  | None => None
  end.

(** [n and str(n).lower() in target_names] *)
Definition name_matches (target_names : list string) (n : pyval) : bool :=
  truthy n && existsb (String.eqb (lower (str n))) target_names.

(** The search by name of [get_val]: the first entry whose name is truthy
    and, written in lower case, is one of the targets.  The outer [None]
    means that no entry matched. *)
Fixpoint search_by_name (target_names : list string) (dims : list dim)
  : option (option float) :=
  match dims with
  | [] => None
  | (n, v) :: dims' =>
      if name_matches target_names n
      then Some (float_of_value v)
      else search_by_name target_names dims'
  end.

Definition get_val (dims : list dim) (names : list string) : option float :=
  let target_names := map lower names in
  match search_by_name target_names dims with
  | Some r => r
  | None =>
      match dims with
      | [(_, v)] => float_of_value v
      | _ => None
      end
  end.

(** [x is None] *)
Definition is_none {A} (x : option A) : bool :=
  match x with
  | None => true
  | Some _ => false
  end.

(** The Rectangle branch.  [None] out of the fallback is the [return None]
    of its handler. *)
Definition rectangle_answer (dims : list dim) : option float :=
  let l := get_val dims ["length"; "l"] in
  let w := get_val dims ["width"; "w"] in
  let fallback : option (option float * option float) :=
    if is_none l || is_none w then
      match dims with
      | (_, Some v0) :: (_, Some v1) :: _ =>
          match float_of_string v0 with
          | None => None
          | Some l' =>
              match float_of_string v1 with
              | None => None
              | Some w' => Some (Some l', Some w')
              end
          end
      | _ => Some (l, w)
      end
    else Some (l, w) in
  match fallback with
  | Some (Some l, Some w) => Some (l * w)%float
  | _ => None
  end.

(** The body of [compute_answer], given the shape name and the dimension
    sequence its first two lines obtain. *)
Definition answer_for (shape_name : option string) (dims : list dim)
  : option float :=
  match shape_name with
  | None => None
  | Some kind =>
      if String.eqb kind "Circle" then
        match get_val dims ["radius"; "r"] with
        | None => None
        | Some r => Some (pi * r * r)%float
        end
      else if String.eqb kind "Square" then
        match get_val dims ["side"; "s"] with
        | None => None
        | Some s => Some (s * s)%float
        end
      else if String.eqb kind "Rectangle" then rectangle_answer dims
      else if String.eqb kind "Triangle" then
        match get_val dims ["base"; "b"], get_val dims ["height"; "h"] with
        | Some b, Some h => Some (0.5 * b * h)%float
        | _, _ => None
        end
      else None
  end.

Definition compute_answer (problem : Problem) : option float :=
  answer_for (fst (shape_for_problem problem)) (dims_for_problem problem).

(** *** [approx_equal] *)

Definition approx_equal_tol (a b : pyval) (rel_tol abs_tol : float) : bool :=
  match to_float a, to_float b with
  | Some a, Some b =>
      PrimFloat.leb (abs (a - b)) (max_float abs_tol (rel_tol * abs b))
  | _, _ => false
  end.

(** The call with the default tolerances. *)
Definition approx_equal (a b : pyval) : bool :=
  approx_equal_tol a b 0.02 0.05.

End Onto.

(** ** The submission handler: grading and the mastery update *)

Module Submit.
Import PyNum Py Onto.

(** An Attempt individual; [attemptOf] names the Problem it links to. *)
Record Attempt := {
  attempt_name : string;
  attemptOf : option (list string);
  hasAnswer : option (list float);
  isCorrect : option (list bool)
}.

(** A Student individual.  Its properties are lists, of the types the
    handler writes: an [int] score, a [float] mastery level, Attempts. *)
Record Student := {
  student_name : string;
  studentScore : option (list Z);
  masteryLevel : option (list float);
  attempts : option (list Attempt)
}.

(** What the loaded ontology declares: the two classes the handler looks
    up, and the properties a newly created individual has.  A declared
    property of a new individual reads as the empty list. *)
Record Schema := {
  has_Student : bool;
  has_Attempt : bool;
  decl_studentScore : bool;
  decl_masteryLevel : bool;
  decl_attempts : bool;
  decl_attemptOf : bool;
  decl_hasAnswer : bool;
  decl_isCorrect : bool
}.

(** The in-memory ontology: individuals by name, each looked up within its
    own class, and the Attempt individuals in the order of their creation.

    [get_individual] is embedded as the lookup of the exact name among the
    individuals of the class asked for.  It also returns an individual of
    another class that has the name, and the first entity whose IRI matches
    the name read as a pattern; requests with such names are outside the
    embedding. *)
Record Store := {
  schema : Schema;
  problems : gmap string Problem;
  students : gmap string Student;
  attempt_log : list Attempt
}.

Definition declared {A} (b : bool) : option (list A) :=
  if b then Some [] else None.

(** [StudentClass(student_name)] *)
Definition new_student (sc : Schema) (name : string) : Student :=
  {| student_name := name;
     studentScore := declared (decl_studentScore sc);
     masteryLevel := declared (decl_masteryLevel sc);
     attempts := declared (decl_attempts sc) |}.

(** [AttemptClass(att_name)] *)
Definition new_attempt (sc : Schema) (name : string) : Attempt :=
  {| attempt_name := name;
     attemptOf := declared (decl_attemptOf sc);
     hasAnswer := declared (decl_hasAnswer sc);
     isCorrect := declared (decl_isCorrect sc) |}.

(** The two initialising assignments after a Student is created: a property
    the individual does not have is set to its starting value. *)
Definition init_student (s : Student) : Student :=
  {| student_name := student_name s;
     studentScore := match studentScore s with
                     | None => Some [0]
                     | Some l => Some l
                     end;
     masteryLevel := match masteryLevel s with
                     | None => Some [0%float]
                     | Some l => Some l
                     end;
     attempts := attempts s |}.

(** [x = [v]] when the individual has the property. *)
Definition assign {A} (x : option (list A)) (v : A) : option (list A) :=
  match x with
  | Some _ => Some [v]
  | None => None
  end.

(** *** A state monad with exceptions

    A step changes the store and returns a value or raises; what a step
    changed before a later one raises stays changed, as the handler's
    [except] clause undoes nothing. *)

Inductive result (A : Type) :=
  | Ok (a : A)
  | Raise.
Arguments Ok {A} a.
Arguments Raise {A}.

Definition M (A : Type) : Type := Store -> result A * Store.

Definition ret {A} (a : A) : M A := fun st => (Ok a, st).

Definition bind {A B} (m : M A) (k : A -> M B) : M B :=
  fun st =>
    match m st with
    | (Ok a, st') => k a st'
    | (Raise, st') => (Raise, st')
    end.

Definition get_store : M Store := fun st => (Ok st, st).

(** A partial operation: [None] raises. *)
Definition lift {A} (x : option A) : M A :=
  fun st =>
    match x with
    | Some a => (Ok a, st)
    | None => (Raise, st)
    end.

(** The individual of that name is now [s]: an individual is changed in
    place, and so stays under the name it was found or created with. *)
Definition put_student (name : string) (s : Student) : M unit :=
  fun st =>
    (Ok tt, {| schema := schema st;
               problems := problems st;
               students := <[name := s]> (students st);
               attempt_log := attempt_log st |}).

Definition put_problem (name : string) (p : Problem) : M unit :=
  fun st =>
    (Ok tt, {| schema := schema st;
               problems := <[name := p]> (problems st);
               students := students st;
               attempt_log := attempt_log st |}).

(** [AttemptClass(att_name)] for a name that no Attempt has yet: a new
    individual.  (For a name in use owlready2 hands back the individual
    that has it.) *)
Definition log_attempt (a : Attempt) : M unit :=
  fun st =>
    (Ok tt, {| schema := schema st;
               problems := problems st;
               students := students st;
               attempt_log := (attempt_log st ++ [a])%list |}).

#[global] Instance M_ret : MRet M := @ret.
#[global] Instance M_bind : MBind M := fun A B k m => bind m k.

(** *** The steps of [problem_submit] *)

(** [a / b] on floats: [None] is [ZeroDivisionError]. *)
Definition float_div (a b : float) : option float :=
  if PrimFloat.eqb b 0 then None else Some (a / b)%float.

(** The stored answer the handler falls back to: there when the property
    holds something truthy that [float] accepts. *)
Definition stored_answer (prob : Problem) : option float :=
  if attr_truthy (correctAnswer prob) then
    match correctAnswer prob with
    | Some (PList (v :: _)) => to_float v
    | Some (PScalar v) => to_float v
    | _ => None
    end
  else None.

(** The value a submission is graded against: the computed answer, or else
    the stored one; [None] when there is neither. *)
Definition correct_value (prob : Problem) : option float :=
  match compute_answer prob with
  | Some c => Some c
  | None => stored_answer prob
  end.

(** [student.studentScore[0] if getattr(student, "studentScore", None) else 0] *)
Definition current_score (s : Student) : Z :=
  match studentScore s with
  | Some (x :: _) => x
  | _ => 0
  end.

(** [len(getattr(student, "attempts", []))] *)
Definition count_attempts (s : Student) : Z :=
  Z.of_nat (length (default [] (attempts s))).

(** The Attempt of a submission, with the properties it has set. *)
Definition make_attempt (sc : Schema) (student : Student) (prob : Problem)
    (timestamp : string) (answer_val : float) (is_correct : bool) : Attempt :=
  let a := new_attempt sc
             ("Attempt_" ++ student_name student ++ "_" ++ problem_name prob
              ++ "_" ++ timestamp) in
  {| attempt_name := attempt_name a;
     attemptOf := assign (attemptOf a) (problem_name prob);
     hasAnswer := assign (hasAnswer a) answer_val;
     isCorrect := assign (isCorrect a) is_correct |}.

(** [student.attempts.append(attempt)] when the Student has the property. *)
Definition append_attempt (s : Student) (a : Attempt) : Student :=
  {| student_name := student_name s;
     studentScore := studentScore s;
     masteryLevel := masteryLevel s;
     attempts := match attempts s with
                 | Some l => Some (l ++ [a])%list
                 | None => None
                 end |}.

Definition set_score (s : Student) (score : Z) : Student :=
  {| student_name := student_name s;
     studentScore := assign (studentScore s) score;
     masteryLevel := masteryLevel s;
     attempts := attempts s |}.

Definition set_mastery (s : Student) (mastery : float) : Student :=
  {| student_name := student_name s;
     studentScore := studentScore s;
     masteryLevel := assign (masteryLevel s) mastery;
     attempts := attempts s |}.

(** [float(curr_score) / float(max(1, num_attempts))] *)
Definition mastery_of (curr_score num_attempts : Z) : option float :=
  match float_of_int curr_score, float_of_int (Z.max 1 num_attempts) with
  | Some a, Some b => float_div a b
  | _, _ => None
  end.

(** The mastery update, once the Attempt is linked. *)
Definition update_mastery (name : string) (s : Student) (is_correct : bool)
  : M unit :=
  let curr_score := current_score s in
  let num_attempts := count_attempts s in
  let curr_score := if is_correct then curr_score + 1 else curr_score in
  let s := set_score s curr_score in
  put_student name s ;;
  match masteryLevel s with
  | Some _ =>
      mastery ← lift (mastery_of curr_score num_attempts) ;
      put_student name (set_mastery s mastery)
  | None => mret tt
  end.

(** [prob.correctAnswer = [float(correct_val)]] when the property is there
    and holds [None]. *)
Definition store_correct_answer (name : string) (prob : Problem)
    (correct_val : float) : M unit :=
  match correctAnswer prob with
  | Some (PScalar PyNone) =>
      put_problem name
        {| problem_name := problem_name prob;
           hasShape := hasShape prob;
           hasProblemDimension := hasProblemDimension prob;
           hasDimension := hasDimension prob;
           inlineDimensionName := inlineDimensionName prob;
           inlineDimensionValue := inlineDimensionValue prob;
           correctAnswer := Some (PList [PyFloat correct_val]) |}
  | _ => mret tt
  end.

(** The body of the handler's [try] block. *)
Definition record_attempt (name : string) (prob : Problem)
    (student_name timestamp : string)
    (answer_val correct_val : float) (is_correct : bool) : M unit :=
  st ← get_store ;
  student ← match students st !! student_name with
            | Some s => mret s
            | None =>
                let s := init_student (new_student (schema st) student_name) in
                put_student student_name s ;; mret s
            end ;
  let attempt :=
    make_attempt (schema st) student prob timestamp answer_val is_correct in
  log_attempt attempt ;;
  let student := append_attempt student attempt in
  put_student student_name student ;;
  update_mastery student_name student is_correct ;;
  store_correct_answer name prob correct_val.

(** [s.strip()] on the bytes of a string: the ASCII white space at both
    ends is removed.  (Python also removes the other white space of
    Unicode, which no ASCII text has.) *)
Definition is_space_str (c : ascii) : bool :=
  let n := N_of_ascii c in
  ((9 <=? n)%N && (n <=? 13)%N) || ((28 <=? n)%N && (n <=? 32)%N).

Fixpoint lstrip (l : list ascii) : list ascii :=
  match l with
  | c :: l' => if is_space_str c then lstrip l' else l
  | [] => []
  end.

Definition str_strip (s : string) : string :=
  string_of_list_ascii (rev (lstrip (rev (lstrip (list_ascii_of_string s))))).

(** The form of a submission that has its [student] field, and the time it
    is stamped with. *)
Record Request := {
  form_student : string;
  form_answer : option string;
  timestamp : string
}.

(** [request.form.get("student").strip() or "Student_Anonymous"] *)
Definition submitter (req : Request) : string :=
  let s := str_strip (form_student req) in
  if String.eqb s "" then "Student_Anonymous" else s.

(** How a submission ends. *)
Inductive outcome :=
  | ProblemNotFound
  | InvalidAnswer
  | CannotGrade
  | ClassNotFound
  | UpdateFailed
  | Graded (is_correct : bool) (answer_val correct_val : float).

Definition problem_submit (name : string) (req : Request) (st : Store)
  : outcome * Store :=
  match problems st !! name with
  | None => (ProblemNotFound, st)
  | Some prob =>
      let student_name := submitter req in
      match float_of_value (form_answer req) with
      | None => (InvalidAnswer, st)
      | Some answer_val =>
          match correct_value prob with
          | None => (CannotGrade, st)
          | Some correct_val =>
              let is_correct :=
                approx_equal (PyFloat answer_val) (PyFloat correct_val) in
              if has_Student (schema st) && has_Attempt (schema st) then
                match record_attempt name prob student_name (timestamp req)
                        answer_val correct_val is_correct st with
                | (Ok _, st') => (Graded is_correct answer_val correct_val, st')
                | (Raise, st') => (UpdateFailed, st')
                end
              else (ClassNotFound, st)
          end
      end
  end.

(** The Student a submission under that name updates: the individual of
    that name, or the one the handler creates and initialises. *)
Definition student_before (st : Store) (name : string) : Student :=
  match students st !! name with
  | Some s => s
  | None => init_student (new_student (schema st) name)
  end.

(** A sequence of submissions, each to a named Problem. *)
Fixpoint submit_all (reqs : list (string * Request)) (st : Store) : Store :=
  match reqs with
  | [] => st
  | (name, req) :: reqs' => submit_all reqs' (snd (problem_submit name req st))
  end.

(** The graded attempts of one student in a sequence of submissions, in
    order: [true] for an attempt graded correct. *)
Fixpoint graded_by (student : string) (reqs : list (string * Request))
    (st : Store) : list bool :=
  match reqs with
  | [] => []
  | (name, req) :: reqs' =>
      let '(o, st') := problem_submit name req st in
      match o with
      | Graded is_correct _ _ =>
          if String.eqb (submitter req) student
          then is_correct :: graded_by student reqs' st'
          else graded_by student reqs' st'
      | _ => graded_by student reqs' st'
      end
  end.

(** *** The form as it is posted *)

(** [request.form.get] gives [None] for a field that is missing.  The time
    is the one the handler stamps the Attempt with. *)
Record Posted := {
  posted_student : option string;
  posted_answer : option string;
  posted_at : string
}.

(** The [Request] of a posted form that has its [student] field. *)
Definition request_of (student : string) (form : Posted) : Request :=
  {| form_student := student;
     form_answer := posted_answer form;
     timestamp := posted_at form |}.

(** [problem_submit] from the posted form.  Once the Problem is found the
    handler strips the [student] field; on a form without that field this
    raises an [AttributeError] outside every [try]: the request ends with
    no outcome of the handler's, [None], and nothing is changed. *)
Definition problem_submit_posted (name : string) (form : Posted) (st : Store)
  : option outcome * Store :=
  match problems st !! name with
  | None => (Some ProblemNotFound, st)
  | Some _ =>
      match posted_student form with
      | None => (None, st)
      | Some student =>
          let '(o, st') := problem_submit name (request_of student form) st in
          (Some o, st')
      end
  end.

(** A sequence of posted submissions, each to a named Problem. *)
Fixpoint post_all (posts : list (string * Posted)) (st : Store) : Store :=
  match posts with
  | [] => st
  | (name, form) :: posts' =>
      post_all posts' (snd (problem_submit_posted name form st))
  end.

End Submit.

(** ** What the specification speaks of *)

Module Spec.
Import PyNum Py Onto.

(** No entry of the sequence has one of the names. *)
Definition unnamed (dims : list dim) (names : list string) : Prop :=
  Forall (fun e => name_matches (map lower names) (fst e) = false) dims.

(** The class names none of the four kinds. *)
Definition not_a_kind (c : OntoClass) : Prop :=
  forall k, class_name c = Some k -> is_known_kind k = false.

(** *** The value lookup of section 4.3

    The lookup in the words of the specification, written without the
    functions of the code: a search by name over the texts of the names,
    and the positional fallback for a sequence of exactly one entry. *)

(** The name is one of the accepted names: a text that, letter case apart,
    is one of them. *)
Definition is_called (names : list string) (n : pyval) : bool :=
  match n with
  | PyStr s => existsb (String.eqb (lower s)) (map lower names)
  | _ => false
  end.

(** The value of the first entry under one of the names, if there is such
    an entry. *)
Fixpoint first_called (names : list string) (dims : list dim)
  : option (option string) :=
  match dims with
  | [] => None
  | (n, v) :: rest =>
      if is_called names n then Some v else first_called names rest
  end.

(** The number a value stands for; a missing value and one that is not
    numeric are no value. *)
Definition number (v : option string) : option float :=
  match v with
  | Some s => float_of_string s
  | None => None
  end.

(** The lookup by name alone. *)
Definition by_name (dims : list dim) (names : list string) : option float :=
  match first_called names dims with
  | Some v => number v
  | None => None
  end.

(** The lookup: by name; and with no entry under one of the names and
    exactly one entry in the sequence, the value of that entry. *)
Definition lookup (dims : list dim) (names : list string) : option float :=
  match first_called names dims with
  | Some v => number v
  | None =>
      match dims with
      | [(_, v)] => number v
      | _ => None
      end
  end.

(** The sequence holds the number [r] under one of the names: its first
    entry under such a name has a value, and the value reads as [r]. *)
Definition holds (dims : list dim) (names : list string) (r : float) : Prop :=
  exists s, first_called names dims = Some (Some s) /\
            float_of_string s = Some r.

(** The Rectangle rule: length and width by the lookup; when either is
    unresolved and there are at least two dimensions, the first two values
    in order; the product when both resolve. *)
Definition rectangle_rule (dims : list dim) : option float :=
  let l := lookup dims ["length"; "l"] in
  let w := lookup dims ["width"; "w"] in
  let '(l, w) :=
    match l, w, dims with
    | Some _, Some _, _ => (l, w)
    | _, _, (_, v0) :: (_, v1) :: _ => (number v0, number v1)
    | _, _, _ => (l, w)
    end in
  match l, w with
  | Some l, Some w => Some (l * w)%float
  | _, _ => None
  end.

(** A Problem of one shape kind with dimensions that hold plain values. *)
Definition dimension (name : string) (value : pyval) : Dimension :=
  {| dimensionName := Some (PList [PyStr name]);
     dimensionValue := Some (PList [value]) |}.

Definition problem_of (name kind : string) (ds : list Dimension) : Problem :=
  {| problem_name := name;
     hasShape := Some [ {| shape_name := kind ++ "_inst_" ++ name;
                           is_a := [ {| class_name := Some kind |} ] |} ];
     hasProblemDimension := Some ds;
     hasDimension := None;
     inlineDimensionName := None;
     inlineDimensionValue := None;
     correctAnswer := Some (PList []) |}.

(** What a graded attempt does to the Student [nm] of the store [st], in
    the words of the specification: the correct-count goes up by one exactly
    when the attempt was graded correct, the attempt is appended, and the
    mastery level becomes the correct-count divided by [max(1, n)], [n]
    being the number of attempts with the new one, the divisor not zero. *)
Definition mastery_updated (st : Submit.Store) (nm : string) (ic : bool)
    (st' : Submit.Store) : Prop :=
  let s0 := Submit.student_before st nm in
  let score := if ic then Submit.current_score s0 + 1
               else Submit.current_score s0 in
  exists s',
    Submit.students st' !! nm = Some s' /\
    Submit.studentScore s' = Submit.assign (Submit.studentScore s0) score /\
    (forall l, Submit.attempts s0 = Some l ->
       exists att, Submit.attempts s' = Some (l ++ [att])%list) /\
    (forall old, Submit.masteryLevel s0 = Some old ->
       exists x y,
         float_of_int score = Some x /\
         float_of_int (Z.max 1 (Submit.count_attempts s')) = Some y /\
         PrimFloat.eqb y 0 = false /\
         Submit.masteryLevel s' = Some [(x / y)%float]).

(** The records of a Student are consistent: the Student has a score and a
    list of attempts, the score is between zero and the number of the
    attempts, and with at least one attempt, whose number [float] converts,
    the stored mastery level is the score divided by that number, a float
    between zero and one. *)
Definition consistent (s : Submit.Student) : Prop :=
  exists l,
    Submit.attempts s = Some l /\
    Submit.studentScore s <> None /\
    0 <= Submit.current_score s <= Z.of_nat (length l) /\
    forall y m,
      l <> [] ->
      float_of_int (Z.of_nat (length l)) = Some y ->
      Submit.masteryLevel s = Some m ->
      exists x,
        float_of_int (Submit.current_score s) = Some x /\
        m = [(x / y)%float] /\
        PrimFloat.leb 0 (x / y) = true /\ PrimFloat.leb (x / y) 1 = true.

(** The scores and the numbers of attempts of the Students are in the
    range that [float] converts. *)
Definition in_float_range (st : Submit.Store) : Prop :=
  forall nm s, Submit.students st !! nm = Some s ->
    0 <= Submit.current_score s < 2 ^ 1023 - 1 /\
    Submit.count_attempts s < 2 ^ 1023 - 1.


End Spec.

(** ** The texts [str] writes, for the proofs about names *)

Module Texts.
Import PyNum.

(** The characters that a number, [True] or [False], written by [str] and
    put in lower case, can begin with. *)
Definition is_symbol (c : ascii) : bool :=
  is_digit c || existsb (Ascii.eqb c) ["-"; "."; "e"; "n"; "i"; "t"; "f"]%char.

(** The text, in lower case, begins with one of them, if it begins at
    all. *)
Definition head_symbol (s : string) : Prop :=
  match s with
  | EmptyString => True
  | String c _ => is_symbol (lower_ascii c) = true
  end.

Definition symbols (l : list ascii) : Prop :=
  Forall (fun c => is_symbol (lower_ascii c) = true) l.

(** The names are not empty and begin with a letter that is none of these
    characters. *)
Definition plain (names : list string) : bool :=
  forallb (fun a => match lower a with
                    | EmptyString => false
                    | String c _ => negb (is_symbol c)
                    end) names.

End Texts.

(** ** The problems, stores and submissions of the examples *)

Module Examples.
Import PyNum Py Onto Submit Spec.
#[local] Open Scope float_scope.

(** The Circle of the specification's example: radius 2. *)
Definition circle_radius_2 : Problem :=
  problem_of "P1" "Circle" [dimension "radius" (PyFloat 2)].

(** A Triangle with its base only, and one with a single dimension under a
    name that matches nothing. *)
Definition triangle_base_only : Problem :=
  problem_of "T1" "Triangle" [dimension "base" (PyFloat 3)].

Definition triangle_misnamed : Problem :=
  problem_of "T2" "Triangle" [dimension "x" (PyFloat 3)].

Definition rectangle_length_only : Problem :=
  problem_of "R1" "Rectangle" [dimension "length" (PyFloat 5)].

Definition rectangle_unnamed_5_6 : Problem :=
  problem_of "R2" "Rectangle"
    [dimension "dim1" (PyFloat 5); dimension "dim2" (PyFloat 6)].

Definition rectangle_width_3_length_4 : Problem :=
  problem_of "R3" "Rectangle"
    [dimension "width" (PyFloat 3); dimension "length" (PyFloat 4)].

(** A Triangle of base 3 and height 4, the height declared first and in
    capitals, and a Square with a second dimension that is not its side. *)
Definition triangle_height_4_base_3 : Problem :=
  problem_of "T3" "Triangle"
    [dimension "HEIGHT" (PyFloat 4); dimension "base" (PyFloat 3)].

Definition square_side_3 : Problem :=
  problem_of "S1" "Square"
    [dimension "depth" (PyFloat 7); dimension "Side" (PyFloat 3)].

(** A shape whose only class is the generic one, named after a kind. *)
Definition generic_triangle : Problem :=
  {| problem_name := "P";
     hasShape := Some [ {| shape_name := "Triangle_Instance_P";
                           is_a := [ {| class_name := Some "Shape"%string |} ] |} ];
     hasProblemDimension := None; hasDimension := None;
     inlineDimensionName := None; inlineDimensionValue := None;
     correctAnswer := None |}.

(** A Problem whose one Dimension has a name and no value. *)
Definition problem_without_value : Problem :=
  problem_of "P" "Circle"
    [ {| dimensionName := Some (PList [PyStr "radius"]);
         dimensionValue := None |} ].

(** A Problem with no dimension, whose answer cannot be computed, with and
    without a stored answer. *)
Definition bare_problem (stored : option propval) : Problem :=
  {| problem_name := "P"; hasShape := None;
     hasProblemDimension := None; hasDimension := None;
     inlineDimensionName := None; inlineDimensionValue := None;
     correctAnswer := stored |}.

Definition full_schema : Schema :=
  {| has_Student := true; has_Attempt := true;
     decl_studentScore := true; decl_masteryLevel := true;
     decl_attempts := true; decl_attemptOf := true;
     decl_hasAnswer := true; decl_isCorrect := true |}.


Definition store_of (sc : Schema) (p : Problem) : Store :=
  {| schema := sc; problems := {[ problem_name p := p ]};
     students := ∅; attempt_log := [] |}.

Definition submission (student answer : string) : Request :=
  {| form_student := student; form_answer := Some answer;
     timestamp := "20240101T000000" |}.

(** A store with the Circle of radius 2 and no student, and what three
    submissions of one student, two of them correct, leave of it. *)
Definition circle_store : Store :=
  store_of full_schema circle_radius_2.

Definition three_attempts : list (string * Request) :=
  [("P1"%string, submission " bob " "12.5");
   ("P1"%string, submission "bob" "3");
   ("P1"%string, submission "bob" "12.6")].


(** The same submissions as they are posted. *)
Definition posted (student answer : string) : Posted :=
  {| posted_student := Some student; posted_answer := Some answer;
     posted_at := "20240101T000000" |}.


(** A store whose one Student has a score of 5 and no attempt. *)
Definition store_with_score_5 : Store :=
  {| schema := full_schema;
     problems := {[ "P1"%string := circle_radius_2 ]};
     students := {[ "bob"%string :=
                      {| student_name := "bob"; studentScore := Some [5%Z];
                         masteryLevel := Some [0]; attempts := Some [] |} ]};
     attempt_log := [] |}.

End Examples.

(** ** The problem page *)

Module View.
Import PyNum Py Onto Submit.

(** What [problem_view] hands to its template. *)
Record Page := {
  page_dims : list dim;
  page_shape_name : option string;
  page_computed : option float;
  page_stored : pyval
}.

(** The stored answer as the page shows it: the first element of a list,
    the value itself otherwise, [None] when the property holds nothing
    truthy. *)
Definition stored_value (prob : Problem) : pyval :=
  if attr_truthy (correctAnswer prob) then
    match correctAnswer prob with
    | Some (PList (v :: _)) => v
    | Some (PScalar v) => v
    | _ => PyNone
    end
  else PyNone.

(** [None] is the redirection to the index, for a name that is not found. *)
Definition problem_view (name : string) (st : Store) : option Page :=
  match problems st !! name with
  | None => None
  | Some prob =>
      Some {| page_dims := dims_for_problem prob;
              page_shape_name := fst (shape_for_problem prob);
              page_computed := compute_answer prob;
              page_stored := stored_value prob |}
  end.

End View.

(** ** Adding a problem *)

Module Manage.
Import PyNum Py Onto Submit.

Inductive method := GET | POST.

(** The request of [add_problem].  A text field that the form leaves out
    reads as the empty string, by the default of [form.get]; the shape has
    no default. *)
Record Form := {
  form_method : method;
  form_problem_name : string;
  form_shape : option string;
  form_dim1_name : string;
  form_dim1_value : string;
  form_dim2_name : string;
  form_dim2_value : string
}.

(** What the ontology declares: its classes by name, and the properties a
    new Problem or Dimension has.  A declared property of a new individual
    reads as the empty list.  [attributes] are the other names that
    [getattr(onto, .)] resolves without their being an individual: the
    properties of the ontology, and the attributes of the ontology object
    itself. *)
Record Vocabulary := {
  classes : gset string;
  attributes : gset string;
  decl_hasShape : bool;
  decl_hasProblemDimension : bool;
  decl_hasDimension : bool;
  decl_dimensionName : bool;
  decl_dimensionValue : bool;
  decl_correctAnswer : bool
}.

(** The ontology [add_problem] works on: the store of the submission
    handler, the vocabulary, and the names of the entities that are no
    Problem, Student or Attempt of the store (the shapes and dimensions
    among them). *)
Record Ontology := {
  base : Store;
  vocab : Vocabulary;
  others : gset string
}.

(** [getattr(onto, class_name, None)] is a class. *)
Definition has_class (o : Ontology) (class_name : string) : bool :=
  bool_decide (class_name ∈ classes (vocab o)).

(** [get_individual(name) is not None], for a name that is no pattern:
    some entity has the name. *)
Definition in_use (o : Ontology) (name : string) : bool :=
  bool_decide (is_Some (problems (base o) !! name))
  || bool_decide (is_Some (students (base o) !! name))
  || existsb (fun a => String.eqb (attempt_name a) name) (attempt_log (base o))
  || bool_decide (name ∈ others o).

(** [getattr(onto, name, None)] is something that is no class: an
    individual, a property, or an attribute of the ontology object. *)
Definition resolves_other (o : Ontology) (name : string) : bool :=
  in_use o name || bool_decide (name ∈ attributes (vocab o)).

Definition declared_prop (b : bool) : option propval :=
  if b then Some (PList []) else None.

(** [ProblemClass(name)] *)
Definition new_problem (v : Vocabulary) (name : string) : Problem :=
  {| problem_name := name;
     hasShape := declared (decl_hasShape v);
     hasProblemDimension := declared (decl_hasProblemDimension v);
     hasDimension := declared (decl_hasDimension v);
     inlineDimensionName := declared_prop (decl_dimensionName v);
     inlineDimensionValue := declared_prop (decl_dimensionValue v);
     correctAnswer := declared_prop (decl_correctAnswer v) |}.

(** [shape_class(shape_inst_name)]: an individual of the one class. *)
Definition new_shape (shape name : string) : Shape :=
  {| shape_name := shape ++ "_inst_" ++ name;
     is_a := [ {| class_name := Some shape |} ] |}.

(** [p = [v]] when the individual has the property. *)
Definition assign_prop (p : option propval) (v : pyval) : option propval :=
  match p with
  | Some _ => Some (PList [v])
  | None => None
  end.

(** [s or d] *)
Definition or_default (s d : string) : string :=
  if String.eqb s "" then d else s.

(** A Dimension with its name and value set; [None] is the [ValueError] of
    [float(value)], which is only evaluated when the Dimension has the
    [dimensionValue] property. *)
Definition make_dimension (v : Vocabulary) (name value : string)
  : option Dimension :=
  let dimensionName := assign_prop (declared_prop (decl_dimensionName v))
                         (PyStr name) in
  match declared_prop (decl_dimensionValue v) with
  | Some p =>
      match float_of_string value with
      | Some x =>
          Some {| dimensionName := dimensionName;
                  dimensionValue := Some (PList [PyFloat x]) |}
      | None => None
      end
  | None =>
      Some {| dimensionName := dimensionName; dimensionValue := None |}
  end.

(** [prob.hasShape = [shape_inst]] when the Problem has the property. *)
Definition set_shape (prob : Problem) (s : Shape) : Problem :=
  {| problem_name := problem_name prob;
     hasShape := assign (hasShape prob) s;
     hasProblemDimension := hasProblemDimension prob;
     hasDimension := hasDimension prob;
     inlineDimensionName := inlineDimensionName prob;
     inlineDimensionValue := inlineDimensionValue prob;
     correctAnswer := correctAnswer prob |}.

(** The first dimension is assigned to [hasProblemDimension], or else to
    [hasDimension], whichever the Problem has. *)
Definition link_first (prob : Problem) (d : Dimension) : Problem :=
  {| problem_name := problem_name prob;
     hasShape := hasShape prob;
     hasProblemDimension := assign (hasProblemDimension prob) d;
     hasDimension := match hasProblemDimension prob with
                     | Some _ => hasDimension prob
                     | None => assign (hasDimension prob) d
                     end;
     inlineDimensionName := inlineDimensionName prob;
     inlineDimensionValue := inlineDimensionValue prob;
     correctAnswer := correctAnswer prob |}.

Definition append {A} (l : option (list A)) (x : A) : option (list A) :=
  match l with
  | Some l => Some (l ++ [x])%list
  | None => None
  end.

(** The second dimension is appended to the same property. *)
Definition link_second (prob : Problem) (d : Dimension) : Problem :=
  {| problem_name := problem_name prob;
     hasShape := hasShape prob;
     hasProblemDimension := append (hasProblemDimension prob) d;
     hasDimension := match hasProblemDimension prob with
                     | Some _ => hasDimension prob
                     | None => append (hasDimension prob) d
                     end;
     inlineDimensionName := inlineDimensionName prob;
     inlineDimensionValue := inlineDimensionValue prob;
     correctAnswer := correctAnswer prob |}.

(** [prob.correctAnswer = [float(correct_val)]] when there is a computed
    value and the Problem has the property. *)
Definition attach_answer (prob : Problem) : Problem :=
  {| problem_name := problem_name prob;
     hasShape := hasShape prob;
     hasProblemDimension := hasProblemDimension prob;
     hasDimension := hasDimension prob;
     inlineDimensionName := inlineDimensionName prob;
     inlineDimensionValue := inlineDimensionValue prob;
     correctAnswer := match compute_answer prob with
                      | Some correct_val =>
                          assign_prop (correctAnswer prob) (PyFloat correct_val)
                      | None => correctAnswer prob
                      end |}.

(** The Problem of that name is now [prob]. *)
Definition with_problem (o : Ontology) (name : string) (prob : Problem)
  : Ontology :=
  {| base := {| schema := schema (base o);
                problems := <[name := prob]> (problems (base o));
                students := students (base o);
                attempt_log := attempt_log (base o) |};
     vocab := vocab o;
     others := others o |}.

(** An individual that is neither Problem, Student nor Attempt is kept by
    its name. *)
Definition register (o : Ontology) (name : string) : Ontology :=
  {| base := base o; vocab := vocab o; others := {[ name ]} ∪ others o |}.

(** The classes whose individuals the store keeps in full. *)
Definition kept_class (class_name : string) : bool :=
  existsb (String.eqb class_name) ["Problem"; "Student"; "Attempt"].

(** How a request ends. *)
Inductive add_outcome :=
  | ShowForm
  | MissingFields
  | AlreadyExists
  | ClassMissing
  | UnknownShape
  | InvalidNumber
  | Created.

(** The end of the [try] block: the answer is computed and attached. *)
Definition finish (o : Ontology) (name : string) (prob : Problem)
  : option (add_outcome * Ontology) :=
  Some (Created, with_problem o name (attach_answer prob)).

(** [add_problem].  What is created before a later step fails stays in the
    ontology: the handlers of the [try] block undo nothing.

    The outer [None] marks the requests on which the embedding does not
    follow the handler: the name derived for the shape or for a dimension
    is that of an entity already there, which owlready2 then hands back in
    place of a new individual; the shape is to be an individual of a class
    that the store keeps in full; or the shape is the name of something
    that is no class, which [getattr] finds and the handler then calls. *)
Definition add_problem (form : Form) (o : Ontology)
  : option (add_outcome * Ontology) :=
  match form_method form with
  | GET => Some (ShowForm, o)
  | POST =>
      let name := str_strip (form_problem_name form) in
      let shape := default "" (form_shape form) in
      let d1_value := str_strip (form_dim1_value form) in
      if String.eqb name "" || String.eqb shape "" || String.eqb d1_value ""
      then Some (MissingFields, o)
      else if in_use o name then Some (AlreadyExists, o)
      else if negb (has_class o "Problem" && has_class o "Dimension")
      then Some (ClassMissing, o)
      else
        let prob := new_problem (vocab o) name in
        let o := with_problem o name prob in
        if negb (has_class o shape) then
          if resolves_other o shape then None else Some (UnknownShape, o)
        else if kept_class shape || in_use o (shape ++ "_inst_" ++ name)
        then None
        else
          let o := register o (shape ++ "_inst_" ++ name) in
          let prob := set_shape prob (new_shape shape name) in
          let o := with_problem o name prob in
          let d1_name := str_strip (form_dim1_name form) in
          if in_use o (name ++ "_dim1") then None
          else
            let o := register o (name ++ "_dim1") in
            match make_dimension (vocab o) (or_default d1_name "dim1") d1_value
            with
            | None => Some (InvalidNumber, o)
            | Some d1 =>
                let prob := link_first prob d1 in
                let o := with_problem o name prob in
                let d2_value := str_strip (form_dim2_value form) in
                if String.eqb d2_value "" then finish o name prob
                else
                  let d2_name := str_strip (form_dim2_name form) in
                  if in_use o (name ++ "_dim2") then None
                  else
                    let o := register o (name ++ "_dim2") in
                    match make_dimension (vocab o) (or_default d2_name "dim2")
                            d2_value with
                    | None => Some (InvalidNumber, o)
                    | Some d2 => finish o name (link_second prob d2)
                    end
            end
  end.

End Manage.

(** ** Vocabularies and forms of the examples *)

Module ManageExamples.
Import PyNum Py Onto Submit Examples Manage.

Definition full_vocabulary : Vocabulary :=
  {| classes := list_to_set ["Problem"; "Dimension"; "Student"; "Attempt";
                             "Shape"; "Circle"; "Square"; "Rectangle";
                             "Triangle"];
     attributes := list_to_set ["hasShape"; "hasProblemDimension";
                                "hasDimension"; "dimensionName";
                                "dimensionValue"; "correctAnswer";
                                "studentScore"; "masteryLevel"; "attempts";
                                "attemptOf"; "hasAnswer"; "isCorrect";
                                "name"; "base_iri"; "world"; "save"];
     decl_hasShape := true;
     decl_hasProblemDimension := true;
     decl_hasDimension := true;
     decl_dimensionName := true;
     decl_dimensionValue := true;
     decl_correctAnswer := true |}.

(** An ontology with the full vocabulary and no individual. *)
Definition empty_ontology : Ontology :=
  {| base := {| schema := full_schema; problems := ∅; students := ∅;
                attempt_log := [] |};
     vocab := full_vocabulary;
     others := ∅ |}.

Definition post (name shape n1 v1 n2 v2 : string) : Form :=
  {| form_method := POST; form_problem_name := name;
     form_shape := Some shape;
     form_dim1_name := n1; form_dim1_value := v1;
     form_dim2_name := n2; form_dim2_value := v2 |}.

(** The ontology a request leaves. *)
Definition after (form : Form) (o : Ontology) : Ontology :=
  match add_problem form o with
  | Some (_, o') => o'
  | None => o
  end.

(** A Circle of radius 2, a shape class that is no kind, and a value that
    is no number. *)
Definition circle_form : Form := post " C1 " "Circle" "radius" "2" "" "".

Definition shape_form : Form := post "G1" "Shape" "side" "2" "" "".

Definition bad_value_form : Form := post "C2" "Circle" "radius" "two" "" "".

End ManageExamples.

(** ** Notions the further properties are stated with *)

Module Notions.
Import PyNum Py Onto Submit.

(** The entry [dims_for_problem] makes of a Dimension whose name it can
    read. *)
Definition entry (d : Dimension) : dim :=
  (default (PyStr "") (entry_name d), entry_value d).

(** The Dimension individuals [dims_for_problem] goes through: those of
    [hasProblemDimension] when there are any, those of [hasDimension]
    otherwise. *)
Definition dimension_source (problem : Problem) : list Dimension :=
  if nonempty (hasProblemDimension problem)
  then default [] (hasProblemDimension problem)
  else default [] (hasDimension problem).

(** Two entries with the same value, under names that are strings and
    differ in the case of their letters at most. *)
Definition same_up_to_case (e e' : dim) : Prop :=
  snd e = snd e' /\
  exists s s', fst e = PyStr s /\ fst e' = PyStr s' /\ lower s = lower s'.

(** The closed form of each kind for the one number [x]. *)
Definition answer_of_one (kind : string) (x : float) : option float :=
  if String.eqb kind "Circle" then Some (pi * x * x)%float
  else if String.eqb kind "Square" then Some (x * x)%float
  else if String.eqb kind "Rectangle" then Some (x * x)%float
  else if String.eqb kind "Triangle" then Some (0.5 * x * x)%float
  else None.

(** The Problem with its stored answer filled in. *)
Definition answered (prob : Problem) (c : float) : Problem :=
  {| problem_name := problem_name prob;
     hasShape := hasShape prob;
     hasProblemDimension := hasProblemDimension prob;
     hasDimension := hasDimension prob;
     inlineDimensionName := inlineDimensionName prob;
     inlineDimensionValue := inlineDimensionValue prob;
     correctAnswer := Some (PList [PyFloat c]) |}.

(** [p'] has the shape, the dimensions and the answers of [p]; its stored
    answer is that of [p], or was [None] and has been filled in with the
    value [p] is graded against. *)
Definition keeps_answers (p p' : Problem) : Prop :=
  (correctAnswer p' = correctAnswer p \/
   correctAnswer p = Some (PScalar PyNone) /\
   exists c, correct_value p = Some c /\
             correctAnswer p' = Some (PList [PyFloat c])) /\
  hasShape p' = hasShape p /\
  dims_for_problem p' = dims_for_problem p /\
  compute_answer p' = compute_answer p /\
  correct_value p' = correct_value p.

(** A submission that is turned away before anything is recorded. *)
Definition turned_away (o : outcome) : bool :=
  match o with
  | ProblemNotFound | InvalidAnswer | CannotGrade | ClassNotFound => true
  | UpdateFailed | Graded _ _ _ => false
  end.

(** A text of ASCII characters, and one of the ASCII characters that
    [str.strip] removes. *)
Definition ascii_text (s : string) : Prop :=
  Forall (fun c => (N_of_ascii c < 128)%N) (list_ascii_of_string s).

Definition blank (s : string) : Prop :=
  Forall (fun c => is_space_str c = true) (list_ascii_of_string s).

(** The binary64 value has the sign [s], or is NaN. *)
Definition signed (s : bool) (x : spec_float) : Prop :=
  match x with
  | S754_nan => True
  | S754_zero s' | S754_infinity s' | S754_finite s' _ _ => s' = s
  end.

(** The classes of binary64 values. *)
Inductive float_class := Number | Infinite (negative : bool) | NotANumber.

Definition classify (x : float) : float_class :=
  match Prim2SF x with
  | S754_zero _ | S754_finite _ _ _ => Number
  | S754_infinity s => Infinite s
  | S754_nan => NotANumber
  end.

End Notions.

(** ** Further examples *)

Module MoreExamples.
Import PyNum Py Onto Spec.
#[local] Open Scope float_scope.


End MoreExamples.

(** ** Notions for the properties of [add_problem] *)

Module ManageNotions.
Import PyNum Py Onto Submit Manage.

(** A request that ends before anything is created. *)
Definition rejected (out : add_outcome) : bool :=
  match out with
  | ShowForm | MissingFields | AlreadyExists | ClassMissing => true
  | UnknownShape | InvalidNumber | Created => false
  end.

(** The ontology declares every property [add_problem] sets. *)
Definition complete (v : Vocabulary) : Prop :=
  decl_hasShape v = true /\ decl_hasProblemDimension v = true /\
  decl_hasDimension v = true /\ decl_dimensionName v = true /\
  decl_dimensionValue v = true /\ decl_correctAnswer v = true.

(** [o'] has what [o] has, the Problem [name] apart: the same Students and
    Attempts, the same other Problems, and every name in use still in
    use. *)
Definition grows_at (name : string) (o o' : Ontology) : Prop :=
  schema (base o') = schema (base o) /\
  students (base o') = students (base o) /\
  attempt_log (base o') = attempt_log (base o) /\
  vocab o' = vocab o /\
  (forall n, n <> name ->
     problems (base o') !! n = problems (base o) !! n) /\
  (forall n, in_use o n = true -> in_use o' n = true).

(** The fields of the form as the handler reads them. *)
Definition name_of (form : Form) : string := str_strip (form_problem_name form).

Definition shape_of (form : Form) : string := default "" (form_shape form).

(** The names the handler derives for the shape and the dimensions of the
    form are not in use, and the shape is another class than Problem,
    Student and Attempt, or is the name of nothing at all. *)
Definition fresh_names (form : Form) (o : Ontology) : Prop :=
  kept_class (shape_of form) = false /\
  (has_class o (shape_of form) = true \/
   shape_of form <> name_of form /\
   resolves_other o (shape_of form) = false) /\
  in_use o (shape_of form ++ "_inst_" ++ name_of form) = false /\
  in_use o (name_of form ++ "_dim1") = false /\
  in_use o (name_of form ++ "_dim2") = false.

(** The entry of the dimension sequence for a name and a number of the
    form. *)
Definition form_entry (name default_name : string) (x : float) : dim :=
  (PyStr (or_default (str_strip name) default_name), Some (string_of_float x)).

(** The kind an added Problem resolves to: the class, or the part of its
    name before an underscore when that is one of the four and the class is
    not. *)
Definition added_kind (shape : string) : string :=
  if is_known_kind shape then shape
  else if is_known_kind (before_underscore shape) then before_underscore shape
  else shape.

End ManageNotions.

(** ** Binary64 results, for the proofs about rounding *)

Module Binary64.

(** The shape of a rounded result: the mantissa [m3] and exponent [e3] that
    [binary_round_aux] ends with, from the two shifts and the rounding
    between them. *)
Definition rounded (sx : bool) (m3 e3 : Z) : spec_float :=
  match m3 with
  | Z0 => S754_zero sx
  | Zpos m => if e3 <=? 971 then S754_finite sx m e3 else S754_infinity sx
  | Zneg _ => S754_nan
  end.

(** The binary64 number one. *)
Definition SFone64 : spec_float := S754_finite false 4503599627370496 (-52).

(** *** Rounding to the nearest integer *)

(** Whether [m / 2 ^ k] rounds up to the nearest integer, ties to even. *)
Definition round_up (m k : Z) : bool :=
  let rem := m mod 2 ^ k in
  let half := 2 ^ (k - 1) in
  (half <? rem) || ((half =? rem) && Z.odd (m / 2 ^ k)).

(** [m / 2 ^ k] to the nearest integer, ties to even; [m] itself when
    there is nothing to shift. *)
Definition round_shift (m k : Z) : Z :=
  if k <=? 0 then m else m / 2 ^ k + (if round_up m k then 1 else 0).

(** The mantissa and exponent of [float(z)] for a positive integer [z]. *)
Definition int_rounded (z : Z) : Z * Z :=
  let d := Zdigits2 z in
  if d <=? 53 then (z * 2 ^ (53 - d), d - 53)
  else
    let m2 := round_shift z (d - 53) in
    if m2 =? 2 ^ 53 then (2 ^ 52, d - 52) else (m2, d - 53).

(** The place of a number in the order of the binary64 numbers: the sign
    class first, then the exponent, then the mantissa. *)
Definition order_key (f : spec_float) : Z * Z * Z :=
  match f with
  | S754_nan => (0, 0, 0)
  | S754_zero _ => (0, 0, 0)
  | S754_infinity s => (if s then -2 else 2, 0, 0)
  | S754_finite s m e =>
      if s then (-1, - e, Z.neg m) else (1, e, Z.pos m)
  end.

Definition key_le (x y : Z * Z * Z) : Prop :=
  let '(x1, x2, x3) := x in
  let '(y1, y2, y3) := y in
  x1 < y1 \/ (x1 = y1 /\ (x2 < y2 \/ (x2 = y2 /\ x3 <= y3))).

Definition key_lt (x y : Z * Z * Z) : Prop :=
  let '(x1, x2, x3) := x in
  let '(y1, y2, y3) := y in
  x1 < y1 \/ (x1 = y1 /\ (x2 < y2 \/ (x2 = y2 /\ x3 < y3))).

End Binary64.

(** * Properties *)

(** ** Facts about binary64 rounding

    Derived from the executable specification of the format in
    [SpecFloat]; the primitive operations are tied to it by [FloatAxioms]. *)

Module FloatFacts.
Import Binary64.


Lemma fexp64 (e : Z) : fexp prec emax e = Z.max (e - 53) (-1074).
Proof. reflexivity. Qed.

Lemma digits2_pos_size (p : positive) : digits2_pos p = Pos.size p.
Proof. induction p; simpl; congruence. Qed.

(** The number of binary digits of a positive number brackets it between
    two powers of two. *)
Lemma digits2_bounds (p : positive) :
  2 ^ (Z.pos (digits2_pos p) - 1) <= Z.pos p < 2 ^ Z.pos (digits2_pos p).
Proof.
  rewrite digits2_pos_size. split.
  - pose proof (Pos.size_le p) as H.
    apply Pos2Z.pos_le_pos in H. rewrite Pos2Z.inj_pow in H.
    assert (E : 2 ^ Z.pos (Pos.size p) = 2 * 2 ^ (Z.pos (Pos.size p) - 1)).
    { rewrite <- Z.pow_succ_r by lia. f_equal. lia. }
    rewrite E in H. change (Z.pos p~0) with (2 * Z.pos p) in H. lia.
  - pose proof (Pos.size_gt p) as H.
    apply Pos2Z.pos_lt_pos in H. now rewrite Pos2Z.inj_pow in H.
Qed.

Lemma Zdigits2_nonneg (m : Z) : 0 <= Zdigits2 m.
Proof. destruct m; simpl; lia. Qed.

Lemma Zdigits2_bounds (m : Z) :
  0 < m -> 2 ^ (Zdigits2 m - 1) <= m < 2 ^ Zdigits2 m.
Proof. destruct m; try lia. intros _. apply digits2_bounds. Qed.

(** A number below [2 ^ n] has at most [n] digits. *)
Lemma Zdigits2_le (m n : Z) : 0 <= m -> 0 <= n -> m < 2 ^ n -> Zdigits2 m <= n.
Proof.
  intros Hm Hn Hlt. destruct (Z.eq_dec m 0) as [->|Hne]; [simpl; lia|].
  destruct (Zdigits2_bounds m ltac:(lia)) as [Hlo _].
  destruct (Z_le_gt_dec (Zdigits2 m) n) as [|Hgt]; [assumption|exfalso].
  assert (2 ^ n <= 2 ^ (Zdigits2 m - 1)) by (apply Z.pow_le_mono_r; lia).
  lia.
Qed.

(** A number from [2 ^ n] on has more than [n] digits. *)
Lemma Zdigits2_gt (m n : Z) : 0 <= n -> 2 ^ n <= m -> n < Zdigits2 m.
Proof.
  intros Hn Hle.
  assert (0 < m) by (pose proof (Z.pow_pos_nonneg 2 n); lia).
  destruct (Zdigits2_bounds m ltac:(lia)) as [_ Hhi].
  destruct (Z_lt_le_dec n (Zdigits2 m)) as [|Hge]; [assumption|exfalso].
  assert (2 ^ Zdigits2 m <= 2 ^ n)
    by (apply Z.pow_le_mono_r; [lia | assumption]).
  lia.
Qed.

(** *** Shifting right *)

Lemma shr_1_m (mrs : shr_record) :
  0 <= shr_m mrs -> shr_m (shr_1 mrs) = shr_m mrs / 2.
Proof.
  destruct mrs as [m r s]; simpl. intros Hm.
  destruct m as [|p|p]; try lia; [reflexivity|].
  destruct p; simpl shr_m.
  - rewrite Pos2Z.inj_xI. apply Z.div_unique with 1; lia.
  - rewrite Pos2Z.inj_xO. apply Z.div_unique with 0; lia.
  - reflexivity.
Qed.

Lemma iter_pos_shr_m (p : positive) :
  forall mrs, 0 <= shr_m mrs ->
    shr_m (SpecFloat.iter_pos shr_1 p mrs) = shr_m mrs / 2 ^ Z.pos p.
Proof.
  assert (Hnn : forall m k, 0 <= m -> 0 <= m / 2 ^ k).
  { intros m k Hm. destruct (Z_lt_le_dec k 0).
    - rewrite Z.pow_neg_r by lia. now rewrite Z.div_0_r.
    - apply Z.div_pos; [lia | apply Z.pow_pos_nonneg; lia]. }
  assert (Hh : forall m, 0 <= m -> 0 <= m / 2) by (intros; apply Z.div_pos; lia).
  induction p as [p IH|p IH|]; intros mrs Hm; cbn [SpecFloat.iter_pos].
  - rewrite IH, IH, shr_1_m; auto using shr_1_m.
    + assert (0 < 2 ^ Z.pos p) by (apply Z.pow_pos_nonneg; lia).
      rewrite !Z.div_div by lia.
      f_equal. change (Z.pos p~1) with (2 * Z.pos p + 1).
      replace (2 * Z.pos p + 1) with (1 + Z.pos p + Z.pos p) by lia.
      rewrite !Z.pow_add_r by lia. lia.
    + rewrite shr_1_m by assumption. auto.
    + rewrite IH; rewrite shr_1_m by assumption; auto.
  - rewrite IH, IH; try assumption.
    + assert (0 < 2 ^ Z.pos p) by (apply Z.pow_pos_nonneg; lia).
      rewrite Z.div_div by lia.
      f_equal. change (Z.pos p~0) with (2 * Z.pos p).
      replace (2 * Z.pos p) with (Z.pos p + Z.pos p) by lia.
      now rewrite Z.pow_add_r by lia.
    + rewrite IH by assumption. now apply Hnn.
  - rewrite shr_1_m by assumption. reflexivity.
Qed.

(** What [shr_fexp] does to the mantissa and the exponent: the exponent
    goes up to the canonical one of the number when it is below it, and the
    mantissa loses as many bits. *)
Lemma shr_fexp_spec (m e : Z) (l : location) :
  0 <= m ->
  let e' := Z.max e (fexp prec emax (Zdigits2 m + e)) in
  shr_m (fst (shr_fexp prec emax m e l)) = m / 2 ^ (e' - e) /\
  snd (shr_fexp prec emax m e l) = e'.
Proof.
  intros Hm e'. unfold shr_fexp, shr.
  assert (Hrec : shr_m (shr_record_of_loc m l) = m)
    by (destruct l as [|[]]; reflexivity).
  destruct (fexp prec emax (Zdigits2 m + e) - e) as [|k|k] eqn:Hk; simpl.
  - replace (e' - e) with 0 by lia. rewrite Z.pow_0_r, Z.div_1_r. split; [assumption | lia].
  - rewrite iter_pos_shr_m by lia. rewrite Hrec.
    replace (e' - e) with (Z.pos k) by lia. split; [reflexivity | lia].
  - replace (e' - e) with 0 by lia. rewrite Z.pow_0_r, Z.div_1_r. split; [assumption | lia].
Qed.

(** No shift is made when the exponent is already the canonical one. *)
Lemma shr_fexp_id (m e : Z) (l : location) :
  fexp prec emax (Zdigits2 m + e) <= e ->
  shr_fexp prec emax m e l = (shr_record_of_loc m l, e).
Proof.
  intros H. unfold shr_fexp, shr.
  destruct (fexp prec emax (Zdigits2 m + e) - e) eqn:Hk; try reflexivity. lia.
Qed.

Lemma round_nearest_even_bounds (m : Z) (l : location) :
  m <= round_nearest_even m l <= m + 1.
Proof. destruct l as [|[]]; simpl; try lia. destruct (Z.even m); lia. Qed.

Lemma binary_round_aux_spec (sx : bool) (mx ex : Z) (lx : location) :
  0 <= mx ->
  let e1 := Z.max ex (fexp prec emax (Zdigits2 mx + ex)) in
  let m1 := mx / 2 ^ (e1 - ex) in
  exists m2, m1 <= m2 <= m1 + 1 /\
    (lx = loc_Exact -> e1 = ex -> m2 = mx) /\
    let e3 := Z.max e1 (fexp prec emax (Zdigits2 m2 + e1)) in
    binary_round_aux prec emax sx mx ex lx
    = rounded sx (m2 / 2 ^ (e3 - e1)) e3.
Proof.
  intros Hm e1 m1. unfold binary_round_aux.
  destruct (shr_fexp_spec mx ex lx Hm) as [Hm1 He1].
  destruct (shr_fexp prec emax mx ex lx) as [mrs1 e1'] eqn:E1.
  simpl in Hm1, He1. fold e1 in He1. fold e1 m1 in Hm1. subst e1'.
  set (m2 := round_nearest_even (shr_m mrs1) (loc_of_shr_record mrs1)).
  assert (Hm2 : m1 <= m2 <= m1 + 1)
    by (unfold m2; rewrite <- Hm1; apply round_nearest_even_bounds).
  assert (0 <= m1).
  { unfold m1. destruct (Z_lt_le_dec (e1 - ex) 0).
    - rewrite Z.pow_neg_r by lia. rewrite Z.div_0_r. lia.
    - apply Z.div_pos; [lia | apply Z.pow_pos_nonneg; lia]. }
  exists m2. split; [assumption|]. split.
  { intros -> Hid. rewrite shr_fexp_id in E1 by (unfold e1 in Hid; lia).
    injection E1 as <-. reflexivity. }
  set (e3 := Z.max e1 (fexp prec emax (Zdigits2 m2 + e1))).
  destruct (shr_fexp_spec m2 e1 loc_Exact ltac:(lia)) as [Hm3 He3].
  destruct (shr_fexp prec emax m2 e1 loc_Exact) as [mrs3 e3'] eqn:E3.
  simpl in Hm3, He3. fold e3 in He3, Hm3. subst e3'. rewrite Hm3.
  reflexivity.
Qed.

(** Where the mantissa lies after the first shift, for a number of
    magnitude [D = Zdigits2 mx + ex] brought to the exponent [e1]. *)
Lemma shifted_bounds (mx k : Z) :
  0 < mx -> 0 <= k ->
  let w := Z.max 0 (Zdigits2 mx - k) in
  mx / 2 ^ k < 2 ^ w /\ (1 <= w -> 2 ^ (w - 1) <= mx / 2 ^ k).
Proof.
  intros Hm Hk w.
  destruct (Zdigits2_bounds mx Hm) as [Hlo Hhi].
  assert (Hd : 1 <= Zdigits2 mx) by (destruct mx; simpl in *; lia).
  assert (Hpk : 0 < 2 ^ k) by (apply Z.pow_pos_nonneg; lia).
  split.
  - apply Z.div_lt_upper_bound; [assumption|].
    rewrite <- Z.pow_add_r by lia.
    eapply Z.lt_le_trans; [exact Hhi|]. apply Z.pow_le_mono_r; lia.
  - intros Hw. apply Z.div_le_lower_bound; [assumption|].
    rewrite <- Z.pow_add_r by lia.
    replace (k + (w - 1)) with (Zdigits2 mx - 1) by lia. assumption.
Qed.

Lemma Zdigits2_unique (m n : Z) :
  1 <= n -> 2 ^ (n - 1) <= m < 2 ^ n -> Zdigits2 m = n.
Proof.
  intros Hn [Hlo Hhi].
  assert (0 < m) by (pose proof (Z.pow_pos_nonneg 2 (n - 1)); lia).
  pose proof (Zdigits2_le m n ltac:(lia) ltac:(lia) Hhi).
  pose proof (Zdigits2_gt m (n - 1) ltac:(lia) Hlo). lia.
Qed.

Lemma Zdigits2_pow2 (n : Z) : 0 <= n -> Zdigits2 (2 ^ n) = n + 1.
Proof.
  intros Hn. apply Zdigits2_unique; [lia|].
  replace (n + 1 - 1) with n by lia. split; [lia|].
  apply Z.pow_lt_mono_r; lia.
Qed.

(** Rounding a number that has at least the digits of its format gives a
    canonical result, and no zero unless the exponent is below the least. *)
Lemma binary_round_aux_canonical (sx : bool) (mx ex : Z) (lx : location) :
  0 < mx -> ex <= fexp prec emax (Zdigits2 mx + ex) ->
  exists m3 e3,
    binary_round_aux prec emax sx mx ex lx = rounded sx m3 e3 /\
    0 <= m3 /\
    (0 < m3 -> fexp prec emax (Zdigits2 m3 + e3) = e3) /\
    (-1074 <= ex -> 0 < m3).
Proof.
  intros Hm Hex.
  destruct (binary_round_aux_spec sx mx ex lx ltac:(lia)) as (m2 & Hm2 & _ & Heq).
  rewrite Heq; clear Heq.
  set (D := Zdigits2 mx + ex) in *.
  assert (He1 : Z.max ex (fexp prec emax D) = fexp prec emax D) by lia.
  rewrite He1 in *; clear He1.
  set (e1 := fexp prec emax D) in *.
  assert (He1 : e1 = Z.max (D - 53) (-1074)) by apply fexp64.
  destruct (shifted_bounds mx (e1 - ex) Hm ltac:(lia)) as [Hhi Hlo].
  set (m1 := mx / 2 ^ (e1 - ex)) in *.
  set (w := Z.max 0 (Zdigits2 mx - (e1 - ex))) in *.
  assert (Hw : 0 <= w <= 53) by (unfold D in *; lia).
  assert (Hw53 : -1074 < e1 -> w = 53) by (unfold D in *; lia).
  assert (H0m1 : 0 <= m1)
    by (apply Z.div_pos; [lia | apply Z.pow_pos_nonneg; lia]).
  assert (Hpw : 0 < 2 ^ w) by (apply Z.pow_pos_nonneg; lia).
  assert (Hm1pos : -1074 <= ex -> 1 <= m1).
  { intros Hlow. destruct (Z.eq_dec e1 (-1074)) as [E|E].
    - unfold m1. replace (e1 - ex) with 0 by lia.
      rewrite Z.pow_0_r, Z.div_1_r. lia.
    - assert (w = 53) by lia.
      assert (2 ^ (w - 1) <= m1) by (apply Hlo; lia).
      assert (0 < 2 ^ (w - 1)) by (apply Z.pow_pos_nonneg; lia). lia. }
  rewrite (fexp64 (Zdigits2 m2 + e1)).
  destruct (Z.eq_dec m2 (2 ^ w)) as [Etop|Ntop].
  - (* the rounding carried into a new digit *)
    assert (Hd2 : Zdigits2 m2 = w + 1) by (rewrite Etop; apply Zdigits2_pow2; lia).
    rewrite Hd2.
    destruct (Z.eq_dec w 53) as [Ew|Nw].
    + exists (2 ^ 52), (e1 + 1).
      replace (Z.max e1 (Z.max (w + 1 + e1 - 53) (-1074))) with (e1 + 1) by lia.
      replace (e1 + 1 - e1) with 1 by lia.
      rewrite Etop, Ew. split; [reflexivity|].
      split; [lia|]. split; [|lia]. intros _.
      rewrite (Zdigits2_pow2 52) by lia. rewrite fexp64. lia.
    + exists m2, e1.
      replace (Z.max e1 (Z.max (w + 1 + e1 - 53) (-1074))) with e1 by lia.
      replace (e1 - e1) with 0 by lia. rewrite Z.pow_0_r, Z.div_1_r.
      split; [reflexivity|]. split; [lia|]. split; [|lia]. intros _.
      rewrite Hd2, fexp64. lia.
  - destruct (Z.eq_dec m2 0) as [E0|N0].
    + exists 0, (Z.max e1 (Z.max (Zdigits2 m2 + e1 - 53) (-1074))).
      rewrite E0. rewrite Z.div_0_l
        by (apply Z.pow_nonzero; [lia | simpl Zdigits2; lia]).
      split; [reflexivity|]. split; [lia|]. split; [lia|].
      intros Hlow. specialize (Hm1pos Hlow). lia.
    + assert (Hw1 : 1 <= w).
      { destruct (Z.eq_dec w 0) as [E|E]; [|lia].
        assert (E2 : 2 ^ w = 2 ^ 0) by (f_equal; exact E).
        rewrite Z.pow_0_r in E2. lia. }
      specialize (Hlo Hw1).
      assert (Hd2 : Zdigits2 m2 = w) by (apply Zdigits2_unique; lia).
      exists m2, e1. rewrite Hd2.
      replace (Z.max e1 (Z.max (w + e1 - 53) (-1074))) with e1 by lia.
      replace (e1 - e1) with 0 by lia. rewrite Z.pow_0_r, Z.div_1_r.
      split; [reflexivity|]. split; [lia|]. split; [|lia]. intros _.
      rewrite fexp64. lia.
Qed.

(** *** Rounded results are valid binary64 numbers *)

Lemma rounded_valid (sx : bool) (m3 e3 : Z) :
  0 <= m3 -> (0 < m3 -> fexp prec emax (Zdigits2 m3 + e3) = e3) ->
  valid_binary (rounded sx m3 e3) = true.
Proof.
  intros Hm Hc. destruct m3 as [|p|p]; try reflexivity.
  unfold rounded. destruct (e3 <=? 971) eqn:He; [|reflexivity].
  cbn [valid_binary]. unfold bounded, canonical_mantissa.
  specialize (Hc ltac:(lia)). cbn [Zdigits2] in Hc. rewrite Hc.
  rewrite Z.eqb_refl. exact He.
Qed.

(** *** Converting an integer *)

Lemma iter_xO (p d : positive) :
  Z.pos (Pos.iter xO p d) = Z.pos p * 2 ^ Z.pos d.
Proof.
  induction d as [|d IH] using Pos.peano_ind.
  - simpl. lia.
  - rewrite Pos.iter_succ, Pos2Z.inj_xO, IH, Pos2Z.inj_succ.
    rewrite Z.pow_succ_r by lia. lia.
Qed.

Lemma Zdigits2_mul_pow2 (m k : Z) :
  0 < m -> 0 <= k -> Zdigits2 (m * 2 ^ k) = Zdigits2 m + k.
Proof.
  intros Hm Hk. destruct (Zdigits2_bounds m Hm) as [Hlo Hhi].
  assert (1 <= Zdigits2 m) by (destruct m; simpl in *; lia).
  assert (0 < 2 ^ k) by (apply Z.pow_pos_nonneg; lia).
  apply Zdigits2_unique; [lia|]. split.
  - replace (Zdigits2 m + k - 1) with (Zdigits2 m - 1 + k) by lia.
    rewrite Z.pow_add_r by lia. nia.
  - rewrite Z.pow_add_r by lia. nia.
Qed.

(** The mantissa and exponent [binary_round] starts from: the integer
    itself, or the integer shifted left to 53 digits. *)
Lemma shl_align_int (p : positive) :
  let d := Z.pos (digits2_pos p) in
  let k := Z.max 0 (53 - d) in
  exists mz, shl_align p 0 (fexp prec emax (d + 0)) = (mz, - k) /\
             Z.pos mz = Z.pos p * 2 ^ k.
Proof.
  intros d k. unfold shl_align. rewrite fexp64.
  assert (1 <= d) by (unfold d; lia).
  destruct (Z.max (d + 0 - 53) (-1074) - 0) as [|q|q] eqn:E.
  - exists p. replace k with 0 by lia. split; [reflexivity|]. simpl; lia.
  - exists p. replace k with 0 by lia. split; [reflexivity|]. simpl; lia.
  - exists (Pos.iter xO p q). split.
    + f_equal. lia.
    + rewrite iter_xO. f_equal. f_equal. lia.
Qed.

(** [float(n)] for a positive [n]: a canonical, non-zero result. *)
Lemma binary_normalize_pos (p : positive) :
  exists m3 e3,
    binary_normalize prec emax (Z.pos p) 0 false = rounded false m3 e3 /\
    0 < m3 /\ fexp prec emax (Zdigits2 m3 + e3) = e3.
Proof.
  unfold binary_normalize, binary_round.
  destruct (shl_align_int p) as (mz & -> & Hmz).
  set (d := Z.pos (digits2_pos p)) in *.
  set (k := Z.max 0 (53 - d)) in *.
  assert (1 <= d) by (unfold d; lia).
  assert (Hdz : Zdigits2 (Z.pos mz) = d + k).
  { rewrite Hmz. rewrite Zdigits2_mul_pow2 by lia. reflexivity. }
  destruct (binary_round_aux_canonical false (Z.pos mz) (- k) loc_Exact)
    as (m3 & e3 & Heq & H0 & Hc & Hpos); [lia | rewrite Hdz, fexp64; lia |].
  exists m3, e3. split; [exact Heq|]. specialize (Hpos ltac:(lia)).
  split; [assumption | auto].
Qed.

(** Below [2 ^ 53] the conversion is exact: the integer, shifted left to 53
    digits. *)
Lemma binary_normalize_exact (p : positive) :
  Z.pos p < 2 ^ 53 ->
  let k := 53 - Z.pos (digits2_pos p) in
  binary_normalize prec emax (Z.pos p) 0 false
  = S754_finite false (Z.to_pos (Z.pos p * 2 ^ k)) (- k).
Proof.
  intros Hlt k. unfold binary_normalize, binary_round.
  destruct (shl_align_int p) as (mz & -> & Hmz).
  set (d := Z.pos (digits2_pos p)) in *.
  assert (1 <= d) by (unfold d; lia).
  assert (d <= 53)
    by (apply (Zdigits2_le (Z.pos p) 53); lia).
  replace (Z.max 0 (53 - d)) with k in * by (unfold k; lia).
  assert (Hdz : Zdigits2 (Z.pos mz) = 53).
  { rewrite Hmz. rewrite Zdigits2_mul_pow2 by lia. simpl Zdigits2. fold d. lia. }
  destruct (binary_round_aux_spec false (Z.pos mz) (- k) loc_Exact)
    as (m2 & _ & Hex & Heq); [lia|].
  rewrite Hdz, fexp64 in Hex, Heq.
  replace (Z.max (- k) (Z.max (53 + - k - 53) (-1074))) with (- k) in * by lia.
  rewrite (Hex eq_refl eq_refl) in Heq. rewrite Hdz, fexp64 in Heq.
  replace (Z.max (- k) (Z.max (53 + - k - 53) (-1074))) with (- k) in Heq by lia.
  cbv zeta in Heq. replace (- k - - k) with 0 in Heq by lia.
  rewrite Z.pow_0_r, Z.div_1_r in Heq. rewrite Heq. unfold rounded.
  replace (- k <=? 971) with true by (symmetry; apply Z.leb_le; lia).
  rewrite <- Hmz. reflexivity.
Qed.

(** *** Rounding an integer *)

Lemma iter_pos_nat {A} (f : A -> A) (p : positive) :
  forall x, SpecFloat.iter_pos f p x = Nat.iter (Pos.to_nat p) f x.
Proof.
  induction p as [p IH|p IH|]; intros x; cbn [SpecFloat.iter_pos].
  - rewrite !IH, Pos2Nat.inj_xI.
    replace (S (2 * Pos.to_nat p)) with (Pos.to_nat p + (Pos.to_nat p + 1))%nat by lia.
    rewrite !Nat.iter_add. reflexivity.
  - rewrite !IH, Pos2Nat.inj_xO.
    replace (2 * Pos.to_nat p)%nat with (Pos.to_nat p + Pos.to_nat p)%nat by lia.
    rewrite Nat.iter_add. reflexivity.
  - reflexivity.
Qed.

(** One shift: the bit shifted out is the parity of the mantissa, and the
    sticky bit gathers the bits shifted out before. *)
Lemma shr_1_r (mrs : shr_record) :
  0 <= shr_m mrs -> (shr_r (shr_1 mrs) = true <-> shr_m mrs mod 2 = 1).
Proof.
  destruct mrs as [q r s]. cbn [shr_m]. intros Hq.
  destruct q as [|[p|p|]|]; try lia; cbn [shr_1 shr_r].
  - rewrite Z.mod_0_l by lia. split; [discriminate|lia].
  - rewrite Pos2Z.inj_xI.
    replace ((2 * Z.pos p + 1) mod 2) with 1; [tauto|].
    apply Z.mod_unique with (Z.pos p); lia.
  - rewrite Pos2Z.inj_xO.
    replace ((2 * Z.pos p) mod 2) with 0; [split; [discriminate|lia]|].
    apply Z.mod_unique with (Z.pos p); lia.
  - tauto.
Qed.

Lemma shr_1_s (mrs : shr_record) :
  shr_s (shr_1 mrs) = orb (shr_r mrs) (shr_s mrs).
Proof. destruct mrs as [q r s]; destruct q as [|[p|p|]|[p|p|]]; reflexivity. Qed.

(** The record after [j + 1] shifts of [m]: the quotient by [2 ^ (j + 1)],
    the bit last shifted out, and whether a lower bit was set. *)
Lemma shr_iter_spec (m : Z) (j : nat) :
  0 <= m ->
  let mrs := Nat.iter (S j) shr_1 (Build_shr_record m false false) in
  shr_m mrs = m / 2 ^ (Z.of_nat j + 1) /\
  (shr_r mrs = true <-> 2 ^ Z.of_nat j <= m mod 2 ^ (Z.of_nat j + 1)) /\
  (shr_s mrs = true <-> m mod 2 ^ Z.of_nat j <> 0).
Proof.
  intros Hm. induction j as [|j IH].
  - cbn [Nat.iter]. change (Z.of_nat 0 + 1) with 1. change (2 ^ 1) with 2.
    change (2 ^ Z.of_nat 0) with 1. rewrite Z.mod_1_r.
    pose proof (Z.mod_pos_bound m 2 ltac:(lia)).
    split; [now apply shr_1_m|]. split.
    + rewrite shr_1_r by exact Hm. cbn [shr_m]. lia.
    + rewrite shr_1_s. cbn. split; [discriminate | congruence].
  - set (mrs := Nat.iter (S j) shr_1 (Build_shr_record m false false)) in *.
    change (Nat.iter (S (S j)) shr_1 (Build_shr_record m false false))
      with (shr_1 mrs).
    cbv zeta in IH |- *. destruct IH as (IHm & IHr & IHs).
    replace (Z.of_nat (S j)) with (Z.of_nat j + 1) by lia.
    set (J := Z.of_nat j) in *.
    assert (HJ : 0 <= J) by (unfold J; lia).
    assert (Hp : 0 < 2 ^ J) by (apply Z.pow_pos_nonneg; lia).
    assert (Hp1 : 2 ^ (J + 1) = 2 ^ J * 2)
      by (rewrite Z.pow_add_r by lia; reflexivity).
    assert (Hp2 : 2 ^ (J + 1 + 1) = 2 ^ (J + 1) * 2)
      by (rewrite (Z.pow_add_r 2 (J + 1) 1) by lia; reflexivity).
    assert (R1 : m mod 2 ^ (J + 1) = m mod 2 ^ J + 2 ^ J * ((m / 2 ^ J) mod 2))
      by (rewrite Hp1; apply Z.rem_mul_r; lia).
    assert (R2 : m mod 2 ^ (J + 1 + 1)
                 = m mod 2 ^ (J + 1) + 2 ^ (J + 1) * ((m / 2 ^ (J + 1)) mod 2))
      by (rewrite Hp2; apply Z.rem_mul_r; lia).
    pose proof (Z.mod_pos_bound m (2 ^ J) Hp) as B0.
    pose proof (Z.mod_pos_bound m (2 ^ (J + 1)) ltac:(lia)) as B1.
    pose proof (Z.mod_pos_bound (m / 2 ^ J) 2 ltac:(lia)) as B2.
    pose proof (Z.mod_pos_bound (m / 2 ^ (J + 1)) 2 ltac:(lia)) as B3.
    assert (Hq : 0 <= shr_m mrs)
      by (rewrite IHm; apply Z.div_pos; lia).
    split; [|split].
    + rewrite shr_1_m by exact Hq. rewrite IHm, Z.div_div by lia.
      now rewrite <- Hp2.
    + rewrite shr_1_r by exact Hq. rewrite IHm.
      set (b := (m / 2 ^ (J + 1)) mod 2) in *.
      assert (Hb : b = 0 \/ b = 1) by lia.
      destruct Hb as [Hb | Hb]; rewrite Hb in *; lia.
    + rewrite shr_1_s, orb_true_iff, IHr, IHs.
      set (b := (m / 2 ^ J) mod 2) in *.
      assert (Hb : b = 0 \/ b = 1) by lia.
      destruct Hb as [Hb | Hb]; rewrite Hb in *; lia.
Qed.

Lemma shr_round (m : Z) (k : positive) :
  0 <= m ->
  let mrs := SpecFloat.iter_pos shr_1 k (Build_shr_record m false false) in
  round_nearest_even (shr_m mrs) (loc_of_shr_record mrs)
  = round_shift m (Z.pos k).
Proof.
  intros Hm mrs. unfold round_shift. cbn [Z.leb Z.compare].
  unfold mrs. rewrite iter_pos_nat.
  destruct (Pos2Nat.is_succ k) as [j Hj]. rewrite Hj.
  destruct (shr_iter_spec m j Hm) as (Hq & Hr & Hs).
  replace (Z.of_nat j + 1) with (Z.pos k) in * by lia.
  set (r := Nat.iter (S j) shr_1 (Build_shr_record m false false)) in *.
  unfold round_up. rewrite <- !Hq.
  replace (Z.pos k - 1) with (Z.of_nat j) by lia.
  set (J := Z.of_nat j) in *.
  assert (HJ : 0 <= J) by (unfold J; lia).
  assert (Hp : 0 < 2 ^ J) by (apply Z.pow_pos_nonneg; lia).
  assert (Hp1 : 2 ^ Z.pos k = 2 ^ J * 2).
  { replace (Z.pos k) with (J + 1) by lia.
    rewrite Z.pow_add_r by lia. reflexivity. }
  assert (R1 : m mod 2 ^ Z.pos k = m mod 2 ^ J + 2 ^ J * ((m / 2 ^ J) mod 2))
    by (rewrite Hp1; apply Z.rem_mul_r; lia).
  pose proof (Z.mod_pos_bound m (2 ^ J) Hp) as B0.
  pose proof (Z.mod_pos_bound (m / 2 ^ J) 2 ltac:(lia)) as B2.
  set (b := (m / 2 ^ J) mod 2) in *.
  set (rem := m mod 2 ^ Z.pos k) in *.
  set (low := m mod 2 ^ J) in *.
  assert (Hb : b = 0 \/ b = 1) by lia.
  rewrite <- Z.negb_even.
  destruct r as [q rr ss]. cbn [shr_m shr_r shr_s] in *.
  assert (Pr : if rr then 2 ^ J <= rem else rem < 2 ^ J).
  { destruct rr; [now apply Hr|].
    destruct (Z_lt_le_dec rem (2 ^ J)) as [|X]; [assumption|].
    apply Hr in X. discriminate. }
  assert (Ps : if ss then low <> 0 else low = 0).
  { destruct ss; [now apply Hs|].
    destruct (Z.eq_dec low 0) as [|X]; [assumption|].
    apply Hs in X. discriminate. }
  clear Hr Hs.
  assert (R1' : rem = low \/ rem = low + 2 ^ J)
    by (destruct Hb as [Hb|Hb]; rewrite Hb in R1; lia).
  clear R1 Hb.
  destruct (Z.ltb_spec (2 ^ J) rem) as [L|L], (Z.eqb_spec (2 ^ J) rem) as [E|E];
    destruct rr, ss; cbn [loc_of_shr_record round_nearest_even orb andb];
    try (destruct (Z.even q); cbn [negb]); lia.
Qed.

Lemma round_up_mono (c n k : Z) :
  0 <= c <= n -> 0 < k -> c / 2 ^ k = n / 2 ^ k ->
  round_up c k = true -> round_up n k = true.
Proof.
  intros Hcn Hk Hq. unfold round_up. rewrite <- Hq.
  assert (Hp : 0 < 2 ^ k) by (apply Z.pow_pos_nonneg; lia).
  pose proof (Z.div_mod c (2 ^ k) ltac:(lia)) as Dc.
  pose proof (Z.div_mod n (2 ^ k) ltac:(lia)) as Dn.
  rewrite <- Hq in Dn.
  rewrite !orb_true_iff, !andb_true_iff, !Z.ltb_lt, !Z.eqb_eq.
  destruct (Z.odd (c / 2 ^ k)); lia.
Qed.

Lemma round_shift_mono (c n k : Z) :
  0 <= c <= n -> round_shift c k <= round_shift n k.
Proof.
  intros Hcn. unfold round_shift. destruct (Z.leb_spec k 0) as [Hk|Hk]; [lia|].
  assert (Hp : 0 < 2 ^ k) by (apply Z.pow_pos_nonneg; lia).
  pose proof (Z.div_le_mono c n (2 ^ k) Hp ltac:(lia)) as Hq.
  destruct (Z.eq_dec (c / 2 ^ k) (n / 2 ^ k)) as [E|E].
  - rewrite E. destruct (round_up c k) eqn:Uc.
    + rewrite (round_up_mono c n k Hcn Hk E Uc). lia.
    + destruct (round_up n k); lia.
  - destruct (round_up c k), (round_up n k); lia.
Qed.

Lemma round_shift_bounds (m k : Z) :
  0 <= m -> 0 <= k -> m / 2 ^ k <= round_shift m k <= m / 2 ^ k + 1.
Proof.
  intros Hm Hk. unfold round_shift. destruct (Z.leb_spec k 0).
  - replace k with 0 by lia. rewrite Z.pow_0_r, Z.div_1_r. lia.
  - destruct (round_up m k); lia.
Qed.

(** Rounding an exactly given number: the mantissa is rounded to the
    canonical exponent, ties to even, and shifted once more if the rounding
    carried. *)
Lemma binary_round_aux_exact (sx : bool) (mx ex : Z) :
  0 <= mx ->
  let e1 := Z.max ex (fexp prec emax (Zdigits2 mx + ex)) in
  let m2 := round_shift mx (e1 - ex) in
  let e3 := Z.max e1 (fexp prec emax (Zdigits2 m2 + e1)) in
  binary_round_aux prec emax sx mx ex loc_Exact
  = rounded sx (m2 / 2 ^ (e3 - e1)) e3.
Proof.
  intros Hm e1 m2 e3. unfold binary_round_aux.
  assert (H1 : shr_fexp prec emax mx ex loc_Exact
               = (fst (shr_fexp prec emax mx ex loc_Exact), e1) /\
               round_nearest_even
                 (shr_m (fst (shr_fexp prec emax mx ex loc_Exact)))
                 (loc_of_shr_record (fst (shr_fexp prec emax mx ex loc_Exact)))
               = m2).
  { unfold shr_fexp, shr, m2, e1. cbn [shr_record_of_loc].
    destruct (fexp prec emax (Zdigits2 mx + ex) - ex) as [|k|k] eqn:Hk;
      cbn [fst].
    - replace (Z.max ex (fexp prec emax (Zdigits2 mx + ex))) with ex by lia.
      split; [reflexivity|]. replace (ex - ex) with 0 by lia. reflexivity.
    - replace (Z.max ex (fexp prec emax (Zdigits2 mx + ex))) with (ex + Z.pos k)
        by lia.
      split; [reflexivity|]. rewrite shr_round by exact Hm.
      f_equal. lia.
    - replace (Z.max ex (fexp prec emax (Zdigits2 mx + ex))) with ex by lia.
      split; [reflexivity|]. replace (ex - ex) with 0 by lia. reflexivity. }
  destruct H1 as [H1 H2]. rewrite H1, H2.
  assert (0 <= m2).
  { unfold m2, round_shift. destruct (e1 - ex <=? 0); [exact Hm|].
    assert (0 <= mx / 2 ^ (e1 - ex)).
    { destruct (Z_lt_le_dec (e1 - ex) 0).
      - rewrite Z.pow_neg_r by lia. rewrite Z.div_0_r. lia.
      - apply Z.div_pos; [lia | apply Z.pow_pos_nonneg; lia]. }
    destruct (round_up mx (e1 - ex)); lia. }
  destruct (shr_fexp_spec m2 e1 loc_Exact ltac:(lia)) as [Hm3 He3].
  destruct (shr_fexp prec emax m2 e1 loc_Exact) as [mrs3 e3'].
  cbn [fst snd] in Hm3, He3. fold e3 in He3, Hm3. subst e3'. rewrite Hm3.
  reflexivity.
Qed.

Lemma Zdigits2_pos (z : Z) : 0 < z -> 1 <= Zdigits2 z.
Proof. destruct z; simpl; lia. Qed.

Lemma Zdigits2_mono (c n : Z) : 0 < c <= n -> Zdigits2 c <= Zdigits2 n.
Proof.
  intros [Hc Hcn].
  destruct (Zdigits2_bounds n ltac:(lia)) as [_ Hn].
  pose proof (Zdigits2_pos n ltac:(lia)).
  apply Zdigits2_le; lia.
Qed.

(** The rounded integer part of a number of more than 53 digits has 53
    digits, or is [2 ^ 53]. *)
Lemma round_shift_range (z : Z) :
  0 < z -> 53 < Zdigits2 z ->
  2 ^ 52 <= round_shift z (Zdigits2 z - 53) <= 2 ^ 53.
Proof.
  intros Hz Hd.
  destruct (shifted_bounds z (Zdigits2 z - 53) Hz ltac:(lia)) as [Hhi Hlo].
  replace (Z.max 0 (Zdigits2 z - (Zdigits2 z - 53))) with 53 in * by lia.
  specialize (Hlo ltac:(lia)). change (53 - 1) with 52 in Hlo.
  pose proof (round_shift_bounds z (Zdigits2 z - 53) ltac:(lia) ltac:(lia)).
  lia.
Qed.

Lemma int_rounded_range (z : Z) :
  0 < z -> 2 ^ 52 <= fst (int_rounded z) < 2 ^ 53.
Proof.
  intros Hz. unfold int_rounded.
  pose proof (Zdigits2_pos z Hz) as Hd.
  destruct (Z.leb_spec (Zdigits2 z) 53) as [Hle|Hgt]; cbn [fst].
  - destruct (Zdigits2_bounds z Hz) as [Hlo Hhi].
    assert (Hp : 0 < 2 ^ (53 - Zdigits2 z)) by (apply Z.pow_pos_nonneg; lia).
    assert (E1 : 2 ^ 52 = 2 ^ (Zdigits2 z - 1) * 2 ^ (53 - Zdigits2 z))
      by (rewrite <- Z.pow_add_r by lia; f_equal; lia).
    assert (E2 : 2 ^ 53 = 2 ^ Zdigits2 z * 2 ^ (53 - Zdigits2 z))
      by (rewrite <- Z.pow_add_r by lia; f_equal; lia).
    rewrite E1, E2. nia.
  - pose proof (round_shift_range z Hz Hgt).
    destruct (Z.eqb_spec (round_shift z (Zdigits2 z - 53)) (2 ^ 53));
      cbn [fst]; lia.
Qed.

Lemma binary_normalize_int (p : positive) :
  binary_normalize prec emax (Z.pos p) 0 false
  = rounded false (fst (int_rounded (Z.pos p))) (snd (int_rounded (Z.pos p))).
Proof.
  unfold int_rounded.
  destruct (Z.leb_spec (Zdigits2 (Z.pos p)) 53) as [Hle|Hgt]; cbn [fst snd].
  - assert (Hlt : Z.pos p < 2 ^ 53).
    { destruct (Zdigits2_bounds (Z.pos p) ltac:(lia)) as [_ Hhi].
      eapply Z.lt_le_trans; [exact Hhi|]. apply Z.pow_le_mono_r; lia. }
    rewrite (binary_normalize_exact p Hlt). cbn [Zdigits2].
    set (k := 53 - Z.pos (digits2_pos p)).
    assert (0 <= k) by (unfold k; cbn [Zdigits2] in Hle; lia).
    assert (0 < 2 ^ k) by (apply Z.pow_pos_nonneg; lia).
    unfold rounded.
    destruct (Z.pos p * 2 ^ k) as [|q|q] eqn:E; try lia.
    replace (Z.pos (digits2_pos p) - 53) with (- k) by (unfold k; lia).
    replace (- k <=? 971) with true by (symmetry; apply Z.leb_le; lia).
    reflexivity.
  - unfold binary_normalize, binary_round.
    destruct (shl_align_int p) as (mz & -> & Hmz).
    cbn [Zdigits2] in Hgt.
    replace (Z.max 0 (53 - Z.pos (digits2_pos p))) with 0 in * by lia.
    rewrite Z.pow_0_r, Z.mul_1_r in Hmz. injection Hmz as ->.
    change (- 0) with 0.
    rewrite binary_round_aux_exact by lia.
    cbn [Zdigits2]. rewrite !fexp64.
    set (d := Z.pos (digits2_pos p)) in *.
    replace (Z.max 0 (Z.max (d + 0 - 53) (-1074))) with (d - 53) by lia.
    replace (d - 53 - 0) with (d - 53) by lia.
    pose proof (round_shift_range (Z.pos p) ltac:(lia) Hgt) as Hr.
    cbn [Zdigits2] in Hr. fold d in Hr.
    set (m2 := round_shift (Z.pos p) (d - 53)) in *.
    destruct (Z.eqb_spec m2 (2 ^ 53)) as [E|E].
    + rewrite E, (Zdigits2_pow2 53) by lia.
      replace (Z.max (d - 53) (Z.max (53 + 1 + (d - 53) - 53) (-1074)))
        with (d - 52) by lia.
      replace (d - 52 - (d - 53)) with 1 by lia. reflexivity.
    + assert (Hd2 : Zdigits2 m2 = 53) by (apply Zdigits2_unique; lia).
      rewrite Hd2.
      replace (Z.max (d - 53) (Z.max (53 + (d - 53) - 53) (-1074)))
        with (d - 53) by lia.
      replace (d - 53 - (d - 53)) with 0 by lia.
      now rewrite Z.pow_0_r, Z.div_1_r.
Qed.

(** The conversion is monotone: a greater integer has a greater exponent,
    or the same exponent and no smaller a mantissa. *)
Lemma int_rounded_mono (c n : Z) :
  0 < c <= n ->
  snd (int_rounded c) < snd (int_rounded n) \/
  (snd (int_rounded c) = snd (int_rounded n) /\
   fst (int_rounded c) <= fst (int_rounded n)).
Proof.
  intros Hcn.
  pose proof (Zdigits2_mono c n Hcn) as Hd.
  pose proof (int_rounded_range n ltac:(lia)) as Rn.
  pose proof (int_rounded_range c ltac:(lia)) as Rc.
  unfold int_rounded in *.
  destruct (Z.leb_spec (Zdigits2 c) 53) as [Hc53|Hc53],
           (Z.leb_spec (Zdigits2 n) 53) as [Hn53|Hn53]; cbn [fst snd] in *;
    try lia.
  - destruct (Z.eq_dec (Zdigits2 c) (Zdigits2 n)) as [E|E]; [|lia].
    right. rewrite E. split; [reflexivity|].
    apply Z.mul_le_mono_nonneg_r; [apply Z.pow_nonneg|]; lia.
  - destruct (Z.eqb_spec (round_shift n (Zdigits2 n - 53)) (2 ^ 53));
      cbn [fst snd] in *; lia.
  - pose proof (round_shift_range c ltac:(lia) Hc53) as Rc2.
    pose proof (round_shift_range n ltac:(lia) Hn53) as Rn2.
    destruct (Z.eq_dec (Zdigits2 c) (Zdigits2 n)) as [E|E].
    + rewrite E in *.
      pose proof (round_shift_mono c n (Zdigits2 n - 53) ltac:(lia)) as Hm.
      destruct (Z.eqb_spec (round_shift c (Zdigits2 n - 53)) (2 ^ 53)),
               (Z.eqb_spec (round_shift n (Zdigits2 n - 53)) (2 ^ 53));
        cbn [fst snd] in *; lia.
    + destruct (Z.eqb_spec (round_shift c (Zdigits2 c - 53)) (2 ^ 53)),
               (Z.eqb_spec (round_shift n (Zdigits2 n - 53)) (2 ^ 53));
        cbn [fst snd] in *; lia.
Qed.

(** *** Dividing a smaller number by a larger one *)





(** A number divided by itself is one. *)
Lemma SFdiv_self (m : positive) (e : Z) :
  SFdiv prec emax (S754_finite false m e) (S754_finite false m e) = SFone64.
Proof.
  cbn [SFdiv xorb]. unfold SFdiv_core_binary.
  replace (Zdigits2 (Z.pos m) + e - (Zdigits2 (Z.pos m) + e)) with 0 by lia.
  replace (e - e) with 0 by lia.
  change (Z.min (fexp prec emax 0) 0) with (-53).
  change (0 - -53) with 53.
  cbv iota beta.
  rewrite Z.shiftl_mul_pow2 by lia.
  assert (Hd : Z.div_eucl (Z.pos m * 2 ^ 53) (Z.pos m) = (2 ^ 53, 0)).
  { rewrite (surjective_pairing (Z.div_eucl _ _)).
    change (fst (Z.div_eucl ?a ?b)) with (a / b).
    change (snd (Z.div_eucl ?a ?b)) with (a mod b).
    rewrite (Z.mul_comm (Z.pos m)), Z.div_mul, Z.mod_mul by lia.
    reflexivity. }
  rewrite Hd.
  assert (Hloc : new_location (Z.pos m) 0 = loc_Exact).
  { unfold new_location, new_location_even, new_location_odd.
    destruct (Z.even (Z.pos m)); reflexivity. }
  rewrite Hloc. reflexivity.
Qed.

(** *** The order of the binary64 numbers *)

Lemma SFleb_key (a b : spec_float) :
  a <> S754_nan -> b <> S754_nan ->
  (SFleb a b = true <-> key_le (order_key a) (order_key b)).
Proof.
  intros Ha Hb. unfold SFleb, SFcompare.
  destruct a as [sa|sa| |sa ma ea], b as [sb|sb| |sb mb eb]; try congruence;
    try destruct sa; try destruct sb; simpl; try (split; [lia | reflexivity]);
    try (split; [discriminate | lia]).
  - destruct (Z.compare_spec ea eb) as [E|E|E];
      [ subst; change (Pos.compare_cont Eq ma mb) with (Pos.compare ma mb);
        destruct (Pos.compare_spec ma mb) as [F|F|F]; simpl | | ];
      split; try discriminate; try reflexivity; try lia.
  - destruct (Z.compare_spec ea eb) as [E|E|E];
      [ subst; change (Pos.compare_cont Eq ma mb) with (Pos.compare ma mb);
        destruct (Pos.compare_spec ma mb) as [F|F|F]; simpl | | ];
      split; try discriminate; try reflexivity; try lia.
Qed.

Lemma SFltb_key (a b : spec_float) :
  a <> S754_nan -> b <> S754_nan ->
  (SFltb a b = true <-> key_lt (order_key a) (order_key b)).
Proof.
  intros Ha Hb. unfold SFltb, SFcompare.
  destruct a as [sa|sa| |sa ma ea], b as [sb|sb| |sb mb eb]; try congruence;
    try destruct sa; try destruct sb; simpl; try (split; [lia | reflexivity]);
    try (split; [discriminate | lia]).
  - destruct (Z.compare_spec ea eb) as [E|E|E];
      [ subst; change (Pos.compare_cont Eq ma mb) with (Pos.compare ma mb);
        destruct (Pos.compare_spec ma mb) as [F|F|F]; simpl | | ];
      split; try discriminate; try reflexivity; try lia.
  - destruct (Z.compare_spec ea eb) as [E|E|E];
      [ subst; change (Pos.compare_cont Eq ma mb) with (Pos.compare ma mb);
        destruct (Pos.compare_spec ma mb) as [F|F|F]; simpl | | ];
      split; try discriminate; try reflexivity; try lia.
Qed.

Lemma SFleb_nan_l (b : spec_float) : SFleb S754_nan b = false.
Proof. reflexivity. Qed.

Lemma SFleb_nan_r (a : spec_float) : SFleb a S754_nan = false.
Proof. destruct a; reflexivity. Qed.

Lemma SFltb_nan_r (a : spec_float) : SFltb a S754_nan = false.
Proof. destruct a; reflexivity. Qed.

(** [d <= max(t, r)] is [d <= t] or [d <= r], for a [t] that is a number and
    the maximum as Python takes it. *)
Lemma SFleb_max (d t r : spec_float) :
  t <> S754_nan ->
  (SFleb d (if SFltb t r then r else t) = true
   <-> SFleb d t = true \/ SFleb d r = true).
Proof.
  intros Ht.
  assert (Hdn : d = S754_nan \/ d <> S754_nan) by (destruct d; auto; right; discriminate); destruct Hdn as [-> | Hd].
  { rewrite !SFleb_nan_l. intuition discriminate. }
  assert (Hrn : r = S754_nan \/ r <> S754_nan) by (destruct r; auto; right; discriminate); destruct Hrn as [-> | Hr].
  { rewrite SFltb_nan_r, SFleb_nan_r. intuition discriminate. }
  pose proof (SFltb_key t r Ht Hr) as Hlt.
  pose proof (SFleb_key d t Hd Ht) as Hdt.
  pose proof (SFleb_key d r Hd Hr) as Hdr.
  destruct (order_key d) as [[d1 d2] d3], (order_key t) as [[t1 t2] t3],
           (order_key r) as [[r1 r2] r3].
  unfold key_le, key_lt in *.
  destruct (SFltb t r) eqn:E.
  - rewrite Hdt, Hdr. destruct Hlt as [Hlt _]. specialize (Hlt eq_refl). lia.
  - rewrite Hdt, Hdr.
    assert (Hn : ~ (t1 < r1 \/ t1 = r1 /\ (t2 < r2 \/ t2 = r2 /\ t3 < r3))).
    { intros H. apply Hlt in H. discriminate. }
    lia.
Qed.

End FloatFacts.

(** ** The numbers of the mastery update *)

Module MasteryFacts.
Import PyNum Binary64 FloatFacts Submit.

Lemma Prim2SF_zero : Prim2SF 0 = S754_zero false.
Proof. reflexivity. Qed.


Lemma binary_normalize_valid (p : positive) :
  valid_binary (binary_normalize prec emax (Z.pos p) 0 false) = true.
Proof.
  destruct (binary_normalize_pos p) as (m3 & e3 & -> & Hm & Hc).
  apply rounded_valid; [lia | auto].
Qed.

(** [float(n)] of a positive [int] is not zero. *)
Lemma float_of_int_nonzero (n : Z) (y : float) :
  1 <= n -> float_of_int n = Some y -> PrimFloat.eqb y 0 = false.
Proof.
  intros Hn. destruct n as [|p|p]; try lia. unfold float_of_int.
  pose proof (binary_normalize_valid p) as Hv.
  destruct (binary_normalize_pos p) as (m3 & e3 & Heq & Hm & _).
  rewrite Heq in *. unfold rounded in *.
  destruct m3 as [|m|m]; try lia.
  destruct (e3 <=? 971); [|discriminate].
  intros H. assert (Ey : y = SF2Prim (S754_finite false m e3)) by congruence.
  rewrite Ey, FloatAxioms.eqb_spec, Prim2SF_SF2Prim, Prim2SF_zero by exact Hv.
  reflexivity.
Qed.

Lemma float_of_int_zero : float_of_int 0 = Some 0%float.
Proof. reflexivity. Qed.

(** Below [2 ^ 53], [float(n)] is [n] itself. *)
Lemma float_of_int_exact (p : positive) :
  Z.pos p < 2 ^ 53 ->
  let k := 53 - Z.pos (digits2_pos p) in
  exists y, float_of_int (Z.pos p) = Some y /\
    Prim2SF y = S754_finite false (Z.to_pos (Z.pos p * 2 ^ k)) (- k).
Proof.
  intros Hlt k. unfold float_of_int.
  pose proof (binary_normalize_valid p) as Hv.
  rewrite (binary_normalize_exact p Hlt) in *. fold k in Hv |- *.
  eexists. split; [reflexivity|]. now apply Prim2SF_SF2Prim.
Qed.

(** [float(n)] for a positive [int]: the rounded integer, or an overflow
    when the exponent is too large. *)
Lemma float_of_int_rounded (p : positive) :
  let m := fst (int_rounded (Z.pos p)) in
  let e := snd (int_rounded (Z.pos p)) in
  if e <=? 971 then
    exists y, float_of_int (Z.pos p) = Some y /\
              Prim2SF y = S754_finite false (Z.to_pos m) e
  else float_of_int (Z.pos p) = None.
Proof.
  intros m e. unfold float_of_int.
  pose proof (binary_normalize_valid p) as Hv.
  pose proof (int_rounded_range (Z.pos p) ltac:(lia)) as Hr. fold m in Hr.
  rewrite binary_normalize_int in *. fold m e in Hv |- *.
  unfold rounded in *. destruct m as [|q|q]; try lia.
  destruct (e <=? 971); [|reflexivity].
  eexists. split; [reflexivity|]. now apply Prim2SF_SF2Prim.
Qed.

(** The conversion of a smaller positive [int] succeeds where that of a
    larger one does. *)
Lemma float_of_int_le (c n : Z) (y : float) :
  0 <= c <= n -> float_of_int n = Some y -> exists x, float_of_int c = Some x.
Proof.
  intros Hc Hy. destruct c as [|pc|pc]; try lia; [now exists 0%float|].
  destruct n as [|pn|pn]; try lia.
  pose proof (float_of_int_rounded pc) as Fc.
  pose proof (float_of_int_rounded pn) as Fn.
  pose proof (int_rounded_mono (Z.pos pc) (Z.pos pn) ltac:(lia)) as Hm.
  cbv zeta in Fc, Fn.
  destruct (Z.leb_spec (snd (int_rounded (Z.pos pn))) 971); [|congruence].
  destruct (Z.leb_spec (snd (int_rounded (Z.pos pc))) 971); [|lia].
  destruct Fc as (x & Hx & _). now exists x.
Qed.

(** No count below [2 ^ 1023] overflows. *)
Lemma float_of_int_below (n : Z) :
  0 <= n < 2 ^ 1023 -> float_of_int n <> None.
Proof.
  intros [H0 Hn]. destruct n as [|p|p]; try lia; [discriminate|].
  pose proof (float_of_int_rounded p) as F. cbv zeta in F.
  assert (Hd : Zdigits2 (Z.pos p) <= 1023) by (apply Zdigits2_le; lia).
  assert (He : snd (int_rounded (Z.pos p)) <= 971).
  { unfold int_rounded.
    destruct (Zdigits2 (Z.pos p) <=? 53); cbn [snd]; [lia|].
    destruct (_ =? _); cbn [snd]; lia. }
  destruct (Z.leb_spec (snd (int_rounded (Z.pos p))) 971); [|lia].
  destruct F as (y & -> & _). discriminate.
Qed.


End MasteryFacts.

(** ** Answer computation *)

Module AnswerProps.
Import PyNum Py Onto Spec Texts Examples.

(** *** The lookup of the code and the lookup of the specification *)

Lemma lower_cons (c : ascii) (s : string) :
  lower (String c s) = String (lower_ascii c) (lower s).
Proof. reflexivity. Qed.

(** The head of the text in lower case is one of the symbols. *)
Definition head_symbol (s : string) : Prop :=
  match s with
  | EmptyString => True
  | String c _ => is_symbol (lower_ascii c) = true
  end.

Definition symbols (l : list ascii) : Prop :=
  Forall (fun c => is_symbol (lower_ascii c) = true) l.

Lemma head_symbol_app (s t : string) :
  head_symbol s -> head_symbol t -> head_symbol (s ++ t).
Proof. destruct s; simpl; auto. Qed.

Lemma head_symbol_of_list (l : list ascii) :
  symbols l -> head_symbol (string_of_list_ascii l).
Proof. intros [|c l' Hc _]; simpl; auto. Qed.

Lemma symbols_uint (d : Decimal.uint) :
  symbols (list_ascii_of_string (NilEmpty.string_of_uint d)).
Proof. induction d; simpl; constructor; auto. Qed.

Lemma symbols_Z (z : Z) : symbols (list_ascii_of_string (string_of_Z z)).
Proof.
  unfold string_of_Z, NilZero.string_of_int, NilZero.string_of_uint.
  destruct (Z.to_int z) as [d|d].
  - destruct d; try apply (symbols_uint (_ d)); repeat constructor.
  - constructor; [reflexivity|].
    destruct d; try apply (symbols_uint (_ d)); repeat constructor.
Qed.

Lemma symbols_drop_zeros (l : list ascii) : symbols l -> symbols (drop_zeros l).
Proof.
  induction 1 as [|c l Hc Hl IH]; simpl; [constructor|].
  destruct c as [[] [] [] [] [] [] [] []]; try (constructor; assumption).
  exact IH.
Qed.

Lemma symbols_firstn (n : nat) (l : list ascii) : symbols l -> symbols (firstn n l).
Proof.
  unfold symbols. intros H. revert n.
  induction H as [|c l Hc _ IH]; intros [|n]; simpl.
  - constructor.
  - constructor.
  - constructor.
  - constructor; [exact Hc | apply IH].
Qed.

Lemma head_symbol_layout (ds : list ascii) (decpt : Z) :
  symbols ds -> head_symbol (layout ds decpt).
Proof.
  intros H. unfold layout.
  destruct (_ || _).
  - apply head_symbol_app; [now apply head_symbol_of_list, symbols_firstn|].
    now destruct (1 <? _).
  - destruct (decpt <=? 0); [reflexivity|].
    destruct (_ <=? decpt).
    + apply head_symbol_app; [now apply head_symbol_of_list|].
      apply head_symbol_app; [|reflexivity].
      apply head_symbol_of_list. unfold symbols.
      apply List.Forall_forall. intros c Hc. apply repeat_spec in Hc. now subst c.
    + apply head_symbol_app; [now apply head_symbol_of_list, symbols_firstn|].
      reflexivity.
Qed.

Lemma head_symbol_float (x : float) : head_symbol (string_of_float x).
Proof.
  unfold string_of_float.
  destruct (Prim2SF x) as [[]|[]| |s m e]; try reflexivity.
  destruct (if 0 <=? e then _ else _) as [num den].
  destruct (shortest _ _ _ _ _ _) as [c n].
  assert (H : head_symbol
                (layout (rev (drop_zeros (rev (list_ascii_of_string (string_of_Z c)))))
                   (find_decpt num den 700 (-330)
                    + (Z.of_nat (length (list_ascii_of_string (string_of_Z c))) - n)))).
  { apply head_symbol_layout. unfold symbols. apply List.Forall_rev.
    apply symbols_drop_zeros. apply List.Forall_rev. apply symbols_Z. }
  destruct s; [reflexivity | exact H].
Qed.

(** Written by [str], a value that is no text begins with a symbol. *)
Lemma head_symbol_str (n : pyval) :
  (forall s, n <> PyStr s) -> head_symbol (str n).
Proof.
  intros H. destruct n as [|[]|z|x|s]; try reflexivity.
  - simpl. rewrite <- (string_of_list_ascii_of_string (string_of_Z z)).
    apply (head_symbol_of_list _ (symbols_Z z)).
  - apply head_symbol_float.
  - now destruct (H s).
Qed.

Lemma head_symbol_not_plain (s : string) (names : list string) :
  head_symbol s -> plain names = true ->
  existsb (String.eqb (lower s)) (map lower names) = false.
Proof.
  intros Hs Hp. unfold plain in Hp. rewrite forallb_forall in Hp.
  apply not_true_iff_false. intros H. apply existsb_exists in H.
  destruct H as (a' & Ha' & E). apply in_map_iff in Ha' as (a & <- & Ha).
  apply String.eqb_eq in E. specialize (Hp a Ha). rewrite <- E in Hp.
  destruct s as [|c s]; [discriminate Hp|].
  rewrite lower_cons in Hp. simpl in Hs. now rewrite Hs in Hp.
Qed.

(** The test of the code is the test by name: for names that begin with a
    plain letter, the text [str] writes for a number, [True] or [False] is
    none of them, and neither is the empty text. *)
Lemma name_matches_called (names : list string) (n : pyval) :
  plain names = true ->
  name_matches (map lower names) n = is_called names n.
Proof.
  intros Hp. unfold name_matches, is_called.
  destruct n as [|b|z|x|s].
  - reflexivity.
  - rewrite (head_symbol_not_plain (str (PyBool b)) names);
      [apply andb_false_r | now destruct b | exact Hp].
  - rewrite (head_symbol_not_plain (str (PyInt z)) names);
      [apply andb_false_r | apply head_symbol_str; discriminate | exact Hp].
  - rewrite (head_symbol_not_plain (str (PyFloat x)) names);
      [apply andb_false_r | apply head_symbol_float | exact Hp].
  - simpl. destruct (String.eqb_spec s "") as [->|Hne]; [|reflexivity].
    simpl. symmetry. now apply (head_symbol_not_plain "" names).
Qed.

Lemma search_by_name_called (names : list string) (dims : list dim) :
  plain names = true ->
  search_by_name (map lower names) dims
  = option_map number (first_called names dims).
Proof.
  intros Hp. induction dims as [|[n v] dims IH]; simpl; [reflexivity|].
  rewrite (name_matches_called names n Hp).
  destruct (is_called names n); [reflexivity | exact IH].
Qed.

(** [get_val] is the lookup of the specification. *)
Lemma get_val_lookup (dims : list dim) (names : list string) :
  plain names = true -> get_val dims names = lookup dims names.
Proof.
  intros Hp. unfold get_val, lookup.
  rewrite (search_by_name_called names dims Hp).
  destruct (first_called names dims); reflexivity.
Qed.

Lemma get_val_holds (dims : list dim) (names : list string) (r : float) :
  holds dims names r -> plain names = true -> get_val dims names = Some r.
Proof.
  intros (s & Hs & Hr) Hp. rewrite (get_val_lookup _ _ Hp).
  unfold lookup. now rewrite Hs.
Qed.

(** Away from the sequences of exactly one entry, [get_val] is the search
    by name. *)
Lemma get_val_by_name (dims : list dim) (names : list string) :
  plain names = true -> length dims <> 1%nat ->
  get_val dims names = by_name dims names.
Proof.
  intros Hp Hlen. rewrite (get_val_lookup _ _ Hp). unfold lookup, by_name.
  destruct (first_called names dims); [reflexivity|].
  destruct dims as [|[n v] [|e dims]]; simpl in *; congruence.
Qed.

Lemma search_by_name_unnamed (dims : list dim) (names : list string) :
  unnamed dims names -> search_by_name (map lower names) dims = None.
Proof.
  induction 1 as [|[n v] dims Hn _ IH]; simpl; [reflexivity|].
  simpl in Hn. now rewrite Hn.
Qed.

(** *** The closed forms *)

#[local] Open Scope float_scope.

(** C1. For a Problem of one of the four kinds whose dimension sequence
    holds well-formed numbers under the right names, [compute_answer]
    returns the closed form: [pi * r * r] for a Circle, [s * s] for a Square,
    [l * w] for a Rectangle, [0.5 * b * h] for a Triangle.  A number is held
    under a name when the first entry whose name is the name or its alias,
    in any letter case, has a value that reads as the number; the other
    entries, before or after it, do not matter.  The Circle of radius 2 has
    the answer [4 * pi], which is 12.566...; a Square of side 3 among other
    dimensions has 9, the Rectangle of width 3 and length 4 has 12, and the
    Triangle of height 4 and base 3 has 6. *)
Theorem compute_answer_closed_form (problem : Problem) :
  let dims := dims_for_problem problem in
  let kind := fst (shape_for_problem problem) in
  (forall r, kind = Some "Circle"%string -> holds dims ["radius"; "r"]%string r ->
     compute_answer problem = Some (pi * r * r)) /\
  (forall s, kind = Some "Square"%string -> holds dims ["side"; "s"]%string s ->
     compute_answer problem = Some (s * s)) /\
  (forall l w, kind = Some "Rectangle"%string ->
     holds dims ["length"; "l"]%string l -> holds dims ["width"; "w"]%string w ->
     compute_answer problem = Some (l * w)) /\
  (forall b h, kind = Some "Triangle"%string ->
     holds dims ["base"; "b"]%string b -> holds dims ["height"; "h"]%string h ->
     compute_answer problem = Some (0.5 * b * h)) /\
  compute_answer circle_radius_2 = Some (4 * pi) /\
  4 * pi = 12.566370614359172 /\
  compute_answer square_side_3 = Some 9 /\
  compute_answer rectangle_width_3_length_4 = Some 12 /\
  compute_answer triangle_height_4_base_3 = Some 6.
Proof.
  intros dims kind. unfold compute_answer. fold dims kind.
  repeat split.
  - intros r -> Hr. simpl.
    now rewrite (get_val_holds _ _ _ Hr eq_refl).
  - intros s -> Hs. simpl.
    now rewrite (get_val_holds _ _ _ Hs eq_refl).
  - intros l w -> Hl Hw. simpl. unfold rectangle_answer.
    now rewrite (get_val_holds _ _ _ Hl eq_refl),
      (get_val_holds _ _ _ Hw eq_refl).
  - intros b h -> Hb Hh. simpl.
    now rewrite (get_val_holds _ _ _ Hb eq_refl),
      (get_val_holds _ _ _ Hh eq_refl).
Qed.

Lemma compute_answer_closed_form_witness :
  compute_answer triangle_height_4_base_3 = Some (0.5 * 3 * 4).
Proof.
  apply (proj1 (proj2 (proj2 (proj2
           (compute_answer_closed_form triangle_height_4_base_3)))) 3 4).
  - reflexivity.
  - exists "3.0"%string. split; reflexivity.
  - exists "4.0"%string. split; reflexivity.
Defined.

(** *** Triangle *)

(** C3. The code at the inputs where it departs from the rule: a Triangle whose
    sequence has exactly one entry gets both base and height from that
    entry, by the single-entry fallback of [get_val], and an answer is
    computed although the height is missing. *)
Theorem triangle_single_entry_is_computed :
  fst (shape_for_problem triangle_base_only) = Some "Triangle"%string /\
  dims_for_problem triangle_base_only = [(PyStr "base", Some "3.0"%string)] /\
  unnamed (dims_for_problem triangle_base_only) ["height"; "h"]%string /\
  compute_answer triangle_base_only = Some 4.5 /\
  unnamed (dims_for_problem triangle_misnamed) ["base"; "b"]%string /\
  unnamed (dims_for_problem triangle_misnamed) ["height"; "h"]%string /\
  compute_answer triangle_misnamed = Some 4.5.
Proof.
  repeat split; try reflexivity; repeat constructor.
Qed.

(** Everywhere else the Triangle rule is as the specification has it: with
    no entry, or two or more, a base or height that no name resolves makes
    the answer indeterminate. *)
Lemma triangle_indeterminate (problem : Problem) :
  let dims := dims_for_problem problem in
  fst (shape_for_problem problem) = Some "Triangle"%string ->
  length dims <> 1%nat ->
  by_name dims ["base"; "b"]%string = None \/
  by_name dims ["height"; "h"]%string = None ->
  compute_answer problem = None.
Proof.
  intros dims Hk Hlen Hmiss. unfold compute_answer. fold dims. rewrite Hk.
  simpl. rewrite !get_val_by_name by (reflexivity || assumption).
  destruct Hmiss as [-> | ->]; [reflexivity|].
  now destruct (by_name dims ["base"; "b"]%string).
Qed.

(** *** Rectangle *)

(** The Rectangle branch is the rule of the specification. *)
Lemma rectangle_answer_rule (dims : list dim) :
  rectangle_answer dims = rectangle_rule dims.
Proof.
  unfold rectangle_answer, rectangle_rule.
  rewrite !get_val_lookup by reflexivity.
  destruct (lookup dims ["length"; "l"]%string) as [l|],
           (lookup dims ["width"; "w"]%string) as [w|];
    simpl; try reflexivity.
  all: destruct dims as [|[n0 [v0|]] [|[n1 [v1|]] dims]]; simpl; try reflexivity.
  all: destruct (float_of_string v0); try reflexivity.
  all: destruct (float_of_string v1); reflexivity.
Qed.

(** C4. For every Rectangle problem [compute_answer] is the Rectangle rule
    of the specification: length and width are looked up under their names
    and aliases, in any letter case, by the lookup of section 4.3; when
    either is unresolved and the sequence has at least two dimensions, the
    first two values in declaration order are taken as length and width;
    the answer is the product when both resolve and indeterminate
    otherwise.  Two dimensions (5, 6) under names that are none of the
    accepted ones give 30 by position; width 3 and length 4, declared in
    that order, give 12 by the named match, the length being the second
    value.  (The lookup of section 4.3 gives the only value of a one-entry
    sequence to every name not found in it, so a Rectangle with its length
    5 alone has the answer 25, by the rule and by the code.) *)
Theorem rectangle_answer_is_the_rule (problem : Problem) :
  (fst (shape_for_problem problem) = Some "Rectangle"%string ->
   compute_answer problem = rectangle_rule (dims_for_problem problem)) /\
  (first_called ["length"; "l"]%string (dims_for_problem rectangle_unnamed_5_6)
   = None /\
   first_called ["width"; "w"]%string (dims_for_problem rectangle_unnamed_5_6)
   = None /\
   compute_answer rectangle_unnamed_5_6 = Some 30) /\
  (dims_for_problem rectangle_width_3_length_4
   = [(PyStr "width", Some "3.0"%string); (PyStr "length", Some "4.0"%string)] /\
   by_name (dims_for_problem rectangle_width_3_length_4) ["length"; "l"]%string
   = Some 4 /\
   by_name (dims_for_problem rectangle_width_3_length_4) ["width"; "w"]%string
   = Some 3 /\
   compute_answer rectangle_width_3_length_4 = Some 12) /\
  (rectangle_rule (dims_for_problem rectangle_length_only) = Some 25 /\
   compute_answer rectangle_length_only = Some 25).
Proof.
  split; [|repeat split; reflexivity].
  intros Hk. unfold compute_answer. rewrite Hk. simpl.
  apply rectangle_answer_rule.
Qed.

Lemma rectangle_answer_is_the_rule_witness :
  compute_answer rectangle_unnamed_5_6
  = rectangle_rule (dims_for_problem rectangle_unnamed_5_6).
Proof.
  exact (proj1 (rectangle_answer_is_the_rule rectangle_unnamed_5_6) eq_refl).
Defined.

(** *** Shape resolution *)

Lemma is_known_kind_spec (k : string) :
  is_known_kind k = true <->
  k = "Circle"%string \/ k = "Square"%string \/ k = "Rectangle"%string
  \/ k = "Triangle"%string.
Proof.
  unfold is_known_kind, known_kinds. cbn [existsb].
  rewrite !orb_true_iff, !String.eqb_eq. intuition discriminate.
Qed.

Lemma first_known_class_found (pre post : list OntoClass) (c : OntoClass) (k : string) :
  Forall not_a_kind pre -> class_name c = Some k -> is_known_kind k = true ->
  first_known_class (pre ++ c :: post) = Some k.
Proof.
  intros Hpre Hc Hk. induction Hpre as [|c' pre Hc' _ IH]; simpl.
  - now rewrite Hc, Hk.
  - destruct (class_name c') as [k'|] eqn:E; [|exact IH].
    now rewrite (Hc' k' E).
Qed.

Lemma first_known_class_none (cs : list OntoClass) :
  Forall not_a_kind cs -> first_known_class cs = None.
Proof.
  induction 1 as [|c cs Hc _ IH]; simpl; [reflexivity|].
  destruct (class_name c) as [k|] eqn:E; [|exact IH].
  now rewrite (Hc k E).
Qed.

(** C8. [shape_for_problem] resolves the kind by an ordered chain, each
    step tried only when the one before gave nothing.  With no linked
    shape the result is (unknown, none).  Otherwise, for the first linked
    shape [s]: (1) the first of its classes that names one of the four
    kinds gives the kind; (2) when no class does and the name of [s] has an
    underscore, the part before the first underscore gives the kind if it
    is one of the four; (3) otherwise the name of the first class of [s] is
    returned, whatever it is (nothing when [s] has no class or the class no
    name). *)
Theorem shape_for_problem_chain (problem : Problem) :
  (hasShape problem = None \/ hasShape problem = Some [] ->
   shape_for_problem problem = (None, None)) /\
  (forall s rest, hasShape problem = Some (s :: rest) ->
     (forall pre c post k,
        is_a s = (pre ++ c :: post)%list -> Forall not_a_kind pre ->
        class_name c = Some k -> is_known_kind k = true ->
        shape_for_problem problem = (Some k, Some s)) /\
     (Forall not_a_kind (is_a s) ->
      has_underscore (shape_name s) = true ->
      is_known_kind (before_underscore (shape_name s)) = true ->
      shape_for_problem problem
      = (Some (before_underscore (shape_name s)), Some s)) /\
     (Forall not_a_kind (is_a s) ->
      has_underscore (shape_name s) = false \/
      is_known_kind (before_underscore (shape_name s)) = false ->
      shape_for_problem problem
      = (match is_a s with
         | first :: _ => class_name first
         | [] => None
         end, Some s))).
Proof.
  unfold shape_for_problem. split.
  - intros [-> | ->]; reflexivity.
  - intros s rest ->. split; [|split].
    + intros pre c post k -> Hpre Hc Hk.
      now rewrite (first_known_class_found pre post c k).
    + intros Hnone Hu Hk. rewrite (first_known_class_none _ Hnone).
      unfold name_hint. rewrite Hu, Hk.
      destruct (shape_name s); [discriminate | reflexivity].
    + intros Hnone Hno. rewrite (first_known_class_none _ Hnone).
      unfold name_hint, first_class_name.
      destruct Hno as [-> | ->]; [now rewrite andb_false_r|].
      now destruct (_ && _).
Qed.

Lemma shape_for_problem_chain_witness :
  shape_for_problem generic_triangle
  = (Some "Triangle"%string,
     Some {| shape_name := "Triangle_Instance_P";
             is_a := [ {| class_name := Some "Shape"%string |} ] |}).
Proof.
  refine (proj1 (proj2 (proj2 (shape_for_problem_chain generic_triangle)
                          _ [] eq_refl)) _ eq_refl eq_refl).
  repeat constructor. intros k [= <-]. reflexivity.
Defined.

(** *** Dimension collection *)

(** C9, as stated, fails: the entry of a Dimension that has no value holds
    [None], which is no string. *)
Lemma dims_value_not_a_string :
  ~ Forall (fun e : dim => exists s, snd e = Some s)
      (dims_for_problem problem_without_value).
Proof.
  intros H. apply Forall_inv in H. destruct H as [s H]. discriminate H.
Qed.

Lemma collect_dims_values (ds : list Dimension) :
  forall acc, exists k,
    map snd (collect_dims ds acc)
    = (map snd acc ++ map entry_value (take k ds))%list.
Proof.
  induction ds as [|d ds IH]; intros acc; simpl.
  - exists 0%nat. now rewrite app_nil_r.
  - destruct (entry_name d) as [name|].
    + destruct (IH (acc ++ [(name, entry_value d)])%list) as [k Hk].
      exists (S k). rewrite Hk, map_app. simpl. now rewrite <- app_assoc.
    + exists 0%nat. simpl. now rewrite app_nil_r.
Qed.

(** C9, amended.  Every value of the sequence is [None] or a string, and
    which it is follows the Dimension: [None] when the Dimension has no
    [dimensionValue], or [None] for it, or a list that begins with [None];
    the string [str(v)] of the held value [v] otherwise (of the first
    element of a list; of the empty list when the list is empty).  The
    sequence is made of the values of the first Dimension individuals of
    the source in use, in order, or of the one inlined value. *)
Theorem dims_values_none_or_str (problem : Problem) :
  (forall d : Dimension,
     entry_value d
     = match dimensionValue d with
       | None | Some (PScalar PyNone) | Some (PList (PyNone :: _)) => None
       | Some (PList []) => Some "[]"%string
       | Some (PScalar v) | Some (PList (v :: _)) => Some (str v)
       end) /\
  (forall d ds, hasProblemDimension problem = Some (d :: ds) ->
     exists k, map snd (dims_for_problem problem)
               = map entry_value (take k (d :: ds))) /\
  (forall d ds, nonempty (hasProblemDimension problem) = false ->
     hasDimension problem = Some (d :: ds) ->
     exists k, map snd (dims_for_problem problem)
               = map entry_value (take k (d :: ds))) /\
  (nonempty (hasProblemDimension problem) = false ->
   nonempty (hasDimension problem) = false ->
   forall e, In e (dims_for_problem problem) ->
     snd e = match inlineDimensionValue problem with
             | Some (PScalar PyNone) | Some (PList (PyNone :: _)) => None
             | Some (PScalar v) | Some (PList (v :: _)) => Some (str v)
             | _ => None
             end).
Proof.
  split; [|split; [|split]].
  - intros d. unfold entry_value.
    destruct (dimensionValue d) as [[[] | [|[] l]]|]; reflexivity.
  - intros d ds H. unfold dims_for_problem. rewrite H. simpl nonempty.
    cbv iota. simpl default. apply (collect_dims_values (d :: ds) []).
  - intros d ds Hn H. unfold dims_for_problem. rewrite Hn, H. simpl nonempty.
    cbv iota. simpl default. apply (collect_dims_values (d :: ds) []).
  - intros Hn1 Hn2 e. unfold dims_for_problem. rewrite Hn1, Hn2.
    unfold inline_dims. destruct (attr_truthy _); [|intros []].
    intros [<- | []]. simpl.
    destruct (inlineDimensionValue problem) as [[[] | [|[] l]]|]; reflexivity.
Qed.

Lemma dims_values_none_or_str_witness :
  exists k, map snd (dims_for_problem circle_radius_2)
            = map entry_value (take k [dimension "radius" (PyFloat 2)]).
Proof.
  exact (proj1 (proj2 (dims_values_none_or_str circle_radius_2)) _ _ eq_refl).
Defined.

End AnswerProps.

(** ** Grading *)

Module GradingProps.
Import PyNum Py Onto Binary64 FloatFacts.
#[local] Open Scope float_scope.

(** Python's [max(t, r)] under a comparison: [d <= max(t, r)] exactly when
    [d <= t] or [d <= r], provided [t] is a number. *)
Lemma leb_max_float (d t r : float) :
  Prim2SF t <> S754_nan ->
  (PrimFloat.leb d (max_float t r) = true
   <-> PrimFloat.leb d t = true \/ PrimFloat.leb d r = true).
Proof.
  intros Ht. unfold max_float. rewrite FloatAxioms.ltb_spec.
  pose proof (SFleb_max (Prim2SF d) (Prim2SF t) (Prim2SF r) Ht) as H.
  destruct (SFltb (Prim2SF t) (Prim2SF r)); rewrite !FloatAxioms.leb_spec; exact H.
Qed.

(** C2. When both inputs coerce to numbers [x] and [y], [approx_equal]
    returns true if and only if [|x - y| <= max(0.05, 0.02 * |y|)], the
    maximum being the greater of the two bounds, so that the test holds
    exactly when [|x - y|] is within one of them; when either input fails
    the coercion the result is a definite [false], and nothing is raised
    (the function is total). *)
Theorem approx_equal_spec (a b : pyval) :
  (forall x y, to_float a = Some x -> to_float b = Some y ->
     (approx_equal a b = true
      <-> PrimFloat.leb (abs (x - y)) (max_float 0.05 (0.02 * abs y)) = true) /\
     (approx_equal a b = true
      <-> PrimFloat.leb (abs (x - y)) 0.05 = true \/
          PrimFloat.leb (abs (x - y)) (0.02 * abs y) = true)) /\
  (to_float a = None \/ to_float b = None -> approx_equal a b = false).
Proof.
  unfold approx_equal, approx_equal_tol. split.
  - intros x y -> ->. split; [reflexivity|].
    apply leb_max_float. discriminate.
  - intros [-> | ->]; [reflexivity|]. now destruct (to_float a).
Qed.

Lemma approx_equal_spec_witness :
  approx_equal (PyStr "10.1") (PyInt 10) = true
  <-> PrimFloat.leb (abs (10.1 - 10)) 0.05 = true \/
      PrimFloat.leb (abs (10.1 - 10)) (0.02 * abs 10) = true.
Proof.
  exact (proj2 (proj1 (approx_equal_spec (PyStr "10.1") (PyInt 10))
                  10.1 10 eq_refl eq_refl)).
Defined.

(** C10, as stated, fails: 10.3 is not within tolerance of 10.0. *)
Lemma approx_equal_10_3_not_true :
  ~ (approx_equal (PyFloat 10.3) (PyFloat 10.0) = true /\
     approx_equal (PyFloat 10.1) (PyFloat 10.0) = true).
Proof. intros [H _]. vm_compute in H. discriminate H. Qed.

(** C10, amended.  [approx_equal(10.3, 10.0)] is false: the difference,
    0.3000000000000007, is above the tolerance [max(0.05, 0.02 * 10.0)],
    which is 0.2; and [approx_equal(10.1, 10.0)] is true, the difference
    0.09999999999999964 being below it. *)
Theorem approx_equal_examples :
  approx_equal (PyFloat 10.3) (PyFloat 10.0) = false /\
  approx_equal (PyFloat 10.1) (PyFloat 10.0) = true /\
  abs (10.3 - 10.0) = 0.30000000000000071 /\
  abs (10.1 - 10.0) = 0.099999999999999645 /\
  max_float 0.05 (0.02 * abs 10.0) = 0.2.
Proof. repeat split; vm_compute; reflexivity. Qed.

End GradingProps.

(** ** The submission handler *)

Module SubmitProps.
Import PyNum Py Onto Submit Spec Examples MasteryFacts.
#[local] Open Scope float_scope.

(** What the [try] block leaves behind.  The Student of the submission is
    the only one changed; it has the Attempt appended and the score set,
    and the mastery level set as well unless computing it raised. *)
Lemma record_attempt_spec (name : string) (prob : Problem) (nm ts : string)
    (a c : float) (ic : bool) (st : Store) :
  let s0 := student_before st nm in
  let s1 := append_attempt s0 (make_attempt (schema st) s0 prob ts a ic) in
  let score := if ic then (current_score s1 + 1)%Z else current_score s1 in
  let s2 := set_score s1 score in
  let '(r, st') := record_attempt name prob nm ts a c ic st in
  schema st' = schema st /\
  match masteryLevel s2, mastery_of score (count_attempts s1) with
  | Some _, None => r = Raise /\ students st' = <[nm := s2]> (students st)
  | Some _, Some m =>
      r = Ok tt /\ students st' = <[nm := set_mastery s2 m]> (students st)
  | None, _ => r = Ok tt /\ students st' = <[nm := s2]> (students st)
  end.
Proof.
  unfold record_attempt, update_mastery, store_correct_answer, student_before.
  unfold mbind, M_bind, mret, M_ret, bind, ret, get_store, put_student,
    put_problem, log_attempt, lift.
  destruct (students st !! nm) as [s|] eqn:Hs; simpl.
  all: repeat case_match; simplify_eq/=; rewrite ?insert_insert_eq; auto.
Qed.


(** A submission is graded when its Problem is found, its answer reads as a
    number, there is a value to grade against, the two classes exist and the
    [try] block does not raise. *)
Lemma problem_submit_graded (name : string) (req : Request) (st st' : Store)
    (ic : bool) (a c : float) :
  problem_submit name req st = (Graded ic a c, st') ->
  exists prob,
    problems st !! name = Some prob /\
    float_of_value (form_answer req) = Some a /\
    correct_value prob = Some c /\
    ic = approx_equal (PyFloat a) (PyFloat c) /\
    record_attempt name prob (submitter req) (timestamp req) a c ic st
    = (Ok tt, st').
Proof.
  unfold problem_submit. intros H.
  destruct (problems st !! name) as [prob|] eqn:Hp; [|discriminate].
  destruct (float_of_value (form_answer req)) as [a'|] eqn:Ha; [|discriminate].
  destruct (correct_value prob) as [c'|] eqn:Hc; [|discriminate].
  destruct (has_Student (schema st) && has_Attempt (schema st)); [|discriminate].
  destruct (record_attempt _ _ _ _ _ _ _ _) as [[[]|] st''] eqn:E;
    [|discriminate].
  injection H as <- <- <- <-. exists prob. repeat split; auto.
Qed.

(** *** The mastery update *)

(** Taking the mastery level raises only when a count is too large for a
    float: the divisor is [float(max(1, n))], which is not zero. *)
Lemma mastery_of_defined (score n : Z) (x y : float) :
  float_of_int score = Some x -> float_of_int (Z.max 1 n) = Some y ->
  PrimFloat.eqb y 0 = false /\ mastery_of score n = Some (x / y).
Proof.
  intros Hx Hy. unfold mastery_of, float_div. rewrite Hx, Hy.
  assert (H0 : PrimFloat.eqb y 0 = false)
    by (apply (float_of_int_nonzero (Z.max 1 n)); [lia | exact Hy]).
  now rewrite H0.
Qed.

Lemma mastery_of_inv (score n : Z) (m : float) :
  mastery_of score n = Some m ->
  exists x y,
    float_of_int score = Some x /\ float_of_int (Z.max 1 n) = Some y /\
    PrimFloat.eqb y 0 = false /\ m = (x / y).
Proof.
  unfold mastery_of. intros H.
  destruct (float_of_int score) as [x|] eqn:Hx; [|discriminate].
  destruct (float_of_int (Z.max 1 n)) as [y|] eqn:Hy; [|discriminate].
  destruct (mastery_of_defined score n x y Hx Hy) as [H0 _].
  unfold float_div in H. rewrite H0 in H. injection H as <-.
  exists x, y. auto.
Qed.

(** C5. On every graded attempt the correct-count of the Student goes up
    by one exactly when the attempt is graded correct, the attempt is
    appended, and the mastery level is set to the correct-count divided by
    [max(1, n)], with [n] the number of attempts after the append.  The
    division never divides by zero.  After three attempts, two of them
    correct, the mastery level is 2/3. *)
Theorem mastery_update_on_graded_attempt :
  (forall name req st st' ic a c,
     problem_submit name req st = (Graded ic a c, st') ->
     ic = approx_equal (PyFloat a) (PyFloat c) /\
     mastery_updated st (submitter req) ic st') /\
  (forall score n x y,
     float_of_int score = Some x -> float_of_int (Z.max 1 n) = Some y ->
     PrimFloat.eqb y 0 = false /\ mastery_of score n = Some (x / y)) /\
  mastery_of 2 3 = Some (2 / 3) /\
  graded_by "bob" three_attempts circle_store = [true; false; true] /\
  (exists s, students (submit_all three_attempts circle_store) !! "bob"%string
             = Some s /\
             studentScore s = Some [2%Z] /\ masteryLevel s = Some [2 / 3]).
Proof.
  split; [|split; [exact mastery_of_defined|]].
  - intros name req st st' ic a c H.
    destruct (problem_submit_graded _ _ _ _ _ _ _ H)
      as (prob & _ & _ & _ & Hic & E).
    split; [exact Hic|].
    pose proof (record_attempt_spec name prob (submitter req) (timestamp req)
                  a c ic st) as S.
    cbv zeta in S. rewrite E in S. destruct S as [_ S].
    unfold mastery_updated.
    set (s0 := student_before st (submitter req)) in *.
    set (att := make_attempt (schema st) s0 prob (timestamp req) a ic) in *.
    set (s1 := append_attempt s0 att) in *.
    change (current_score s1) with (current_score s0) in S.
    set (score := if ic then (current_score s0 + 1)%Z else current_score s0) in *.
    change (masteryLevel (set_score s1 score)) with (masteryLevel s0) in S.
    destruct (masteryLevel s0) as [old|] eqn:Hm.
    + destruct (mastery_of score (count_attempts s1)) as [m|] eqn:Hmo;
        destruct S as [S1 S2]; [|discriminate].
      exists (set_mastery (set_score s1 score) m).
      rewrite S2, lookup_insert_eq. split; [reflexivity|].
      split; [reflexivity|]. split.
      * intros l Hl. exists att. simpl. now rewrite Hl.
      * intros old' _.
        destruct (mastery_of_inv _ _ _ Hmo) as (x & y & Hx & Hy & H0 & ->).
        exists x, y. simpl. rewrite Hm. auto.
    + destruct S as [_ S2]. exists (set_score s1 score).
      rewrite S2, lookup_insert_eq. split; [reflexivity|].
      split; [reflexivity|]. split.
      * intros l Hl. exists att. simpl. now rewrite Hl.
      * intros old'. simpl. rewrite Hm. discriminate.
  - split; [vm_compute; reflexivity|]. split; [vm_compute; reflexivity|].
    eexists. split; [vm_compute; reflexivity|]. split; reflexivity.
Qed.

Lemma mastery_update_on_graded_attempt_witness :
  mastery_updated circle_store "bob" true
    (snd (problem_submit "P1" (submission " bob " "12.5") circle_store)).
Proof.
  refine (proj2 (proj1 mastery_update_on_graded_attempt
            "P1"%string (submission " bob " "12.5") circle_store _
            true 12.5 12.566370614359172 _)).
  vm_compute. reflexivity.
Defined.


(** *** Grading against the stored answer *)

(** A submission is graded when its Problem is found, its answer reads as
    a number, there is a value to grade against, the two classes exist, and
    the score and the number of attempts of the Students are in the range
    [float] converts. *)
Lemma problem_submit_grades (name : string) (req : Request)
    (st : Store) (prob : Problem) (a c : float) :
  problems st !! name = Some prob ->
  float_of_value (form_answer req) = Some a ->
  correct_value prob = Some c ->
  has_Student (schema st) && has_Attempt (schema st) = true ->
  in_float_range st ->
  exists st',
    problem_submit name req st
    = (Graded (approx_equal (PyFloat a) (PyFloat c)) a c, st').
Proof.
  intros Hp Ha Hc Hcl Hcount. unfold problem_submit.
  rewrite Hp, Ha, Hc, Hcl.
  set (ic := approx_equal (PyFloat a) (PyFloat c)).
  pose proof (record_attempt_spec name prob (submitter req) (timestamp req)
                a c ic st) as S.
  cbv zeta in S.
  set (s0 := student_before st (submitter req)) in *.
  set (att := make_attempt (schema st) s0 prob (timestamp req) a ic) in *.
  set (s1 := append_attempt s0 att) in *.
  change (current_score s1) with (current_score s0) in S.
  set (score := if ic then (current_score s0 + 1)%Z else current_score s0) in *.
  assert (Hb : (0 <= current_score s0 < 2 ^ 1023 - 1)%Z
               /\ (count_attempts s0 < 2 ^ 1023 - 1)%Z).
  { unfold s0, student_before.
    destruct (students st !! submitter req) as [s|] eqn:Hs;
      [exact (Hcount _ _ Hs)|].
    unfold current_score, count_attempts, init_student, new_student. simpl.
    destruct (decl_studentScore (schema st)), (decl_attempts (schema st));
      simpl; lia. }
  destruct Hb as [Hscore Hcnt].
  assert (Hn : (0 <= count_attempts s1 <= count_attempts s0 + 1)%Z).
  { unfold count_attempts, s1. simpl. destruct (attempts s0) as [l|]; simpl.
    - rewrite length_app. simpl. lia.
    - lia. }
  assert (Hx : float_of_int score <> None)
    by (apply float_of_int_below; unfold score; destruct ic; lia).
  assert (Hy : float_of_int (Z.max 1 (count_attempts s1)) <> None)
    by (apply float_of_int_below; lia).
  destruct (float_of_int score) as [x|] eqn:Ex; [|congruence].
  destruct (float_of_int (Z.max 1 (count_attempts s1))) as [y|] eqn:Ey;
    [|congruence].
  destruct (mastery_of_defined score (count_attempts s1) x y Ex Ey) as [_ Hm].
  rewrite Hm in S.
  destruct (record_attempt _ _ _ _ _ _ _ _) as [r st'].
  destruct S as [_ S]. exists st'.
  destruct (masteryLevel _) in S; destruct S as [-> _]; reflexivity.
Qed.

(** The posted form of a found Problem with its [student] field is the
    request the handler goes on with. *)
Lemma problem_submit_posted_found (name : string) (form : Posted) (st : Store)
    (prob : Problem) (student : string) :
  problems st !! name = Some prob ->
  posted_student form = Some student ->
  problem_submit_posted name form st
  = (Some (fst (problem_submit name (request_of student form) st)),
     snd (problem_submit name (request_of student form) st)).
Proof.
  intros Hp Hs. unfold problem_submit_posted. rewrite Hp, Hs.
  now destruct (problem_submit _ _ _).
Qed.

Lemma stored_answer_absent (prob : Problem) :
  stored_answer prob = None <->
  attr_truthy (correctAnswer prob) = false \/
  exists v, (correctAnswer prob = Some (PScalar v) \/
             exists l, correctAnswer prob = Some (PList (v :: l))) /\
            to_float v = None.
Proof.
  unfold stored_answer.
  destruct (attr_truthy (correctAnswer prob)) eqn:Et.
  - destruct (correctAnswer prob) as [[v|[|v l]]|]; try discriminate Et.
    + split; [intros H; right; exists v; eauto|].
      intros [H|(v' & [[= <-] | (l & [=])] & H')]; [discriminate | exact H'].
    + split; [intros H; right; exists v; eauto|].
      intros [H|(v' & [[=] | (l' & [= <- <-])] & H')]; [discriminate | exact H'].
  - split; auto.
Qed.

(** C7. When [compute_answer] is indeterminate the handler falls back to
    the stored [correctAnswer].  With a stored value that reads as a number
    [c], the submission is graded against [c]: in an ontology with the
    Student and the Attempt class the outcome is [Graded], with the verdict
    [approx_equal] gives for the answer and [c] (the update of the Student
    not failing while the scores and the numbers of attempts are in the
    range of [float]); without one of the classes the outcome is
    [ClassNotFound] and nothing is changed.  With the stored value absent
    (no property, [None], an empty list, zero) or unreadable, grading does
    not proceed: the outcome is the distinct [CannotGrade], not a grade, and
    the store is unchanged.  (The form is one with the [student] field; on a
    form without it the handler raises before it reads the answer.) *)
Theorem grading_falls_back_to_stored (name : string) (form : Posted)
    (st : Store) (prob : Problem) (student : string) (answer : float) :
  problems st !! name = Some prob ->
  posted_student form = Some student ->
  float_of_value (posted_answer form) = Some answer ->
  compute_answer prob = None ->
  (forall c, stored_answer prob = Some c ->
     (has_Student (schema st) && has_Attempt (schema st) = true ->
      in_float_range st ->
      exists st',
        problem_submit_posted name form st
        = (Some (Graded (approx_equal (PyFloat answer) (PyFloat c)) answer c),
           st')) /\
     (has_Student (schema st) && has_Attempt (schema st) = false ->
      problem_submit_posted name form st = (Some ClassNotFound, st))) /\
  (stored_answer prob = None ->
     problem_submit_posted name form st = (Some CannotGrade, st)) /\
  (stored_answer prob = None <->
     attr_truthy (correctAnswer prob) = false \/
     exists v, (correctAnswer prob = Some (PScalar v) \/
                exists l, correctAnswer prob = Some (PList (v :: l))) /\
               to_float v = None).
Proof.
  intros Hp Hs Ha Hc.
  rewrite (problem_submit_posted_found name form st prob student Hp Hs).
  split; [|split; [|apply stored_answer_absent]].
  - intros c Hst.
    assert (Hcv : correct_value prob = Some c)
      by (unfold correct_value; now rewrite Hc).
    split.
    + intros Hcl Hcount.
      destruct (problem_submit_grades name (request_of student form) st prob
                  answer c Hp Ha Hcv Hcl Hcount) as [st' E].
      exists st'. now rewrite E.
    + intros Hcl. unfold problem_submit.
      rewrite Hp. cbn [request_of form_answer]. now rewrite Ha, Hcv, Hcl.
  - intros Hst. unfold problem_submit, correct_value.
    rewrite Hp. cbn [request_of form_answer]. now rewrite Ha, Hc, Hst.
Qed.

Lemma grading_falls_back_to_stored_witness :
  exists st',
    problem_submit_posted "P" (posted "ann" "4")
      (store_of full_schema (bare_problem (Some (PList [PyFloat 4]))))
    = (Some (Graded true 4 4), st').
Proof.
  refine (proj1 (proj1 (grading_falls_back_to_stored "P" (posted "ann" "4")
            (store_of full_schema (bare_problem (Some (PList [PyFloat 4]))))
            (bare_problem (Some (PList [PyFloat 4]))) "ann" 4
            _ eq_refl eq_refl eq_refl) 4 eq_refl) eq_refl _).
  - reflexivity.
  - intros nm s H. discriminate H.
Defined.

(** *** Mastery after a sequence of attempts *)







(** A Student whose score is above the number of its attempts keeps a
    mastery level above one. *)
Lemma mastery_above_one_from_records :
  ~ consistent {| student_name := "bob"; studentScore := Some [5%Z];
                  masteryLevel := Some [0]; attempts := Some [] |} /\
  exists s m,
    students (post_all [("P1"%string, posted "bob" "12.5")] store_with_score_5)
      !! "bob"%string = Some s /\
    masteryLevel s = Some [m] /\ m = 6 /\ PrimFloat.leb m 1 = false.
Proof.
  split.
  - intros (l & Hl & _ & Hsc & _). injection Hl as <-.
    unfold current_score in Hsc. simpl in Hsc. lia.
  - eexists _, _. split; [vm_compute; reflexivity|].
    split; [reflexivity|]. split; reflexivity.
Qed.




End SubmitProps.

(** * Further properties of the code *)

(** ** Further properties of the answer engine *)

Module EngineProps.
Import PyNum Py Onto Spec Examples Notions.
#[local] Open Scope float_scope.

Lemma search_by_name_first (pre post : list dim) (n : pyval)
    (v : option string) (targets : list string) :
  Forall (fun e => name_matches targets (fst e) = false) pre ->
  name_matches targets n = true ->
  search_by_name targets (pre ++ (n, v) :: post) = Some (float_of_value v).
Proof.
  intros Hpre Hn. induction Hpre as [|[n' v'] pre Hn' _ IH]; simpl.
  - now rewrite Hn.
  - simpl in Hn'. now rewrite Hn'.
Qed.

(** X1. The first entry whose name matches decides the lookup of
    [get_val]: the result is that entry's value read as a number, and
    nothing when the entry has no value or one that does not read as a
    number.  The entries after it, of the same name or not, are not
    consulted, nor is the single-entry fallback. *)
Theorem get_val_first_match (pre post : list dim) (n : pyval)
    (v : option string) (names : list string) :
  Forall (fun e => name_matches (map lower names) (fst e) = false) pre ->
  name_matches (map lower names) n = true ->
  get_val (pre ++ (n, v) :: post) names = float_of_value v /\
  (v = None \/ (exists s, v = Some s /\ float_of_string s = None) ->
   get_val (pre ++ (n, v) :: post) names = None).
Proof.
  intros Hpre Hn. unfold get_val.
  rewrite (search_by_name_first pre post n v _ Hpre Hn).
  split; [reflexivity|].
  intros [-> | (s & -> & Hs)]; [reflexivity | exact Hs].
Qed.

Lemma get_val_first_match_witness :
  get_val [(PyStr "Radius", Some "two"); (PyStr "radius", Some "2")]
    ["radius"; "r"] = None.
Proof.
  apply (proj2 (get_val_first_match [] [(PyStr "radius", Some "2"%string)]
                  (PyStr "Radius") (Some "two"%string) ["radius"; "r"]%string
                  (List.Forall_nil _) eq_refl)).
  right. exists "two"%string. split; reflexivity.
Defined.

Lemma get_val_single (n : pyval) (v : option string) (names : list string) :
  get_val [(n, v)] names = float_of_value v.
Proof.
  unfold get_val. simpl. now destruct (name_matches _ n).
Qed.

(** X2. With exactly one entry in the dimension sequence every lookup of
    [get_val] returns that entry's value, whatever names are asked for and
    whatever the entry is called.  So a Problem with a single dimension gets
    the closed form of its kind with that one number in every place: [pi * x
    * x] for a Circle, [x * x] for a Square and for a Rectangle, [0.5 * x *
    x] for a Triangle; and no answer when the value does not read as a
    number or the kind is not one of the four. *)
Theorem single_entry_answer (problem : Problem) (n : pyval)
    (v : option string) :
  dims_for_problem problem = [(n, v)] ->
  (forall names, get_val (dims_for_problem problem) names = float_of_value v) /\
  compute_answer problem
  = match fst (shape_for_problem problem), float_of_value v with
    | Some kind, Some x => answer_of_one kind x
    | _, _ => None
    end.
Proof.
  intros Hd. split.
  - intros names. rewrite Hd. apply get_val_single.
  - unfold compute_answer, answer_for, rectangle_answer, answer_of_one.
    rewrite Hd, !get_val_single.
    destruct (fst (shape_for_problem problem)) as [kind|]; [|reflexivity].
    destruct (float_of_value v) as [x|]; simpl.
    + reflexivity.
    + destruct v; repeat (destruct (String.eqb kind _); [reflexivity|]);
        reflexivity.
Qed.

Lemma single_entry_answer_witness :
  compute_answer (problem_of "S1" "Square" [dimension "edge" (PyFloat 3)])
  = Some 9.
Proof.
  exact (proj2 (single_entry_answer
                  (problem_of "S1" "Square" [dimension "edge" (PyFloat 3)])
                  (PyStr "edge") (Some "3.0"%string) eq_refl)).
Defined.

Lemma get_val_nil (names : list string) : get_val [] names = None.
Proof. reflexivity. Qed.

(** X3. [compute_answer] gives an answer only for a Problem whose shape
    resolves to one of the four kinds and whose dimension sequence is not
    empty: for no shape, for any other kind and for a Problem without
    dimensions the result is [None]. *)
Theorem compute_answer_needs (problem : Problem) (c : float) :
  compute_answer problem = Some c ->
  (exists kind, fst (shape_for_problem problem) = Some kind /\
                is_known_kind kind = true) /\
  dims_for_problem problem <> [].
Proof.
  unfold compute_answer, answer_for. intros H.
  destruct (fst (shape_for_problem problem)) as [kind|]; [|discriminate].
  split.
  - exists kind. split; [reflexivity|].
    unfold is_known_kind, known_kinds. cbn [existsb].
    destruct (String.eqb kind "Circle"); [reflexivity|].
    destruct (String.eqb kind "Square"); [reflexivity|].
    destruct (String.eqb kind "Rectangle"); [reflexivity|].
    destruct (String.eqb kind "Triangle"); [reflexivity|discriminate].
  - intros Hnil. rewrite Hnil in H. unfold rectangle_answer in H.
    rewrite !get_val_nil in H. simpl in H.
    repeat (destruct (String.eqb kind _); [discriminate|]). discriminate.
Qed.

Lemma compute_answer_needs_witness :
  (exists kind, fst (shape_for_problem circle_radius_2) = Some kind /\
                is_known_kind kind = true) /\
  dims_for_problem circle_radius_2 <> [].
Proof.
  apply (compute_answer_needs circle_radius_2 (4 * pi)). reflexivity.
Defined.

(** *** Letter case *)

Lemma lower_nil (s : string) : lower s = ""%string -> s = ""%string.
Proof. destruct s; [reflexivity | discriminate]. Qed.

Lemma name_matches_case (targets : list string) (s s' : string) :
  lower s = lower s' ->
  name_matches targets (PyStr s) = name_matches targets (PyStr s').
Proof.
  intros H. unfold name_matches. simpl. rewrite H. f_equal. f_equal.
  destruct (String.eqb_spec s ""), (String.eqb_spec s' ""); try reflexivity.
  - subst s. symmetry in H. apply lower_nil in H. contradiction.
  - subst s'. apply lower_nil in H. contradiction.
Qed.

Lemma search_by_name_case (targets : list string) (dims dims' : list dim) :
  Forall2 same_up_to_case dims dims' ->
  search_by_name targets dims = search_by_name targets dims'.
Proof.
  induction 1 as [|[n v] [n' v'] dims dims' (Hv & s & s' & Hn & Hn' & Hs) _ IH];
    [reflexivity|].
  simpl in *. subst. rewrite (name_matches_case targets s s' Hs), IH.
  reflexivity.
Qed.

Lemma get_val_case (dims dims' : list dim) (names : list string) :
  Forall2 same_up_to_case dims dims' ->
  get_val dims names = get_val dims' names.
Proof.
  intros H. unfold get_val. rewrite (search_by_name_case _ _ _ H).
  destruct (search_by_name _ dims'); [reflexivity|].
  destruct H as [|[n v] [n' v'] dims dims' (Hv & _) H]; [reflexivity|].
  simpl in Hv. subst. now destruct H.
Qed.

(** X4. The answer does not depend on the case of the letters in the
    dimension names: two dimension sequences with the same values in the
    same order, under names that are equal once written in lower case, get
    the same result from every lookup and the same answer for every kind. *)
Theorem answer_ignores_case (dims dims' : list dim) :
  Forall2 same_up_to_case dims dims' ->
  (forall names, get_val dims names = get_val dims' names) /\
  (forall kind, answer_for kind dims = answer_for kind dims').
Proof.
  intros H. split; [intros names; now apply get_val_case|].
  intros [kind|]; [|reflexivity]. unfold answer_for, rectangle_answer.
  rewrite !(get_val_case dims dims') by exact H.
  assert (Hpos : forall l w : option float,
            match dims with
            | (_, Some v0) :: (_, Some v1) :: _ =>
                match float_of_string v0 with
                | None => None
                | Some l' =>
                    match float_of_string v1 with
                    | None => None
                    | Some w' => Some (Some l', Some w')
                    end
                end
            | _ => Some (l, w)
            end
            = match dims' with
              | (_, Some v0) :: (_, Some v1) :: _ =>
                  match float_of_string v0 with
                  | None => None
                  | Some l' =>
                      match float_of_string v1 with
                      | None => None
                      | Some w' => Some (Some l', Some w')
                      end
                  end
              | _ => Some (l, w)
              end).
  { intros l w.
    destruct H as [|[n0 v0] [n0' v0'] dims dims' (Hv0 & _) H]; [reflexivity|].
    simpl in Hv0. subst v0'.
    destruct H as [|[n1 v1] [n1' v1'] dims dims' (Hv1 & _) H]; [reflexivity|].
    simpl in Hv1. subst v1'. reflexivity. }
  rewrite Hpos. reflexivity.
Qed.

Lemma answer_ignores_case_witness :
  answer_for (Some "Circle"%string) [(PyStr "RADIUS", Some "2"%string)]
  = answer_for (Some "Circle"%string) [(PyStr "radius", Some "2"%string)].
Proof.
  apply (proj2 (answer_ignores_case [(PyStr "RADIUS", Some "2"%string)]
                  [(PyStr "radius", Some "2"%string)]
                  ltac:(repeat constructor;
                        exists "RADIUS"%string, "radius"%string;
                        repeat split))).
Defined.

(** *** The dimension sequence *)

Lemma collect_dims_entries (ds : list Dimension) :
  forall acc,
    Forall (fun d => entry_name d <> None) ds ->
    collect_dims ds acc = (acc ++ map entry ds)%list.
Proof.
  induction ds as [|d ds IH]; intros acc H; simpl.
  - now rewrite app_nil_r.
  - inversion H as [|? ? Hd Hds]; subst. unfold entry at 1.
    destruct (entry_name d) as [name|]; [|congruence].
    rewrite IH by assumption. simpl. now rewrite <- app_assoc.
Qed.

Lemma collect_dims_stops (pre post : list Dimension) (d : Dimension) :
  forall acc,
    Forall (fun d => entry_name d <> None) pre ->
    entry_name d = None ->
    collect_dims (pre ++ d :: post) acc = (acc ++ map entry pre)%list.
Proof.
  induction pre as [|d' pre IH]; intros acc H Hd; simpl.
  - rewrite Hd. now rewrite app_nil_r.
  - inversion H as [|? ? Hd' Hpre]; subst. unfold entry at 1.
    destruct (entry_name d') as [name|]; [|congruence].
    rewrite IH by assumption. simpl. now rewrite <- app_assoc.
Qed.

Lemma dims_for_problem_source (problem : Problem) :
  dimension_source problem <> [] ->
  dims_for_problem problem = collect_dims (dimension_source problem) [].
Proof.
  unfold dims_for_problem, dimension_source.
  destruct (nonempty (hasProblemDimension problem)); [reflexivity|].
  destruct (hasDimension problem) as [[|d ds]|]; simpl; congruence.
Qed.

(** X5. [dims_for_problem] reads one source of Dimension individuals:
    [hasProblemDimension] when it is not empty, [hasDimension] otherwise;
    the two are never merged.  When every name of the source can be read the
    sequence has one entry for each Dimension, in order: its name (the empty
    string for a Dimension without one) and its value.  The first Dimension
    whose name cannot be read (a name that is a single truthy value and no
    string) ends the sequence: the entries before it are returned, and it
    and the Dimensions after it are dropped. *)
Theorem dims_for_problem_entries (problem : Problem) :
  dimension_source problem <> [] ->
  (Forall (fun d => entry_name d <> None) (dimension_source problem) ->
   dims_for_problem problem = map entry (dimension_source problem)) /\
  (forall pre d post,
     dimension_source problem = (pre ++ d :: post)%list ->
     Forall (fun d => entry_name d <> None) pre ->
     entry_name d = None ->
     dims_for_problem problem = map entry pre) /\
  (forall d, entry_name d = None <->
     exists v, dimensionName d = Some (PScalar v) /\ truthy v = true /\
               forall s, v <> PyStr s).
Proof.
  intros Hne. rewrite (dims_for_problem_source problem Hne).
  split; [|split].
  - intros H. now rewrite collect_dims_entries.
  - intros pre d post -> Hpre Hd. now rewrite collect_dims_stops.
  - intros d. unfold entry_name, attr_truthy, prop_truthy.
    destruct (dimensionName d) as [[v|[|v l]]|]; simpl.
    + destruct (truthy v) eqn:Ht.
      * destruct v as [| | | |[|c s]]; simpl in *; try discriminate; split;
          try discriminate; try (intros _; eexists; repeat split; eauto;
                                 intros; discriminate).
        intros (v & [= <-] & _ & H). now destruct (H (String c s)).
      * split; [discriminate|]. intros (v' & [= <-] & H & _). congruence.
    + split; [discriminate|]. intros (v & [=] & _).
    + split; [discriminate|]. intros (v' & [=] & _).
    + split; [discriminate|]. intros (v & [=] & _).
Qed.

Lemma dims_for_problem_entries_witness :
  dims_for_problem rectangle_unnamed_5_6
  = [(PyStr "dim1", Some "5.0"%string); (PyStr "dim2", Some "6.0"%string)].
Proof.
  apply (proj1 (dims_for_problem_entries rectangle_unnamed_5_6
                  ltac:(discriminate))).
  repeat constructor; discriminate.
Defined.



End EngineProps.

(** ** The sign of an answer *)

Module SignProps.
Import PyNum Py Onto Spec Examples Notions Binary64 FloatFacts.
#[local] Open Scope float_scope.

Lemma rounded_signed (s : bool) (z e : Z) : signed s (rounded s z e).
Proof.
  unfold rounded. destruct z; simpl; auto. now destruct (Z.leb e 971).
Qed.

(** The sign of a product is the product of the signs. *)
Lemma SFmul_signed (sx sy : bool) (x y : spec_float) :
  signed sx x -> signed sy y -> signed (xorb sx sy) (SF64mul x y).
Proof.
  destruct x as [s1|s1| |s1 m1 e1], y as [s2|s2| |s2 m2 e2]; simpl;
    try (intros -> ->; reflexivity); try (intros; exact I).
  intros -> ->.
  destruct (binary_round_aux_spec (xorb sx sy) (Z.pos (m1 * m2)%positive) (e1 + e2)%Z
              loc_Exact ltac:(lia)) as (z & _ & _ & ->).
  apply rounded_signed.
Qed.

Lemma some_sign (x : spec_float) : exists s, signed s x.
Proof. destruct x as [s|s| |s m e]; simpl; eauto. exists false. exact I. Qed.

Lemma signed_not_negative (x : float) :
  signed false (Prim2SF x) -> PrimFloat.ltb x 0 = false.
Proof.
  rewrite FloatAxioms.ltb_spec. change (Prim2SF 0) with (S754_zero false).
  destruct (Prim2SF x) as [s|s| |s m e]; simpl; try (intros ->); reflexivity.
Qed.

Lemma square_signed (r : float) : signed false (Prim2SF (r * r)).
Proof.
  rewrite FloatAxioms.mul_spec.
  destruct (some_sign (Prim2SF r)) as [s Hs].
  replace false with (xorb s s) by apply xorb_nilpotent.
  now apply SFmul_signed.
Qed.

Lemma circle_signed (r : float) : signed false (Prim2SF (pi * r * r)).
Proof.
  rewrite !FloatAxioms.mul_spec.
  destruct (some_sign (Prim2SF r)) as [s Hs].
  replace false with (xorb (xorb false s) s) by (now destruct s).
  apply SFmul_signed; [|exact Hs]. apply SFmul_signed; [reflexivity | exact Hs].
Qed.

(** X7. The answer computed for a Circle or a Square is never negative,
    whatever the sign of the radius or the side: it is not below zero (it
    may be NaN, for a value that is NaN).  The engine does not ask the
    dimensions to be positive: a Circle of radius [-2] has the answer of the
    Circle of radius 2, and a Rectangle of sides [-2] and 3 the answer
    [-6]. *)
Theorem round_answer_not_negative (problem : Problem) (c : float) :
  compute_answer problem = Some c ->
  fst (shape_for_problem problem) = Some "Circle"%string \/
  fst (shape_for_problem problem) = Some "Square"%string ->
  PrimFloat.ltb c 0 = false /\
  compute_answer (problem_of "C" "Circle" [dimension "radius" (PyFloat (-2))])
  = compute_answer circle_radius_2 /\
  compute_answer (problem_of "R" "Rectangle"
                    [dimension "length" (PyFloat (-2));
                     dimension "width" (PyFloat 3)]) = Some (-6).
Proof.
  intros H Hk. split; [|split; vm_compute; reflexivity].
  unfold compute_answer, answer_for in H.
  destruct Hk as [Hk | Hk]; rewrite Hk in H; simpl in H.
  - destruct (get_val _ _) as [r|]; [|discriminate]. injection H as <-.
    apply signed_not_negative, circle_signed.
  - destruct (get_val _ _) as [r|]; [|discriminate]. injection H as <-.
    apply signed_not_negative, square_signed.
Qed.

Lemma round_answer_not_negative_witness :
  PrimFloat.ltb (pi * -2 * -2) 0 = false.
Proof.
  apply (proj1 (round_answer_not_negative
                  (problem_of "C" "Circle" [dimension "radius" (PyFloat (-2))])
                  (pi * -2 * -2) ltac:(vm_compute; reflexivity)
                  (or_introl eq_refl))).
Defined.

End SignProps.

(** ** Further properties of the tolerance test *)

Module ToleranceProps.
Import PyNum Py Onto Spec Examples Notions Binary64 FloatFacts GradingProps.
#[local] Open Scope float_scope.

Lemma Prim2SF_abs_tol :
  Prim2SF 0.05 = S754_finite false 7205759403792794 (-57).
Proof. reflexivity. Qed.

Lemma Prim2SF_rel_tol :
  Prim2SF 0.02 = S754_finite false 5764607523034235 (-58).
Proof. reflexivity. Qed.

(** The test on the two numbers, in terms of their binary64 values. *)
Lemma approx_equal_floats (x y : float) :
  approx_equal (PyFloat x) (PyFloat y)
  = SFleb (SFabs (SF64sub (Prim2SF x) (Prim2SF y)))
      (if SFltb (Prim2SF 0.05) (SF64mul (Prim2SF 0.02) (SFabs (Prim2SF y)))
       then SF64mul (Prim2SF 0.02) (SFabs (Prim2SF y))
       else Prim2SF 0.05).
Proof.
  unfold approx_equal, approx_equal_tol, max_float. simpl to_float. cbv iota.
  rewrite FloatAxioms.ltb_spec, FloatAxioms.mul_spec, FloatAxioms.abs_spec.
  destruct (SFltb _ _);
    now rewrite FloatAxioms.leb_spec, FloatAxioms.abs_spec, FloatAxioms.sub_spec,
      ?FloatAxioms.mul_spec, ?FloatAxioms.abs_spec.
Qed.

Lemma SFsub_self (x : spec_float) :
  SFabs (SF64sub x x)
  = match x with
    | S754_zero _ | S754_finite _ _ _ => S754_zero false
    | _ => S754_nan
    end.
Proof.
  destruct x as [[]|[]| |s m e]; try reflexivity.
  unfold SF64sub, SFsub. now rewrite Z.sub_diag.
Qed.

(** X8. A number is approximately equal to itself exactly when it is
    finite: [approx_equal(x, x)] is true for every finite float [x], and
    false for the two infinities and for NaN, whose difference with
    themselves is NaN. *)
Theorem approx_equal_reflexive (x : float) :
  approx_equal (PyFloat x) (PyFloat x)
  = match classify x with
    | Number => true
    | _ => false
    end.
Proof.
  unfold classify. destruct (Prim2SF x) as [s|s| |s m e] eqn:Ex.
  - apply leb_max_float; [discriminate|]. left.
    now rewrite FloatAxioms.leb_spec, FloatAxioms.abs_spec,
      FloatAxioms.sub_spec, SFsub_self, Ex.
  - now rewrite approx_equal_floats, SFsub_self, Ex.
  - now rewrite approx_equal_floats, SFsub_self, Ex.
  - apply leb_max_float; [discriminate|]. left.
    now rewrite FloatAxioms.leb_spec, FloatAxioms.abs_spec,
      FloatAxioms.sub_spec, SFsub_self, Ex.
Qed.

(** X9. NaN on either side is approximately equal to nothing.  Against an
    infinite second argument the tolerance is infinite too: every finite
    first argument is approximately equal to it, and so is the infinity of
    the other sign; only the same infinity and NaN are not.  A Circle of
    radius 1e200 has such an answer. *)
Theorem approx_equal_not_finite (x y : float) :
  (classify x = NotANumber \/ classify y = NotANumber ->
   approx_equal (PyFloat x) (PyFloat y) = false) /\
  (forall s, classify y = Infinite s ->
     approx_equal (PyFloat x) (PyFloat y)
     = match classify x with
       | Number => true
       | Infinite s' => negb (Bool.eqb s s')
       | NotANumber => false
       end) /\
  compute_answer (problem_of "P" "Circle" [dimension "radius" (PyFloat 1e200)])
  = Some infinity.
Proof.
  rewrite approx_equal_floats, Prim2SF_abs_tol, Prim2SF_rel_tol.
  unfold classify.
  split; [|split; [|vm_compute; reflexivity]].
  - intros [H | H].
    + destruct (Prim2SF x); try discriminate H. reflexivity.
    + destruct (Prim2SF y); try discriminate H.
      destruct (Prim2SF x); reflexivity.
  - intros s H. destruct (Prim2SF y) as [|sy| |]; try discriminate H.
    injection H as <-.
    destruct (Prim2SF x) as [[]|[]| |[] ? ?], sy; reflexivity.
Qed.

Lemma approx_equal_not_finite_witness :
  approx_equal (PyFloat 3) (PyFloat infinity) = true.
Proof.
  exact (proj1 (proj2 (approx_equal_not_finite 3 infinity)) false eq_refl).
Defined.

End ToleranceProps.

(** ** Further properties of the mastery level *)

Module MasteryProps.
Import PyNum Py Onto Submit Spec Binary64 FloatFacts MasteryFacts.
#[local] Open Scope float_scope.

Lemma Prim2SF_inj (x y : float) : Prim2SF x = Prim2SF y -> x = y.
Proof.
  intros H. rewrite <- (SF2Prim_Prim2SF x), <- (SF2Prim_Prim2SF y).
  now rewrite H.
Qed.

(** X10. The mastery level is exact at both ends: a Student with as many
    correct attempts as attempts has the mastery level 1.0, and one with no
    correct attempt the level 0.0, for every number of attempts that
    [float] converts. *)
Theorem mastery_of_all_or_none (n : Z) :
  (1 <= n)%Z -> float_of_int n <> None ->
  mastery_of n n = Some 1 /\ mastery_of 0 n = Some 0.
Proof.
  intros Hn Hc. destruct n as [|p|p]; try lia.
  unfold mastery_of. replace (Z.max 1 (Z.pos p)) with (Z.pos p) by lia.
  rewrite float_of_int_zero.
  pose proof (float_of_int_rounded p) as F. cbv zeta in F.
  pose proof (int_rounded_range (Z.pos p) ltac:(lia)) as R.
  destruct (Z.leb_spec (snd (int_rounded (Z.pos p))) 971); [|congruence].
  destruct F as (y & Hy & Hs). rewrite Hy.
  assert (H0 : PrimFloat.eqb y 0 = false)
    by (apply (float_of_int_nonzero (Z.pos p)); [lia | exact Hy]).
  unfold float_div. rewrite H0. split; f_equal; apply Prim2SF_inj.
  - rewrite FloatAxioms.div_spec, Hs. unfold SF64div. now rewrite SFdiv_self.
  - now rewrite FloatAxioms.div_spec, Hs.
Qed.

Lemma mastery_of_all_or_none_witness :
  mastery_of 7 7 = Some 1 /\ mastery_of 0 7 = Some 0.
Proof.
  apply (mastery_of_all_or_none 7); [lia | vm_compute; discriminate].
Defined.

End MasteryProps.

(** ** Further properties of the submission handler *)

Module SessionProps.
Import PyNum Py Onto Submit Spec Examples Notions MasteryFacts SubmitProps.
#[local] Open Scope float_scope.

(** What the [try] block does to the Attempts and to the Problems: the new
    Attempt is recorded whether or not a later step raises, and the stored
    answer is filled in only at the end. *)
Lemma record_attempt_rest (name : string) (prob : Problem) (nm ts : string)
    (a c : float) (ic : bool) (st : Store) :
  let att := make_attempt (schema st) (student_before st nm) prob ts a ic in
  let '(r, st') := record_attempt name prob nm ts a c ic st in
  attempt_log st' = (attempt_log st ++ [att])%list /\
  match r with
  | Raise => problems st' = problems st
  | Ok _ =>
      problems st' = match correctAnswer prob with
                     | Some (PScalar PyNone) =>
                         <[name := answered prob c]> (problems st)
                     | _ => problems st
                     end
  end.
Proof.
  unfold record_attempt, update_mastery, store_correct_answer, student_before.
  unfold mbind, M_bind, mret, M_ret, bind, ret, get_store, put_student,
    put_problem, log_attempt, lift.
  destruct (students st !! nm) as [s|] eqn:Hs; simpl.
  all: repeat case_match; simplify_eq/=; auto.
Qed.

(** X11. A submission that the handler turns away leaves the ontology as
    it was: no Student is created, no Attempt recorded, no score changed.
    It is turned away for a Problem that is not found; and, for a Problem
    that is found, for an answer that does not read as a number, for a
    Problem with neither a computed nor a stored value to grade against,
    and for an ontology without the Student or the Attempt class, the
    checks being made in this order.  A form without the [student] field,
    posted to a Problem that is found, is not handled at all: the handler
    raises before it reads the answer, and nothing is changed either. *)
Theorem rejected_submission_changes_nothing (name : string) (form : Posted)
    (st : Store) :
  let '(r, st') := problem_submit_posted name form st in
  match r with
  | Some o => turned_away o = true -> st' = st
  | None => st' = st
  end /\
  (r = Some ProblemNotFound -> problems st !! name = None) /\
  (forall prob, problems st !! name = Some prob ->
     (r = None <-> posted_student form = None) /\
     (forall student, posted_student form = Some student ->
        (r = Some InvalidAnswer
         <-> float_of_value (posted_answer form) = None) /\
        (forall a, float_of_value (posted_answer form) = Some a ->
           (r = Some CannotGrade <-> correct_value prob = None) /\
           (forall c, correct_value prob = Some c ->
              (r = Some ClassNotFound
               <-> has_Student (schema st) && has_Attempt (schema st)
                   = false))))).
Proof.
  unfold problem_submit_posted, problem_submit.
  destruct (problems st !! name) as [prob|] eqn:Hp;
    [|repeat split; try discriminate; auto].
  destruct (posted_student form) as [student|] eqn:Hs.
  2:{ split; [reflexivity|]. split; [discriminate|].
      intros prob' _. split; [split; reflexivity|]. discriminate. }
  cbn [request_of form_answer].
  destruct (float_of_value (posted_answer form)) as [a|] eqn:Ha.
  2:{ split; [reflexivity|]. split; [discriminate|].
      intros prob' [= <-]. split; [split; discriminate|].
      intros student' _. split; [split; reflexivity|]. discriminate. }
  destruct (correct_value prob) as [c|] eqn:Hc.
  2:{ split; [reflexivity|]. split; [discriminate|].
      intros prob' [= <-]. split; [split; discriminate|].
      intros student' _. split; [split; discriminate|].
      intros a' [= <-]. rewrite Hc. split; [split; reflexivity|]. discriminate. }
  destruct (has_Student (schema st) && has_Attempt (schema st)) eqn:Hcl.
  - destruct (record_attempt _ _ _ _ _ _ _ _) as [[[]|] st'].
    all: split; [discriminate|]; split; [discriminate|].
    all: intros prob' [= <-]; split; [split; discriminate|].
    all: intros student' _; split; [split; discriminate|].
    all: intros a' [= <-]; rewrite Hc; split; [split; discriminate|].
    all: intros c' [= <-]; split; discriminate.
  - split; [reflexivity|]. split; [discriminate|].
    intros prob' [= <-]. split; [split; discriminate|].
    intros student' _. split; [split; discriminate|].
    intros a' [= <-]. rewrite Hc. split; [split; discriminate|].
    intros c' [= <-]. split; reflexivity.
Qed.

Lemma correct_value_answered (prob : Problem) (c : float) :
  correctAnswer prob = Some (PScalar PyNone) ->
  correct_value prob = Some c ->
  compute_answer (answered prob c) = compute_answer prob /\
  correct_value (answered prob c) = correct_value prob.
Proof.
  intros Hca Hc.
  assert (E : compute_answer (answered prob c) = compute_answer prob)
    by reflexivity.
  split; [exact E|]. unfold correct_value in *. rewrite E.
  destruct (compute_answer prob); [reflexivity|].
  unfold stored_answer in Hc. rewrite Hca in Hc. discriminate.
Qed.

Lemma keeps_answers_refl (p : Problem) : keeps_answers p p.
Proof. repeat split; auto. Qed.

Lemma keeps_answers_trans (p p' p'' : Problem) :
  keeps_answers p p' -> keeps_answers p' p'' -> keeps_answers p p''.
Proof.
  intros (H1 & H2 & H3 & H4 & H5) (G1 & G2 & G3 & G4 & G5).
  split; [|repeat split; congruence].
  destruct G1 as [G1 | (Gca & c' & Gc & G1)],
           H1 as [H1 | (Hca & c & Hc & H1)].
  - left. congruence.
  - right. split; [exact Hca|]. exists c. split; [exact Hc | congruence].
  - right. split; [congruence|]. exists c'. split; congruence.
  - congruence.
Qed.

(** The Problems before and after a sequence of submissions. *)
Lemma keeps_answers_at (st st' st'' : Store) (n : string) :
  match problems st !! n, problems st' !! n with
  | Some p, Some p' => keeps_answers p p'
  | None, None => True
  | _, _ => False
  end ->
  match problems st' !! n, problems st'' !! n with
  | Some p, Some p' => keeps_answers p p'
  | None, None => True
  | _, _ => False
  end ->
  match problems st !! n, problems st'' !! n with
  | Some p, Some p' => keeps_answers p p'
  | None, None => True
  | _, _ => False
  end.
Proof.
  destruct (problems st !! n), (problems st' !! n), (problems st'' !! n);
    try tauto. apply keeps_answers_trans.
Qed.

(** One submission: it may fill in the stored answer of the Problem it is
    made to, and changes neither the shape, the dimensions nor the answers of
    any Problem. *)
Lemma problem_submit_problem_at (name : string) (req : Request) (st : Store)
    (n : string) :
  schema (snd (problem_submit name req st)) = schema st /\
  match problems st !! n, problems (snd (problem_submit name req st)) !! n with
  | Some p, Some p' => keeps_answers p p'
  | None, None => True
  | _, _ => False
  end.
Proof.
  assert (Hsame : match problems st !! n, problems st !! n with
                  | Some p, Some p' => keeps_answers p p'
                  | None, None => True
                  | _, _ => False
                  end).
  { destruct (problems st !! n); [apply keeps_answers_refl | exact I]. }
  unfold problem_submit.
  destruct (problems st !! name) as [prob|] eqn:Hp; [|auto].
  destruct (float_of_value (form_answer req)) as [a|]; [|auto].
  destruct (correct_value prob) as [c|] eqn:Hc; [|auto].
  destruct (has_Student (schema st) && has_Attempt (schema st)); [|auto].
  set (ic := approx_equal (PyFloat a) (PyFloat c)).
  pose proof (record_attempt_spec name prob (submitter req) (timestamp req)
                a c ic st) as S.
  pose proof (record_attempt_rest name prob (submitter req) (timestamp req)
                a c ic st) as R.
  cbv zeta in S, R.
  destruct (record_attempt _ _ _ _ _ _ _ _) as [[[]|] st'].
  - cbn [snd]. destruct S as [-> _]. destruct R as [_ R].
    split; [reflexivity|]. rewrite R.
    destruct (correctAnswer prob) as [[[]|]|] eqn:Hca; try exact Hsame.
    destruct (String.eqb_spec n name) as [E | Hne].
    + subst n. rewrite Hp, lookup_insert_eq.
      destruct (correct_value_answered prob c Hca Hc) as [E1 E2].
      split; [right; eauto|]. auto.
    + rewrite lookup_insert_ne by congruence. exact Hsame.
  - cbn [snd]. destruct S as [-> _]. destruct R as [_ R].
    split; [reflexivity|]. rewrite R. exact Hsame.
Qed.

Lemma problem_submit_posted_problem_at (name : string) (form : Posted)
    (st : Store) (n : string) :
  schema (snd (problem_submit_posted name form st)) = schema st /\
  match problems st !! n,
        problems (snd (problem_submit_posted name form st)) !! n with
  | Some p, Some p' => keeps_answers p p'
  | None, None => True
  | _, _ => False
  end.
Proof.
  assert (Hsame : match problems st !! n, problems st !! n with
                  | Some p, Some p' => keeps_answers p p'
                  | None, None => True
                  | _, _ => False
                  end).
  { destruct (problems st !! n); [apply keeps_answers_refl | exact I]. }
  unfold problem_submit_posted.
  destruct (problems st !! name) as [prob|]; [|auto].
  destruct (posted_student form) as [student|]; [|auto].
  pose proof (problem_submit_problem_at name (request_of student form) st n).
  now destruct (problem_submit _ _ _).
Qed.

(** X13. Submissions add no Problem and remove none, and change no
    Problem's shape or dimensions.  Of the stored answer of a Problem, all
    that may change is that one that held [None] is filled in with the value
    the Problem is graded against.  So after any sequence of posted
    submissions, whatever is in their forms, the computed answer of every
    Problem, and the value every Problem is graded against, are what they
    were before: an answer is graded the same whenever it is submitted. *)
Theorem problems_keep_their_answers (posts : list (string * Posted))
    (n : string) :
  forall st,
    schema (post_all posts st) = schema st /\
    match problems st !! n, problems (post_all posts st) !! n with
    | Some p, Some p' => keeps_answers p p'
    | None, None => True
    | _, _ => False
    end.
Proof.
  induction posts as [|[name form] posts IH]; intros st.
  - split; [reflexivity|]. simpl.
    destruct (problems st !! n); [apply keeps_answers_refl | exact I].
  - cbn [post_all].
    destruct (problem_submit_posted_problem_at name form st n) as [Hs Hk].
    destruct (IH (snd (problem_submit_posted name form st))) as [Hs' Hk'].
    split; [congruence|]. exact (keeps_answers_at _ _ _ n Hk Hk').
Qed.

(** *** Every well-formed submission is graded *)

(** X14. A posted submission with the [student] field and an answer that
    reads as a number, to a Problem that is found and has a value to grade
    against, in an ontology with the Student and Attempt classes, is always
    graded, and graded by [approx_equal] of the answer and that value: the
    update of the Student does not fail as long as the scores and the
    numbers of attempts of the Students are below [2 ^ 1023], the range in
    which [float] converts them. *)
Theorem well_formed_submission_is_graded (name : string) (form : Posted)
    (st : Store) (prob : Problem) (student : string) (a c : float) :
  problems st !! name = Some prob ->
  posted_student form = Some student ->
  float_of_value (posted_answer form) = Some a ->
  correct_value prob = Some c ->
  has_Student (schema st) = true ->
  has_Attempt (schema st) = true ->
  in_float_range st ->
  exists st',
    problem_submit_posted name form st
    = (Some (Graded (approx_equal (PyFloat a) (PyFloat c)) a c), st').
Proof.
  intros Hp Hs Ha Hc HS HA Hcount.
  rewrite (problem_submit_posted_found name form st prob student Hp Hs).
  destruct (problem_submit_grades name (request_of student form) st prob a c
              Hp Ha Hc) as [st' E]; [now rewrite HS, HA | exact Hcount |].
  exists st'. now rewrite E.
Qed.

Lemma well_formed_submission_is_graded_witness :
  exists st',
    problem_submit_posted "P1" (posted "bob" "12.5") circle_store
    = (Some (Graded true 12.5 (4 * pi)), st').
Proof.
  apply (well_formed_submission_is_graded "P1" (posted "bob" "12.5")
           circle_store circle_radius_2 "bob" 12.5 (4 * pi));
    try reflexivity.
  intros nm s H. discriminate H.
Defined.

(** *** The Attempt of a submission *)

(** X15. A graded submission records exactly one Attempt, after those
    already there.  It is named after the Student, the Problem and the time
    stamp, and holds the Problem, the answer as the number it was read as
    and whether it was graded correct, each where the ontology declares the
    property; the Student's list of attempts, if it has one, ends with it.
    (The name is taken to be new: no Attempt has it yet.) *)
Theorem graded_submission_records_attempt (name : string) (req : Request)
    (st st' : Store) (prob : Problem) (ic : bool) (a c : float) :
  let s0 := student_before st (submitter req) in
  let att_name := ("Attempt_" ++ student_name s0 ++ "_" ++ problem_name prob
                   ++ "_" ++ timestamp req)%string in
  problems st !! name = Some prob ->
  Forall (fun old => attempt_name old <> att_name) (attempt_log st) ->
  problem_submit name req st = (Graded ic a c, st') ->
  exists att,
    attempt_log st' = (attempt_log st ++ [att])%list /\
    attempt_name att = att_name /\
    attemptOf att = (if decl_attemptOf (schema st)
                     then Some [problem_name prob] else None) /\
    hasAnswer att = (if decl_hasAnswer (schema st) then Some [a] else None) /\
    isCorrect att = (if decl_isCorrect (schema st) then Some [ic] else None) /\
    (forall l, attempts s0 = Some l ->
       exists s', students st' !! submitter req = Some s' /\
                  attempts s' = Some (l ++ [att])%list).
Proof.
  intros s0 att_name Hp _ H.
  destruct (problem_submit_graded _ _ _ _ _ _ _ H)
    as (prob' & Hp' & _ & _ & _ & E).
  assert (prob' = prob) by congruence. subst prob'.
  pose proof (record_attempt_spec name prob (submitter req) (timestamp req)
                a c ic st) as S.
  pose proof (record_attempt_rest name prob (submitter req) (timestamp req)
                a c ic st) as R.
  cbv zeta in S, R. rewrite E in S, R. destruct R as [R _].
  destruct S as [_ S]. fold s0 in S, R.
  exists (make_attempt (schema st) s0 prob (timestamp req) a ic).
  split; [exact R|]. split; [reflexivity|].
  split; [unfold make_attempt; simpl; now destruct (decl_attemptOf _)|].
  split; [unfold make_attempt; simpl; now destruct (decl_hasAnswer _)|].
  split; [unfold make_attempt; simpl; now destruct (decl_isCorrect _)|].
  intros l Hl.
  destruct (masteryLevel _) in S; [destruct (mastery_of _ _) in S|];
    destruct S as [S1 S2]; try discriminate S1;
    rewrite S2, lookup_insert_eq; eexists; (split; [reflexivity|]);
    simpl; now rewrite Hl.
Qed.

Lemma graded_submission_records_attempt_witness :
  exists att,
    attempt_log (snd (problem_submit "P1" (submission "bob" "12.5")
                        circle_store)) = [att] /\
    attempt_name att = "Attempt_bob_P1_20240101T000000"%string /\
    hasAnswer att = Some [12.5] /\ isCorrect att = Some [true].
Proof.
  destruct (graded_submission_records_attempt "P1" (submission "bob" "12.5")
              circle_store
              (snd (problem_submit "P1" (submission "bob" "12.5") circle_store))
              circle_radius_2 true 12.5 (4 * pi) eq_refl (List.Forall_nil _)
              ltac:(vm_compute; reflexivity))
    as (att & H1 & H2 & _ & H3 & H4 & _).
  exists att. auto.
Defined.

(** *** The name a submission is made under *)

Lemma lstrip_blank (ws l : list ascii) :
  Forall (fun c => is_space_str c = true) ws -> lstrip (ws ++ l) = lstrip l.
Proof.
  induction 1 as [|c ws Hc _ IH]; [reflexivity|]. simpl. now rewrite Hc.
Qed.

(** What [lstrip] leaves does not begin with a space. *)
Lemma lstrip_fixed (l : list ascii) : lstrip (lstrip l) = lstrip l.
Proof.
  induction l as [|c l IH]; [reflexivity|]. simpl.
  destruct (is_space_str c) eqn:E; [exact IH|]. simpl. now rewrite E.
Qed.

Lemma lstrip_split (l : list ascii) :
  exists ws, Forall (fun c => is_space_str c = true) ws /\
             l = (ws ++ lstrip l)%list.
Proof.
  induction l as [|c l (ws & Hws & IH)]; [exists []; auto|]. simpl.
  destruct (is_space_str c) eqn:E.
  - exists (c :: ws). split; [now constructor|]. simpl. now f_equal.
  - exists []. auto.
Qed.

Lemma lstrip_app (l x : list ascii) :
  lstrip l <> [] -> lstrip (l ++ x) = (lstrip l ++ x)%list.
Proof.
  induction l as [|c l IH]; [intros []; reflexivity|]. simpl.
  destruct (is_space_str c); [exact IH | reflexivity].
Qed.

Lemma lstrip_all_blank (l x : list ascii) :
  lstrip l = [] -> lstrip (l ++ x) = lstrip x.
Proof.
  intros H. destruct (lstrip_split l) as (ws & Hws & E).
  rewrite H, app_nil_r in E. subst ws. now apply lstrip_blank.
Qed.

(** [strip] on lists of characters. *)
Lemma strip_pad (pre l post : list ascii) :
  Forall (fun c => is_space_str c = true) pre ->
  Forall (fun c => is_space_str c = true) post ->
  rev (lstrip (rev (lstrip (pre ++ l ++ post))))
  = rev (lstrip (rev (lstrip l))).
Proof.
  intros Hpre Hpost. rewrite (lstrip_blank pre) by exact Hpre.
  assert (Hrev : Forall (fun c => is_space_str c = true) (rev post))
    by (now apply List.Forall_rev).
  destruct (lstrip l) as [|c m] eqn:E.
  - rewrite (lstrip_all_blank l post E).
    destruct (lstrip_split post) as (ws & Hws & Ep).
    assert (Hall : lstrip post = []).
    { clear -Hpost. induction Hpost as [|c post Hc _ IH]; [reflexivity|].
      simpl. now rewrite Hc. }
    now rewrite Hall.
  - rewrite lstrip_app by (rewrite E; discriminate). rewrite E.
    rewrite rev_app_distr. now rewrite (lstrip_blank (rev post)).
Qed.

Lemma lstrip_length (l : list ascii) : (length (lstrip l) <= length l)%nat.
Proof.
  induction l as [|c l IH]; simpl; [lia|].
  destruct (is_space_str c); simpl; lia.
Qed.

Lemma lstrip_head (c : ascii) (l : list ascii) :
  lstrip (c :: l) = c :: l -> is_space_str c = false.
Proof.
  simpl. destruct (is_space_str c); [|reflexivity]. intros H.
  pose proof (lstrip_length l) as Hlen. rewrite H in Hlen. simpl in Hlen. lia.
Qed.

Lemma strip_fixed (l : list ascii) :
  let r := rev (lstrip (rev (lstrip l))) in
  rev (lstrip (rev (lstrip r))) = r.
Proof.
  intros r.
  assert (Hr : lstrip r = r).
  { destruct (lstrip_split (rev (lstrip l))) as (ws & Hws & E).
    apply (f_equal (@rev ascii)) in E.
    rewrite rev_involutive, rev_app_distr in E. fold r in E.
    destruct r as [|c r']; [reflexivity|].
    pose proof (lstrip_fixed l) as F. rewrite E in F.
    apply lstrip_head in F. simpl. now rewrite F. }
  rewrite Hr. unfold r at 1. rewrite rev_involutive, lstrip_fixed.
  reflexivity.
Qed.

Lemma list_ascii_of_string_app (s t : string) :
  list_ascii_of_string (s ++ t)
  = (list_ascii_of_string s ++ list_ascii_of_string t)%list.
Proof. induction s as [|c s IH]; simpl; [reflexivity | now rewrite IH]. Qed.

Lemma str_strip_pad (pre s post : string) :
  blank pre -> blank post -> str_strip (pre ++ s ++ post) = str_strip s.
Proof.
  intros Hpre Hpost. unfold str_strip.
  rewrite !list_ascii_of_string_app. now rewrite strip_pad.
Qed.

Lemma str_strip_fixed (s : string) : str_strip (str_strip s) = str_strip s.
Proof.
  unfold str_strip. rewrite list_ascii_of_string_of_list_ascii.
  now rewrite strip_fixed.
Qed.

Lemma str_strip_blank (s : string) : blank s -> str_strip s = ""%string.
Proof.
  intros H. unfold str_strip.
  assert (Hall : lstrip (list_ascii_of_string s) = []).
  { induction H as [|c l Hc _ IH]; [reflexivity|]. simpl. now rewrite Hc. }
  now rewrite Hall.
Qed.

(** X16. For a [student] field of ASCII characters, the name a submission
    is made under is the field without the white space around it, and
    [Student_Anonymous] when nothing else is left: it is never empty, the
    white space around a name makes no difference to it, and it is the name
    it gives again when it is entered as it stands.  So submissions whose
    names differ in surrounding white space only go under the same name, and
    all the blank ones under [Student_Anonymous]. *)
Theorem submitter_normal (req : Request) :
  ascii_text (form_student req) ->
  submitter req <> ""%string /\
  (blank (form_student req) -> submitter req = "Student_Anonymous"%string) /\
  (forall req' pre post,
     form_student req' = (pre ++ form_student req ++ post)%string ->
     blank pre -> blank post -> submitter req' = submitter req) /\
  (forall req', form_student req' = submitter req ->
     submitter req' = submitter req).
Proof.
  intros _. unfold submitter. split; [|split; [|split]].
  - destruct (String.eqb_spec (str_strip (form_student req)) "");
      [discriminate | assumption].
  - intros H. now rewrite (str_strip_blank _ H).
  - intros req' pre post -> Hpre Hpost. now rewrite str_strip_pad.
  - intros req' ->.
    destruct (String.eqb_spec (str_strip (form_student req)) "") as [E|E].
    + reflexivity.
    + rewrite str_strip_fixed.
      destruct (String.eqb_spec (str_strip (form_student req)) "");
        [contradiction | reflexivity].
Qed.

Lemma submitter_normal_witness :
  submitter (submission "  bob " "1") = submitter (submission "bob" "1").
Proof.
  apply (proj1 (proj2 (proj2 (submitter_normal (submission "bob" "1")
                                ltac:(repeat constructor))))
           (submission "  bob " "1") "  "%string " "%string eq_refl);
    repeat constructor.
Defined.

End SessionProps.

(** ** The problem page and the grading *)

Module PageProps.
Import PyNum Py Onto Submit View Notions SubmitProps.
#[local] Open Scope float_scope.

Lemma stored_answer_value (prob : Problem) :
  stored_answer prob = to_float (stored_value prob).
Proof.
  unfold stored_answer, stored_value.
  destruct (attr_truthy _); [|reflexivity].
  destruct (correctAnswer prob) as [[v|[|v l]]|]; reflexivity.
Qed.

(** X19. The problem page and the submission handler agree.  A name the
    page does not find is not found by the handler either.  For a Problem
    that is found, a submission is graded against the computed answer the
    page shows, or, when the page shows none, against the stored answer it
    shows, read as a number; and when the page shows neither a computed
    answer nor a stored one that reads as a number, every submission of a
    number, on a form with the [student] field, ends with the notice that
    the answer cannot be computed or read.  (A form without that field is
    not handled: the handler raises once the Problem is found.) *)
Theorem page_shows_what_is_graded (name : string) (form : Posted)
    (st : Store) :
  match problem_view name st with
  | None => problem_submit_posted name form st = (Some ProblemNotFound, st)
  | Some page =>
      let shown := match page_computed page with
                   | Some c => Some c
                   | None => to_float (page_stored page)
                   end in
      (forall ic a c st',
         problem_submit_posted name form st = (Some (Graded ic a c), st') ->
         shown = Some c /\ ic = approx_equal (PyFloat a) (PyFloat c)) /\
      (forall student a,
         posted_student form = Some student ->
         float_of_value (posted_answer form) = Some a ->
         shown = None ->
         problem_submit_posted name form st = (Some CannotGrade, st)) /\
      (posted_student form = None ->
       problem_submit_posted name form st = (None, st))
  end.
Proof.
  unfold problem_view, problem_submit_posted.
  destruct (problems st !! name) as [prob|] eqn:Hp; [|reflexivity].
  cbn [page_computed page_stored]. rewrite <- stored_answer_value.
  change (match compute_answer prob with
          | Some c => Some c
          | None => stored_answer prob
          end) with (correct_value prob).
  split; [|split].
  - intros ic a c st' H.
    destruct (posted_student form) as [student|]; [|discriminate].
    destruct (problem_submit name (request_of student form) st)
      as [o st''] eqn:E.
    injection H as -> ->.
    destruct (problem_submit_graded _ _ _ _ _ _ _ E)
      as (prob' & Hp' & _ & Hc & Hic & _).
    assert (prob' = prob) by congruence. subst prob'. auto.
  - intros student a -> Ha Hc. unfold problem_submit.
    cbn [request_of form_answer]. now rewrite Hp, Ha, Hc.
  - intros ->. reflexivity.
Qed.

End PageProps.

(** ** Adding a problem *)

Module ManageProps.
Import PyNum Py Onto Submit Examples Notions Manage ManageExamples ManageNotions.
#[local] Open Scope float_scope.

(** The cases of [add_problem], one for each way through it. *)
Ltac add_cases H :=
  unfold add_problem, finish in H;
  repeat match type of H with
         | context [match ?x with _ => _ end] => destruct x eqn:?
         end;
  simplify_eq.

Lemma in_use_spec (o : Ontology) (n : string) :
  in_use o n = true <->
  is_Some (problems (base o) !! n) \/ is_Some (students (base o) !! n) \/
  existsb (fun a => String.eqb (attempt_name a) n) (attempt_log (base o)) = true
  \/ n ∈ others o.
Proof.
  unfold in_use. rewrite !orb_true_iff, !bool_decide_eq_true. tauto.
Qed.

Lemma in_use_with_problem (o : Ontology) (name : string) (p : Problem) :
  in_use (with_problem o name p) name = true.
Proof.
  apply in_use_spec. left. simpl. rewrite lookup_insert_eq. eauto.
Qed.

Lemma grows_at_refl (name : string) (o : Ontology) : grows_at name o o.
Proof. repeat split; auto. Qed.

Lemma grows_at_with_problem (name : string) (o o1 : Ontology) (p : Problem) :
  grows_at name o o1 -> grows_at name o (with_problem o1 name p).
Proof.
  intros (H1 & H2 & H3 & H4 & H5 & H6). repeat split; simpl; auto.
  - intros n Hn. rewrite lookup_insert_ne by congruence. auto.
  - intros n Hn. apply H6 in Hn. apply in_use_spec in Hn. apply in_use_spec.
    simpl. destruct Hn as [Hn | Hn]; [|tauto]. left.
    destruct (String.eqb_spec n name) as [-> | Hne].
    + rewrite lookup_insert_eq. eauto.
    + rewrite lookup_insert_ne by congruence. exact Hn.
Qed.

Lemma grows_at_register (name x : string) (o o1 : Ontology) :
  grows_at name o o1 -> grows_at name o (register o1 x).
Proof.
  intros (H1 & H2 & H3 & H4 & H5 & H6). repeat split; simpl; auto.
  intros n Hn. apply H6 in Hn. apply in_use_spec in Hn. apply in_use_spec.
  simpl. destruct Hn as [Hn | [Hn | [Hn | Hn]]]; auto.
  right. right. right. set_solver.
Qed.

Create HintDb grows.
#[local] Hint Resolve grows_at_refl grows_at_with_problem grows_at_register
  : grows.

Lemma in_use_register_mono (o : Ontology) (x n : string) :
  in_use o n = true -> in_use (register o x) n = true.
Proof. apply (grows_at_register n x o o (grows_at_refl n o)). Qed.

Lemma in_use_with_problem_mono (o : Ontology) (m n : string) (p : Problem) :
  in_use o n = true -> in_use (with_problem o m p) n = true.
Proof. apply (grows_at_with_problem m o o p (grows_at_refl m o)). Qed.

(** Whatever the outcome, the ontology grows at the Problem named in the
    form and nowhere else. *)
Lemma add_problem_grows (form : Form) (o o' : Ontology) (out : add_outcome) :
  add_problem form o = Some (out, o') -> grows_at (name_of form) o o'.
Proof.
  intros H. unfold name_of. add_cases H; auto 10 with grows.
Qed.

(** A request that is not rejected finds the name free. *)
Lemma add_problem_free (form : Form) (o o' : Ontology) (out : add_outcome) :
  add_problem form o = Some (out, o') -> rejected out = false ->
  in_use o (name_of form) = false /\ in_use o' (name_of form) = true.
Proof.
  intros H Hr. unfold name_of. add_cases H; try discriminate Hr.
  all: split; [assumption|].
  all: repeat first [ apply in_use_with_problem
                    | apply in_use_register_mono
                    | apply in_use_with_problem_mono ].
Qed.

Lemma add_problem_rejected (form : Form) (o o' : Ontology) (out : add_outcome) :
  add_problem form o = Some (out, o') -> rejected out = true -> o' = o.
Proof. intros H Hr. add_cases H; try discriminate Hr; reflexivity. Qed.

(** X20. A request to [add_problem] that is rejected changes nothing: a
    GET, which only shows the form; a form without a name, a shape or a
    first value, white space not counting as a name or a value; a name that
    is already in use; an ontology without the Problem or the Dimension
    class.  The checks are made in this order. *)
Theorem rejected_form_changes_nothing (form : Form) (o : Ontology) :
  (forall out o', add_problem form o = Some (out, o') ->
     rejected out = true -> o' = o) /\
  (form_method form = GET -> add_problem form o = Some (ShowForm, o)) /\
  (form_method form = POST ->
   (name_of form = ""%string \/ shape_of form = ""%string \/
    str_strip (form_dim1_value form) = ""%string ->
    add_problem form o = Some (MissingFields, o)) /\
   (name_of form <> ""%string -> shape_of form <> ""%string ->
    str_strip (form_dim1_value form) <> ""%string ->
    (in_use o (name_of form) = true ->
     add_problem form o = Some (AlreadyExists, o)) /\
    (in_use o (name_of form) = false ->
     has_class o "Problem" && has_class o "Dimension" = false ->
     add_problem form o = Some (ClassMissing, o)))).
Proof.
  split; [|split].
  - intros out o'. apply add_problem_rejected.
  - intros Hm. unfold add_problem. now rewrite Hm.
  - intros Hm. unfold add_problem, name_of, shape_of. rewrite Hm. split.
    + intros H.
      assert (E : String.eqb (str_strip (form_problem_name form)) ""
                  || String.eqb (default "" (form_shape form)) ""
                  || String.eqb (str_strip (form_dim1_value form)) "" = true).
      { rewrite !orb_true_iff, !String.eqb_eq. tauto. }
      now rewrite E.
    + intros H1 H2 H3.
      apply String.eqb_neq in H1, H2, H3. rewrite H1, H2, H3. cbn [orb].
      split; [intros ->; reflexivity|]. intros -> ->. reflexivity.
Qed.

(** *** Where the handler is followed *)

Lemma length_app_string (s t : string) :
  String.length (s ++ t) = (String.length s + String.length t)%nat.
Proof. induction s as [|c s IH]; simpl; [reflexivity | now rewrite IH]. Qed.

Lemma in_use_fresh_problem (o : Ontology) (name n : string) (p : Problem) :
  n <> name -> in_use o n = false -> in_use (with_problem o name p) n = false.
Proof.
  intros Hne Hn. apply not_true_iff_false. intros H.
  apply not_true_iff_false in Hn. apply Hn.
  apply in_use_spec in H. apply in_use_spec. simpl in H.
  rewrite lookup_insert_ne in H by congruence. exact H.
Qed.

Lemma in_use_fresh_register (o : Ontology) (x n : string) :
  n <> x -> in_use o n = false -> in_use (register o x) n = false.
Proof.
  intros Hne Hn. apply not_true_iff_false. intros H.
  apply not_true_iff_false in Hn. apply Hn.
  apply in_use_spec in H. apply in_use_spec. simpl in H.
  destruct H as [H | [H | [H | H]]]; auto.
  right. right. right.
  apply elem_of_union in H as [H | H]; [|exact H].
  apply elem_of_singleton in H. contradiction.
Qed.

Lemma resolves_other_fresh_problem (o : Ontology) (name n : string)
    (p : Problem) :
  n <> name -> resolves_other o n = false ->
  resolves_other (with_problem o name p) n = false.
Proof.
  unfold resolves_other. intros Hne H.
  apply orb_false_iff in H as [H1 H2].
  rewrite (in_use_fresh_problem o name n p Hne H1). exact H2.
Qed.

(** The names one request makes, of the Problem, of its shape and of its
    dimensions, are different from one another; so the handler is followed
    on every request whose derived names are not in use, for a shape that is
    another class than Problem, Student and Attempt or names nothing. *)
Lemma add_problem_followed (form : Form) (o : Ontology) :
  fresh_names form o -> add_problem form o <> None.
Proof.
  unfold fresh_names, name_of, shape_of. intros (Hk & Hshape & Hs & H1 & H2).
  set (name := str_strip (form_problem_name form)) in *.
  set (shape := default "" (form_shape form)) in *.
  assert (Ns : (shape ++ "_inst_" ++ name)%string <> name)
    by (intros E; apply (f_equal String.length) in E;
        rewrite !length_app_string in E; simpl in E; lia).
  assert (N1 : (name ++ "_dim1")%string <> name)
    by (intros E; apply (f_equal String.length) in E;
        rewrite !length_app_string in E; simpl in E; lia).
  assert (N2 : (name ++ "_dim2")%string <> name)
    by (intros E; apply (f_equal String.length) in E;
        rewrite !length_app_string in E; simpl in E; lia).
  assert (N1s : (name ++ "_dim1")%string <> (shape ++ "_inst_" ++ name)%string)
    by (intros E; apply (f_equal String.length) in E;
        rewrite !length_app_string in E; simpl in E; lia).
  assert (N2s : (name ++ "_dim2")%string <> (shape ++ "_inst_" ++ name)%string)
    by (intros E; apply (f_equal String.length) in E;
        rewrite !length_app_string in E; simpl in E; lia).
  assert (N21 : (name ++ "_dim2")%string <> (name ++ "_dim1")%string).
  { intros E. clear -E. induction name as [|c n IH]; simpl in E.
    - discriminate.
    - injection E as E. auto. }
  assert (Hres : forall p,
            has_class (with_problem o name p) shape = false ->
            resolves_other (with_problem o name p) shape = false).
  { intros p Hc. destruct Hshape as [Hc' | [Hne Hr]].
    - change (has_class (with_problem o name p) shape)
        with (has_class o shape) in Hc. congruence.
    - now apply resolves_other_fresh_problem. }
  unfold add_problem, finish. fold name shape.
  repeat match goal with
         | |- context [in_use ?w ?n] =>
             let H := fresh in
             assert (H : in_use w n = false)
               by (repeat first [ assumption
                                | apply in_use_fresh_problem; [assumption|]
                                | apply in_use_fresh_register; [assumption|] ]);
             rewrite H
         | |- context [kept_class shape] => rewrite Hk; cbn [orb]
         | |- context [negb (has_class ?w shape)] =>
             let E := fresh in
             destruct (has_class w shape) eqn:E; cbn [negb];
             [|rewrite (Hres _ E)]
         | |- (match ?x with _ => _ end) <> None => destruct x eqn:?
         | |- Some _ <> None => discriminate
         end.
Qed.

(** *** What is there already *)

(** X21. A request to [add_problem] changes nothing that is there
    already, provided the names the handler derives from the form for the
    shape and the dimensions are not in use (and the shape is another class
    than Problem, Student and Attempt, or names nothing).  The request is
    then followed to its end, and whatever its outcome, the Students and the
    Attempts are as before, every Problem that existed is unchanged, and the
    only name under which a Problem may appear is the one of the form, which
    was free.  No name that was in use becomes free. *)
Theorem add_problem_keeps_what_exists (form : Form) (o : Ontology) :
  fresh_names form o ->
  exists out o',
    add_problem form o = Some (out, o') /\
    students (base o') = students (base o) /\
    attempt_log (base o') = attempt_log (base o) /\
    (forall n p, problems (base o) !! n = Some p ->
       problems (base o') !! n = Some p) /\
    (forall n, n <> name_of form ->
       problems (base o') !! n = problems (base o) !! n) /\
    (forall n, in_use o n = true -> in_use o' n = true).
Proof.
  intros Hf. pose proof (add_problem_followed form o Hf) as Hsome.
  destruct (add_problem form o) as [[out o']|] eqn:H; [|congruence].
  exists out, o'. split; [reflexivity|].
  destruct (add_problem_grows form o o' out H) as (_ & H2 & H3 & _ & H5 & H6).
  split; [exact H2|]. split; [exact H3|]. split; [|split; assumption].
  intros n p Hp.
  destruct (rejected out) eqn:Hr.
  - now rewrite (add_problem_rejected form o o' out H Hr).
  - destruct (add_problem_free form o o' out H Hr) as [Hfree _].
    rewrite H5; [exact Hp|]. intros ->.
    assert (Hu : in_use o (name_of form) = true)
      by (apply in_use_spec; left; eauto).
    congruence.
Qed.

Lemma add_problem_keeps_what_exists_witness :
  exists out o',
    add_problem circle_form empty_ontology = Some (out, o') /\
    students (base o') = students (base empty_ontology).
Proof.
  destruct (add_problem_keeps_what_exists circle_form empty_ontology)
    as (out & o' & H & Hs & _).
  - split; [reflexivity|]. split; [left; reflexivity|].
    repeat split; vm_compute; reflexivity.
  - exists out, o'. split; [exact H | exact Hs].
Defined.

(** *** What a created Problem holds *)

Lemma before_underscore_app (s t : string) :
  before_underscore (s ++ String "_" t) = before_underscore s.
Proof.
  induction s as [|c s IH]; simpl; [reflexivity|].
  destruct (Ascii.eqb c "_"); [reflexivity | now rewrite IH].
Qed.

Lemma has_underscore_app (s t : string) :
  has_underscore (s ++ String "_" t) = true.
Proof.
  induction s as [|c s IH]; simpl; [reflexivity|].
  rewrite IH. apply orb_true_r.
Qed.

Lemma app_underscore_nonempty (s t : string) :
  String.eqb (s ++ String "_" t) "" = false.
Proof. now destruct s. Qed.

(** The kind of a Problem whose shape is the individual [add_problem]
    makes. *)
Lemma shape_of_added (p : Problem) (shape name : string) :
  hasShape p = Some [new_shape shape name] ->
  fst (shape_for_problem p) = Some (added_kind shape).
Proof.
  intros H. unfold shape_for_problem, added_kind. rewrite H.
  unfold new_shape, name_hint, first_class_name. cbn [is_a shape_name first_known_class class_name].
  change ("_inst_" ++ name)%string with (String "_" ("inst_" ++ name)).
  rewrite app_underscore_nonempty, has_underscore_app, before_underscore_app.
  cbn [negb andb].
  destruct (is_known_kind shape); [reflexivity|].
  now destruct (is_known_kind (before_underscore shape)).
Qed.

Lemma make_dimension_complete (v : Vocabulary) (name value : string)
    (d : Dimension) :
  complete v -> make_dimension v name value = Some d ->
  exists x, float_of_string value = Some x /\
            d = {| dimensionName := Some (PList [PyStr name]);
                   dimensionValue := Some (PList [PyFloat x]) |}.
Proof.
  intros (_ & _ & _ & Hn & Hv & _). unfold make_dimension.
  rewrite Hn, Hv. simpl.
  destruct (float_of_string value) as [x|]; [|discriminate].
  intros [= <-]. eauto.
Qed.

(** The stored answer that [add_problem] attaches reads back as the
    computed answer. *)
Lemma stored_of_attached (p : Problem) :
  correctAnswer p
  = Some (PList match compute_answer p with
                | Some c => [PyFloat c]
                | None => []
                end) ->
  stored_answer p = compute_answer p.
Proof.
  intros H. unfold stored_answer. rewrite H.
  now destruct (compute_answer p).
Qed.

(** The Problem a successful request leaves: its shape, its dimensions and
    its stored answer. *)
Lemma add_problem_created (form : Form) (o o' : Ontology) :
  complete (vocab o) ->
  add_problem form o = Some (Created, o') ->
  exists p x1 ds,
    problems (base o') !! name_of form = Some p /\
    problem_name p = name_of form /\
    hasShape p = Some [new_shape (shape_of form) (name_of form)] /\
    float_of_string (str_strip (form_dim1_value form)) = Some x1 /\
    hasProblemDimension p
    = Some (Spec.dimension (or_default (str_strip (form_dim1_name form)) "dim1")
              (PyFloat x1) :: ds) /\
    (str_strip (form_dim2_value form) = ""%string -> ds = []) /\
    (str_strip (form_dim2_value form) <> ""%string ->
     exists x2,
       float_of_string (str_strip (form_dim2_value form)) = Some x2 /\
       ds = [Spec.dimension
               (or_default (str_strip (form_dim2_name form)) "dim2")
               (PyFloat x2)]) /\
    correctAnswer p
    = Some (PList match compute_answer p with
                  | Some c => [PyFloat c]
                  | None => []
                  end).
Proof.
  intros Hc H. pose proof Hc as (H1 & H2 & H3 & H4 & H5 & H6).
  unfold name_of, shape_of.
  add_cases H.
  - (* one dimension *)
    match goal with
    | Hd : make_dimension _ _ _ = Some _ |- _ =>
        apply make_dimension_complete in Hd; [|exact Hc];
        destruct Hd as (x1 & Hx1 & ->)
    end.
    eexists _, x1, []. split; [simpl; apply lookup_insert_eq|].
    split; [reflexivity|]. split; [simpl; now rewrite H1|].
    split; [exact Hx1|]. split; [simpl; now rewrite H2|].
    split; [reflexivity|]. split.
    { match goal with
      | Hb : String.eqb _ "" = true |- _ => apply String.eqb_eq in Hb
      end. congruence. }
    set (q := link_first _ _).
    change (compute_answer (attach_answer q)) with (compute_answer q).
    simpl. rewrite H6. simpl. now destruct (compute_answer q).
  - (* two dimensions *)
    repeat match goal with
    | Hd : make_dimension _ _ _ = Some _ |- _ =>
        apply make_dimension_complete in Hd; [|exact Hc];
        let x := fresh "x" in let Hx := fresh "Hx" in
        destruct Hd as (x & Hx & ->)
    end.
    eexists _, _, _. split; [simpl; apply lookup_insert_eq|].
    split; [reflexivity|]. split; [simpl; now rewrite H1|].
    split; [eassumption|]. split; [simpl; rewrite H2; reflexivity|].
    split.
    { match goal with
      | Hb : String.eqb _ "" = false |- _ => apply String.eqb_neq in Hb
      end. congruence. }
    split; [intros _; eexists; split; [eassumption | reflexivity]|].
    set (q := link_second _ _).
    change (compute_answer (attach_answer q)) with (compute_answer q).
    simpl. rewrite H6. simpl. now destruct (compute_answer q).
Qed.

(** X22. A Problem that [add_problem] creates, in an ontology that
    declares the properties it sets, is found under the name of the form
    without the white space around it, and holds what was entered: the
    shape resolves to the class chosen (or to the kind its name begins
    with); the dimension sequence has the first dimension and then the
    second, if a second value was entered, each under the name entered, or
    [dim1] and [dim2] for a blank name, with the value that [float] read
    from the form, written by [str]; and the stored answer is the computed
    answer, absent when there is none. *)
Theorem added_problem_is_as_entered (form : Form) (o o' : Ontology) :
  complete (vocab o) ->
  add_problem form o = Some (Created, o') ->
  exists p x1,
    problems (base o') !! name_of form = Some p /\
    problem_name p = name_of form /\
    float_of_string (str_strip (form_dim1_value form)) = Some x1 /\
    fst (shape_for_problem p) = Some (added_kind (shape_of form)) /\
    (exists rest,
       dims_for_problem p
       = form_entry (form_dim1_name form) "dim1" x1 :: rest /\
       (str_strip (form_dim2_value form) = ""%string -> rest = []) /\
       (str_strip (form_dim2_value form) <> ""%string ->
        exists x2,
          float_of_string (str_strip (form_dim2_value form)) = Some x2 /\
          rest = [form_entry (form_dim2_name form) "dim2" x2])) /\
    correctAnswer p
    = Some (PList match compute_answer p with
                  | Some c => [PyFloat c]
                  | None => []
                  end) /\
    stored_answer p = compute_answer p.
Proof.
  intros Hc H.
  destruct (add_problem_created form o o' Hc H)
    as (p & x1 & ds & Hp & Hn & Hs & Hx1 & Hd & Hone & Htwo & Ha).
  exists p, x1. split; [exact Hp|]. split; [exact Hn|]. split; [exact Hx1|].
  split; [exact (shape_of_added p _ _ Hs)|].
  split; [|split; [exact Ha | exact (stored_of_attached p Ha)]].
  unfold dims_for_problem, form_entry. rewrite Hd. cbn [nonempty default].
  destruct (String.eqb_spec (str_strip (form_dim2_value form)) "") as [E|E].
  - rewrite (Hone E). exists []. split; [reflexivity|].
    split; [reflexivity | contradiction].
  - destruct (Htwo E) as (x2 & Hx2 & ->). eexists. split; [reflexivity|].
    split; [contradiction|]. intros _. exists x2. split; [exact Hx2 | reflexivity].
Qed.

Lemma added_problem_is_as_entered_witness :
  exists p,
    problems (base (after circle_form empty_ontology)) !! "C1"%string = Some p /\
    dims_for_problem p = [(PyStr "radius", Some "2.0"%string)] /\
    stored_answer p = compute_answer p.
Proof.
  destruct (added_problem_is_as_entered circle_form empty_ontology
              (after circle_form empty_ontology)
              ltac:(repeat split) ltac:(vm_compute; reflexivity))
    as (p & x1 & Hp & _ & Hx & _ & (rest & Hd & Hr & _) & _ & Hs).
  exists p. split; [exact Hp|]. split; [|exact Hs].
  rewrite Hd, (Hr eq_refl). injection Hx as <-. reflexivity.
Defined.

(** *** A request that fails half way *)

Lemma add_problem_taken (form : Form) (o : Ontology) :
  form_method form = POST ->
  name_of form <> ""%string -> shape_of form <> ""%string ->
  str_strip (form_dim1_value form) <> ""%string ->
  in_use o (name_of form) = true ->
  add_problem form o = Some (AlreadyExists, o).
Proof.
  intros Hm H1 H2 H3 Hu. unfold add_problem, name_of, shape_of in *.
  apply String.eqb_neq in H1, H2, H3. now rewrite Hm, H1, H2, H3, Hu.
Qed.

Lemma make_dimension_fails (v : Vocabulary) (name value : string) :
  make_dimension v name value = None ->
  decl_dimensionValue v = true /\ float_of_string value = None.
Proof.
  unfold make_dimension. destruct (decl_dimensionValue v); simpl.
  - destruct (float_of_string value); [discriminate | auto].
  - discriminate.
Qed.

Lemma new_problem_bare (v : Vocabulary) (name : string) :
  shape_for_problem (new_problem v name) = (None, None) /\
  dims_for_problem (new_problem v name) = [].
Proof.
  unfold shape_for_problem, dims_for_problem, inline_dims, new_problem.
  simpl.
  destruct (decl_hasShape v), (decl_hasProblemDimension v),
    (decl_hasDimension v), (decl_dimensionValue v); split; reflexivity.
Qed.

(** The Problem a request leaves when a dimension value is no number: the
    new Problem with its shape, and with its first dimension when it is the
    second value that [float] does not read. *)
Lemma add_problem_invalid (form : Form) (o o' : Ontology) :
  add_problem form o = Some (InvalidNumber, o') ->
  let p0 := set_shape (new_problem (vocab o) (name_of form))
              (new_shape (shape_of form) (name_of form)) in
  decl_dimensionValue (vocab o) = true /\
  (float_of_string (str_strip (form_dim1_value form)) = None /\
   problems (base o') !! name_of form = Some p0
   \/
   exists d1,
     make_dimension (vocab o)
       (or_default (str_strip (form_dim1_name form)) "dim1")
       (str_strip (form_dim1_value form)) = Some d1 /\
     str_strip (form_dim2_value form) <> ""%string /\
     float_of_string (str_strip (form_dim2_value form)) = None /\
     problems (base o') !! name_of form = Some (link_first p0 d1)).
Proof.
  intros H. unfold name_of, shape_of. add_cases H.
  - (* the second value *)
    match goal with
    | Hd : make_dimension _ _ _ = None |- _ =>
        apply make_dimension_fails in Hd; simpl in Hd; destruct Hd as [Hv Hf]
    end.
    match goal with
    | Hb : String.eqb _ "" = false |- _ => apply String.eqb_neq in Hb
    end.
    split; [exact Hv|]. right. eexists. split; [eassumption|].
    split; [assumption|]. split; [exact Hf|].
    simpl. apply lookup_insert_eq.
  - (* the first value *)
    match goal with
    | Hd : make_dimension _ _ _ = None |- _ =>
        apply make_dimension_fails in Hd; simpl in Hd; destruct Hd as [Hv Hf]
    end.
    split; [exact Hv|]. left. split; [exact Hf|].
    simpl. apply lookup_insert_eq.
Qed.

(** X23. What [add_problem] has created when a later step fails stays in
    the ontology.  A request that ends with the notice of an unknown shape
    leaves the new Problem behind, without shape or dimensions.  One that
    ends with the notice that the dimension values must be numbers leaves it
    behind with its shape and without a stored answer: with no dimension
    when it is the first value that [float] does not read, and with the
    first dimension when it is the second.  In both cases, as after a
    successful request, the name is then in use: every later request for a
    Problem of that name, whatever it enters, is rejected as already
    existing. *)
Theorem failed_request_leaves_the_problem (form : Form) (o o' : Ontology)
    (out : add_outcome) :
  add_problem form o = Some (out, o') ->
  rejected out = false ->
  (exists p,
     problems (base o') !! name_of form = Some p /\
     problem_name p = name_of form /\
     (out = UnknownShape ->
      has_class o (shape_of form) = false /\
      resolves_other o' (shape_of form) = false /\
      p = new_problem (vocab o) (name_of form) /\
      shape_for_problem p = (None, None) /\
      dims_for_problem p = []) /\
     (out = InvalidNumber ->
      decl_dimensionValue (vocab o) = true /\
      hasShape p = assign (declared (decl_hasShape (vocab o)))
                     (new_shape (shape_of form) (name_of form)) /\
      (decl_hasShape (vocab o) = true ->
       fst (shape_for_problem p) = Some (added_kind (shape_of form))) /\
      correctAnswer p = declared_prop (decl_correctAnswer (vocab o)) /\
      (float_of_string (str_strip (form_dim1_value form)) = None /\
       dims_for_problem p = []
       \/
       exists x1,
         float_of_string (str_strip (form_dim1_value form)) = Some x1 /\
         str_strip (form_dim2_value form) <> ""%string /\
         float_of_string (str_strip (form_dim2_value form)) = None /\
         (complete (vocab o) ->
          dims_for_problem p = [form_entry (form_dim1_name form) "dim1" x1])))) /\
  (forall form',
     form_method form' = POST -> name_of form' = name_of form ->
     shape_of form' <> ""%string ->
     str_strip (form_dim1_value form') <> ""%string ->
     add_problem form' o' = Some (AlreadyExists, o')).
Proof.
  intros H Hr.
  destruct (add_problem_free form o o' out H Hr) as [Hfree Hused].
  assert (Hname : name_of form <> ""%string).
  { unfold name_of. add_cases H; try discriminate Hr.
    all: match goal with
         | Hb : _ || _ || _ = false |- _ =>
             apply orb_false_iff in Hb; destruct Hb as [Hb _];
             apply orb_false_iff in Hb; destruct Hb as [Hb _];
             now apply String.eqb_neq in Hb
         end. }
  split.
  2:{ intros form' Hm Hn H2 H3. apply add_problem_taken; auto; congruence. }
  assert (Hp : exists p, problems (base o') !! name_of form = Some p /\
                         problem_name p = name_of form).
  { unfold name_of in *. add_cases H; try discriminate Hr; simpl;
      rewrite lookup_insert_eq; eauto. }
  destruct Hp as (p & Hp & Hpn). exists p.
  split; [exact Hp|]. split; [exact Hpn|]. split.
  - intros ->.
    assert (E : has_class o (shape_of form) = false /\
                resolves_other o' (shape_of form) = false /\
                problems (base o') !! name_of form
                = Some (new_problem (vocab o) (name_of form))).
    { unfold name_of, shape_of. clear Hp. add_cases H. split; [|split].
      - match goal with
        | Hb : negb _ = true |- _ => now apply negb_true_iff in Hb
        end.
      - assumption.
      - simpl. apply lookup_insert_eq. }
    destruct E as (E1 & E2 & E3). rewrite Hp in E3. injection E3 as ->.
    split; [exact E1|]. split; [exact E2|]. split; [reflexivity|].
    apply new_problem_bare.
  - intros ->.
    destruct (add_problem_invalid form o o' H) as [Hv Hcase].
    split; [exact Hv|].
    destruct Hcase as [[Hf E] | (d1 & Hd1 & Hne & Hf & E)];
      rewrite Hp in E; injection E as ->.
    + split; [reflexivity|].
      split; [intros Hs; apply (shape_of_added _ (shape_of form) (name_of form));
              simpl; now rewrite Hs|].
      split; [reflexivity|]. left. split; [exact Hf|].
      unfold dims_for_problem, inline_dims. simpl.
      now destruct (decl_hasProblemDimension (vocab o)),
        (decl_hasDimension (vocab o)), (decl_dimensionValue (vocab o)).
    + split; [reflexivity|].
      split; [intros Hs; apply (shape_of_added _ (shape_of form) (name_of form));
              simpl; now rewrite Hs|].
      split; [reflexivity|]. right.
      unfold make_dimension in Hd1. rewrite Hv in Hd1. simpl in Hd1.
      destruct (float_of_string (str_strip (form_dim1_value form))) as [x1|]
        eqn:Hx1; [|discriminate].
      injection Hd1 as <-. exists x1. split; [reflexivity|].
      split; [exact Hne|]. split; [exact Hf|].
      intros (_ & H2 & _ & H4 & _).
      unfold dims_for_problem, form_entry. simpl. rewrite H2, H4. reflexivity.
Qed.

Lemma failed_request_leaves_the_problem_witness :
  exists p,
    problems (base (after bad_value_form empty_ontology)) !! "C2"%string
    = Some p /\
    fst (shape_for_problem p) = Some "Circle"%string /\
    dims_for_problem p = [] /\
    add_problem (post "C2" "Circle" "radius" "2" "" "")
      (after bad_value_form empty_ontology)
    = Some (AlreadyExists, after bad_value_form empty_ontology).
Proof.
  destruct (failed_request_leaves_the_problem bad_value_form
              empty_ontology (after bad_value_form empty_ontology)
              InvalidNumber ltac:(vm_compute; reflexivity) eq_refl)
    as [(p & Hp & _ & _ & Hinv) Hlater].
  destruct (Hinv eq_refl) as (_ & _ & Hshape & _ & Hdims).
  exists p. split; [exact Hp|]. split; [exact (Hshape eq_refl)|]. split.
  - destruct Hdims as [[_ Hd] | (x1 & Hx1 & _)]; [exact Hd | discriminate Hx1].
  - apply Hlater; first [reflexivity | discriminate].
Defined.

(** *** Submissions to an added Problem *)

Lemma answer_for_unknown (kind : string) (dims : list dim) :
  is_known_kind kind = false -> answer_for (Some kind) dims = None.
Proof.
  unfold is_known_kind, known_kinds, answer_for. cbn [existsb].
  rewrite !orb_false_iff. intros (H1 & H2 & H3 & H4 & _).
  now rewrite H1, H2, H3, H4.
Qed.

(** X24. An added Problem is graded against the answer computed when it
    was created.  A posted submission of a number to it, on a form with the
    [student] field, is graded by [approx_equal] against that answer in an
    ontology with the Student and the Attempt class (the scores and the
    numbers of attempts of the Students being in the range of [float]), and
    ends with the notice of the missing class, nothing changed, in an
    ontology without one of them.  When no answer could be computed, as for
    every class that is none of the four kinds, nothing was stored either,
    and every such submission to the Problem ends with the notice that the
    answer cannot be computed or read. *)
Theorem submissions_to_added_problem (form : Form) (o o' : Ontology)
    (sub : Posted) (student : string) (a : float) :
  complete (vocab o) ->
  add_problem form o = Some (Created, o') ->
  posted_student sub = Some student ->
  float_of_value (posted_answer sub) = Some a ->
  exists p,
    problems (base o') !! name_of form = Some p /\
    match compute_answer p with
    | Some c =>
        (has_Student (schema (base o')) && has_Attempt (schema (base o'))
         = true ->
         Spec.in_float_range (base o') ->
         exists st',
           problem_submit_posted (name_of form) sub (base o')
           = (Some (Graded (approx_equal (PyFloat a) (PyFloat c)) a c), st')) /\
        (has_Student (schema (base o')) && has_Attempt (schema (base o'))
         = false ->
         problem_submit_posted (name_of form) sub (base o')
         = (Some ClassNotFound, base o'))
    | None =>
        problem_submit_posted (name_of form) sub (base o')
        = (Some CannotGrade, base o')
    end /\
    (is_known_kind (added_kind (shape_of form)) = false ->
     compute_answer p = None).
Proof.
  intros Hc H Hst Ha.
  destruct (add_problem_created form o o' Hc H)
    as (p & x1 & ds & Hp & _ & Hshape & _ & _ & _ & _ & Hstored).
  pose proof (shape_of_added p _ _ Hshape) as Hk.
  pose proof (stored_of_attached p Hstored) as Hs.
  exists p. split; [exact Hp|]. split.
  - rewrite (SubmitProps.problem_submit_posted_found _ _ _ p student Hp Hst).
    destruct (compute_answer p) as [c|] eqn:Hcomp.
    + assert (Hcv : correct_value p = Some c)
        by (unfold correct_value; now rewrite Hcomp).
      split.
      * intros Hcl Hcount.
        destruct (SubmitProps.problem_submit_grades (name_of form)
                    (request_of student sub) (base o') p a c Hp Ha Hcv Hcl
                    Hcount) as [st' E].
        exists st'. now rewrite E.
      * intros Hcl. unfold problem_submit.
        rewrite Hp. cbn [request_of form_answer]. now rewrite Ha, Hcv, Hcl.
    + unfold problem_submit, correct_value.
      rewrite Hp. cbn [request_of form_answer]. now rewrite Ha, Hcomp, Hs.
  - intros Hu. unfold compute_answer. rewrite Hk.
    now apply answer_for_unknown.
Qed.

Lemma submissions_to_added_problem_witness :
  exists st',
    problem_submit_posted "C1" (posted "bob" "12.5")
      (base (after circle_form empty_ontology))
    = (Some (Graded true 12.5 (4 * pi)), st').
Proof.
  destruct (submissions_to_added_problem circle_form empty_ontology
              (after circle_form empty_ontology) (posted "bob" "12.5")
              "bob" 12.5
              ltac:(repeat split) ltac:(vm_compute; reflexivity)
              eq_refl eq_refl)
    as (p & Hp & Hg & _).
  assert (Hc : compute_answer p = Some (4 * pi)).
  { vm_compute in Hp. injection Hp as <-. vm_compute. reflexivity. }
  rewrite Hc in Hg. destruct Hg as [Hg _].
  destruct Hg as [st' Hg]; [vm_compute; reflexivity | |].
  - intros nm s Hs. vm_compute in Hs. discriminate Hs.
  - exists st'. exact Hg.
Defined.

End ManageProps.
